(** * DreamDirector: the story state machine of [agents/agent.py] and the
      make-choice boundary of [backend/app.py]

    The development embeds the synchronous part of the narrative engine:
    the process-wide [game_state], the image path
    ([generate_consistent_image], [generate_establishing_scene],
    [create_single_choice_image]), the story operations
    ([start_new_adventure], [begin_opening_scene], [present_story_choice],
    [resolve_user_choice], [continue_narrative], [create_story_climax]) and
    the two HTTP handlers that sequence them.

    Conventions.
    - Python [str] is [string], read as the UTF-8 encoding of the text: [in]
      on strings is substring search, [startswith], [split] and slicing off
      an ASCII label work on the bytes, and [str.strip] removes every
      character Python counts as white space, in its one-, two- or
      three-byte encoding.
    - [str.lower] follows the Unicode case tables, which are not embedded.
      The operations embedded here use it only to look for ASCII keywords in
      the lowered text, and [PyStr.lower] gives the ASCII characters of the lowered text
      exactly: it lowers the letters A to Z and the two characters outside
      ASCII whose lower-case form has an ASCII letter in it, the Kelvin sign
      and the dotted capital I. The operations that call [str.lower] also
      come in a general form that takes the lowering function as an argument
      (names ending in [_with]); the operation named as in the source is the
      instance at [PyStr.lower].
    - Python [int] is [Z].
    - The global [game_state] is threaded explicitly: an operation takes the
      state and returns its result together with the new state.
    - Remote collaborators (text, image and video providers) are replaced by
      the outcome they deliver, passed as an argument of the operation that
      consults them.
    - Music is produced by daemon threads that only append to
      [generated_music] and touch [audio_state] later on; the operations
      below keep the dictionary the caller gets back synchronously.
    - [datetime.now().isoformat()] stamps written into history entries are
      left out of the events; the stamp that becomes part of an image or video
      file name is kept. *)

From Stdlib Require Import ZArith String Ascii Bool List Lia.
From stdpp Require Import gmap strings list.

Local Open Scope string_scope.
Local Open Scope Z_scope.

(** ** Python strings *)

Module PyStr.

(** Text made of ASCII characters only. *)
Fixpoint is_ascii (s : string) : bool :=
  match s with
  | EmptyString => true
  | String c rest => (nat_of_ascii c <? 128)%nat && is_ascii rest
  end.

(** [c.lower()] for one ASCII character. *)
Definition lower_char (c : ascii) : ascii :=
  let n := nat_of_ascii c in
  if ((65 <=? n)%nat && (n <=? 90)%nat)%bool then ascii_of_nat (n + 32) else c.

(** The dotted capital I, U+0130, is [C4 B0]. *)
Definition dotted_capital_i (c d : ascii) : bool :=
  (nat_of_ascii c =? 196)%nat && (nat_of_ascii d =? 176)%nat.

(** The Kelvin sign, U+212A, is [E2 84 AA]. *)
Definition kelvin_sign (c d e : ascii) : bool :=
  (nat_of_ascii c =? 226)%nat &&
  ((nat_of_ascii d =? 132)%nat && (nat_of_ascii e =? 170)%nat).

(** [s.lower()], as far as the ASCII characters of the result go. The
    letters A to Z are lowered; the dotted capital I becomes "i" followed by
    the combining dot U+0307 ([CC 87]) and the Kelvin sign becomes "k". No
    other character outside ASCII has an ASCII character in its lower-case
    form, and no character has an empty one: such a character is left as it
    is here, where [str.lower] puts some other text without ASCII
    characters in its place. A test [keyword in s.lower()] with an ASCII
    keyword, the only use the operations below make of [str.lower], does not
    tell the two apart. *)
Fixpoint lower (s : string) : string :=
  match s with
  | EmptyString => EmptyString
  | String c rest =>
      match rest with
      | EmptyString => String (lower_char c) (lower rest)
      | String d rest2 =>
          if dotted_capital_i c d
          then String "i" (String "204" (String "135" (lower rest2)))
          else
            match rest2 with
            | EmptyString => String (lower_char c) (lower rest)
            | String e rest3 =>
                if kelvin_sign c d e then String "k" (lower rest3)
                else String (lower_char c) (lower rest)
            end
      end
  end.

(** [s.startswith(p)]. *)
Definition startswith (p s : string) : bool := String.prefix p s.

(** [needle in hay]: [needle] occurs as a contiguous substring of [hay]. *)
Fixpoint py_in (needle hay : string) : bool :=
  match hay with
  | EmptyString => startswith needle EmptyString
  | String _ rest => startswith needle hay || py_in needle rest
  end.

(** Truthiness of a string: [if s:] holds for a non-empty string. *)
Definition truthy (s : string) : bool :=
  match s with EmptyString => false | String _ _ => true end.

(** White space of [str.strip()] that is one byte long: U+0009 to U+000D,
    U+001C to U+001F and the space. *)
Definition is_space (c : ascii) : bool :=
  let n := nat_of_ascii c in
  ((9 <=? n)%nat && (n <=? 13)%nat) || ((28 <=? n)%nat && (n <=? 32)%nat).

(** White space that is two bytes long: U+0085 ([C2 85]) and U+00A0
    ([C2 A0]). *)
Definition two_byte_space (c d : ascii) : bool :=
  (nat_of_ascii c =? 194)%nat &&
  ((nat_of_ascii d =? 133)%nat || (nat_of_ascii d =? 160)%nat).

(** White space that is three bytes long: U+1680 ([E1 9A 80]), U+2000 to
    U+200A ([E2 80 80] to [E2 80 8A]), U+2028, U+2029 and U+202F
    ([E2 80 A8], [E2 80 A9], [E2 80 AF]), U+205F ([E2 81 9F]) and U+3000
    ([E3 80 80]). *)
Definition three_byte_space (c d e : ascii) : bool :=
  let x := nat_of_ascii c in
  let y := nat_of_ascii d in
  let z := nat_of_ascii e in
  ((x =? 225)%nat && ((y =? 154)%nat && (z =? 128)%nat)) ||
  ((x =? 226)%nat &&
   (((y =? 128)%nat &&
     (((128 <=? z)%nat && (z <=? 138)%nat) ||
      (z =? 168)%nat || (z =? 169)%nat || (z =? 175)%nat)) ||
    ((y =? 129)%nat && (z =? 159)%nat))) ||
  ((x =? 227)%nat && ((y =? 128)%nat && (z =? 128)%nat)).

(** [k] is the encoding of exactly one white-space character. *)
Definition is_space_char (k : string) : bool :=
  match k with
  | String c EmptyString => is_space c
  | String c (String d EmptyString) => two_byte_space c d
  | String c (String d (String e EmptyString)) => three_byte_space c d e
  | _ => false
  end.

(** The text that follows one leading white-space character, if [s] starts
    with one. *)
Definition space_head (s : string) : option string :=
  match s with
  | EmptyString => None
  | String c rest =>
      if is_space c then Some rest
      else
        match rest with
        | EmptyString => None
        | String d rest2 =>
            if two_byte_space c d then Some rest2
            else
              match rest2 with
              | EmptyString => None
              | String e rest3 =>
                  if three_byte_space c d e then Some rest3 else None
              end
        end
  end.

(** [s.lstrip()]: leading white-space characters are passed over one after
    the other. *)
Fixpoint lstrip (s : string) : string :=
  match s with
  | EmptyString => EmptyString
  | String c rest =>
      if is_space c then lstrip rest
      else
        match rest with
        | EmptyString => s
        | String d rest2 =>
            if two_byte_space c d then lstrip rest2
            else
              match rest2 with
              | EmptyString => s
              | String e rest3 =>
                  if three_byte_space c d e then lstrip rest3 else s
              end
        end
  end.

(** [s.rstrip()]: a byte is dropped when, together with what is kept of the
    text after it, it makes up one white-space character. *)
Fixpoint rstrip (s : string) : string :=
  match s with
  | EmptyString => EmptyString
  | String c rest =>
      let kept := String c (rstrip rest) in
      if is_space_char kept then EmptyString else kept
  end.

(** [s.strip()]. *)
Definition strip (s : string) : string := rstrip (lstrip s).

(** [s.split(sep)] for a non-empty separator: the current piece is
    accumulated in reverse, and [skip] counts the characters of a separator
    that has just been recognised and still have to be passed over. *)
Fixpoint split_acc (sep : string) (skip : nat) (acc : string) (s : string)
  : list string :=
  match s with
  | EmptyString => [String.rev acc]
  | String c rest =>
      match skip with
      | S k => split_acc sep k acc rest
      | O =>
          if startswith sep s
          then String.rev acc ::
               split_acc sep (Nat.pred (String.length sep)) EmptyString rest
          else split_acc sep O (String c acc) rest
      end
  end.

Definition split (sep s : string) : list string :=
  split_acc sep O EmptyString s.

(** The one-character string made of a line feed. *)
Definition newline : string := String "010"%char EmptyString.

(** [s[n:]]. *)
Fixpoint drop_chars (n : nat) (s : string) : string :=
  match n, s with
  | O, _ => s
  | S n', String _ rest => drop_chars n' rest
  | S _, EmptyString => EmptyString
  end.

End PyStr.

Import PyStr.

(** ** Data model *)

(** [VisualStyle]: art direction and the per-entity visual references. *)
Record VisualStyle := mkVisualStyle {
  art_style : string;
  color_palette : string;
  character_references : gmap string string;
  location_references : gmap string string;
  style_seed : string
}.

(** [scene_media_count], a dictionary with the fixed keys ["images"],
    ["videos"] and ["music"]. *)
Record MediaCount := mkMediaCount {
  images : Z;
  videos : Z;
  music : Z
}.

(** One entry of [world_knowledge[category][key]]. *)
Record MemoryEntry := mkMemoryEntry {
  memory_value : string;
  memory_category : string
}.

(** What [trigger_scene_music] hands back: a logged cue. *)
Record MusicCue := mkMusicCue {
  cue_status : string;
  cue_scene_type : string;
  cue_emotional_tone : string;
  cue_characters : list string
}.

(** What [generate_scene_music] and [orchestrate_adaptive_music] hand back
    once the daemon thread has been started. *)
Record MusicResult := mkMusicResult {
  music_scene_context : string;
  music_emotional_tone : string;
  music_status : string
}.

(** Result dictionary of [generate_establishing_scene]. *)
Record SceneResult := mkSceneResult {
  scene_location : string;
  scene_mood : string;
  scene_details : string;
  scene_characters : string;
  scene_generated_file : option string;
  scene_image_status : string;
  scene_adaptive_music : MusicCue;
  scene_media_balance : Z
}.

(** Result dictionary of [create_single_choice_image]. *)
Record ChoiceImageResult := mkChoiceImageResult {
  generated_image : option string;
  choice_image_status : string
}.

(** Result dictionary of [create_dramatic_outcome]. *)
Record OutcomeResult := mkOutcomeResult {
  outcome_chosen_action : string;
  outcome_difficulty : string;
  outcome_context : string;
  outcome_single_image : ChoiceImageResult;
  outcome_music : MusicCue
}.

(** Result dictionary of [create_choice_previews]: the three labelled texts,
    none of which gets a preview image. *)
Record ChoicePreviews := mkChoicePreviews {
  previews_situation : string;
  previews_choices : list (string * string);
  previews_music : MusicCue
}.

(** Result dictionary of [create_epic_climax_video]. *)
Record ClimaxVideoResult := mkClimaxVideoResult {
  video_generated_file : option string;
  video_seed_image : option string;
  video_status : string
}.

(** Entries of [story_history], one constructor per shape of dictionary
    appended by the source; [event_type] gives the ['type'] key. *)
Inductive StoryEvent :=
| OpeningSceneEvent (content : SceneResult)
| ChoiceMomentEvent (situation : string) (content : ChoicePreviews)
| ChoiceResolutionEvent (chosen_option ai_narrative : string)
    (content : OutcomeResult)
| StoryContinuationEvent (content new_scene : string) (choices_made : Z)
| SceneContinuationEvent (scene mood : string) (music_result : MusicResult)
| StoryClimaxEvent (final_choice : string) (epic_video : ClimaxVideoResult)
    (image_result : ChoiceImageResult) (finale_music : MusicResult).

Definition event_type (e : StoryEvent) : string :=
  match e with
  | OpeningSceneEvent _ => "opening_scene"
  | ChoiceMomentEvent _ _ => "choice_moment"
  | ChoiceResolutionEvent _ _ _ => "choice_resolution"
  | StoryContinuationEvent _ _ _ => "story_continuation"
  | SceneContinuationEvent _ _ _ => "story_continuation"
  | StoryClimaxEvent _ _ _ _ => "story_climax"
  end.

(** [GameState]; [audio_state] belongs to the background audio threads and
    is not carried here. *)
Record GameState := mkGameState {
  current_scene : string;
  current_mood : string;
  characters_present : list string;
  user_inventory : list string;
  story_history : list StoryEvent;
  world_knowledge : gmap string (gmap string MemoryEntry);
  current_danger_level : Z;
  user_choices_made : Z;
  generated_images : list string;
  generated_videos : list string;
  generated_music : list string;
  visual_style : VisualStyle;
  scene_media_count : MediaCount
}.

(** Field defaults of the dataclasses. *)
Definition default_visual_style : VisualStyle :=
  {| art_style := "cinematic fantasy realism";
     color_palette := "rich atmospheric lighting with dramatic shadows";
     character_references := ∅;
     location_references := ∅;
     style_seed := "epic_fantasy_2024" |}.

Definition zero_media_count : MediaCount :=
  {| images := 0; videos := 0; music := 0 |}.

(** [game_state = GameState()]. *)
Definition initial_game_state : GameState :=
  {| current_scene := "mysterious_forest";
     current_mood := "mysterious";
     characters_present := [];
     user_inventory := [];
     story_history := [];
     world_knowledge := ∅;
     current_danger_level := 1;
     user_choices_made := 0;
     generated_images := [];
     generated_videos := [];
     generated_music := [];
     visual_style := default_visual_style;
     scene_media_count := zero_media_count |}.

(** Assignments to single attributes of [game_state]. *)
Definition set_current_scene (v : string) (s : GameState) : GameState :=
  mkGameState v (current_mood s) (characters_present s) (user_inventory s)
    (story_history s) (world_knowledge s) (current_danger_level s)
    (user_choices_made s) (generated_images s) (generated_videos s)
    (generated_music s) (visual_style s) (scene_media_count s).

Definition set_current_mood (v : string) (s : GameState) : GameState :=
  mkGameState (current_scene s) v (characters_present s) (user_inventory s)
    (story_history s) (world_knowledge s) (current_danger_level s)
    (user_choices_made s) (generated_images s) (generated_videos s)
    (generated_music s) (visual_style s) (scene_media_count s).

Definition set_characters_present (v : list string) (s : GameState)
  : GameState :=
  mkGameState (current_scene s) (current_mood s) v (user_inventory s)
    (story_history s) (world_knowledge s) (current_danger_level s)
    (user_choices_made s) (generated_images s) (generated_videos s)
    (generated_music s) (visual_style s) (scene_media_count s).

Definition set_story_history (v : list StoryEvent) (s : GameState)
  : GameState :=
  mkGameState (current_scene s) (current_mood s) (characters_present s)
    (user_inventory s) v (world_knowledge s) (current_danger_level s)
    (user_choices_made s) (generated_images s) (generated_videos s)
    (generated_music s) (visual_style s) (scene_media_count s).

Definition set_current_danger_level (v : Z) (s : GameState) : GameState :=
  mkGameState (current_scene s) (current_mood s) (characters_present s)
    (user_inventory s) (story_history s) (world_knowledge s) v
    (user_choices_made s) (generated_images s) (generated_videos s)
    (generated_music s) (visual_style s) (scene_media_count s).

Definition set_user_choices_made (v : Z) (s : GameState) : GameState :=
  mkGameState (current_scene s) (current_mood s) (characters_present s)
    (user_inventory s) (story_history s) (world_knowledge s)
    (current_danger_level s) v (generated_images s) (generated_videos s)
    (generated_music s) (visual_style s) (scene_media_count s).

Definition set_generated_images (v : list string) (s : GameState)
  : GameState :=
  mkGameState (current_scene s) (current_mood s) (characters_present s)
    (user_inventory s) (story_history s) (world_knowledge s)
    (current_danger_level s) (user_choices_made s) v (generated_videos s)
    (generated_music s) (visual_style s) (scene_media_count s).

Definition set_generated_videos (v : list string) (s : GameState)
  : GameState :=
  mkGameState (current_scene s) (current_mood s) (characters_present s)
    (user_inventory s) (story_history s) (world_knowledge s)
    (current_danger_level s) (user_choices_made s) (generated_images s) v
    (generated_music s) (visual_style s) (scene_media_count s).

Definition set_visual_style (v : VisualStyle) (s : GameState) : GameState :=
  mkGameState (current_scene s) (current_mood s) (characters_present s)
    (user_inventory s) (story_history s) (world_knowledge s)
    (current_danger_level s) (user_choices_made s) (generated_images s)
    (generated_videos s) (generated_music s) v (scene_media_count s).

Definition set_scene_media_count (v : MediaCount) (s : GameState)
  : GameState :=
  mkGameState (current_scene s) (current_mood s) (characters_present s)
    (user_inventory s) (story_history s) (world_knowledge s)
    (current_danger_level s) (user_choices_made s) (generated_images s)
    (generated_videos s) (generated_music s) (visual_style s) v.

Definition set_art_style (v : string) (vs : VisualStyle) : VisualStyle :=
  mkVisualStyle v (color_palette vs) (character_references vs)
    (location_references vs) (style_seed vs).

Definition set_location_references (v : gmap string string) (vs : VisualStyle)
  : VisualStyle :=
  mkVisualStyle (art_style vs) (color_palette vs) (character_references vs) v
    (style_seed vs).

(** [game_state.story_history.append(e)]. *)
Definition append_history (e : StoryEvent) (s : GameState) : GameState :=
  set_story_history (story_history s ++ [e]) s.

(** [game_state.scene_media_count["images"] += 1]. *)
Definition bump_images (s : GameState) : GameState :=
  let c := scene_media_count s in
  set_scene_media_count (mkMediaCount (images c + 1) (videos c) (music c)) s.

(** [game_state.scene_media_count["videos"] += 1]. *)
Definition bump_videos (s : GameState) : GameState :=
  let c := scene_media_count s in
  set_scene_media_count (mkMediaCount (images c) (videos c + 1) (music c)) s.

(** ** Collaborator outcomes *)

(** What a call of the image path of [generate_consistent_image] runs into:
    no client, an exception caught by its handler, a response without
    images, or an image saved under the given time stamp. *)
Inductive ImageReply :=
| ImageClientFailed
| ImageRaised
| ImageNoneGenerated
| ImageSaved (timestamp : string).

(** Outcomes of [generate_video_from_image_seed]. The polling loop of the
    source has no bound of its own; a reply stands for a run in which the
    provider's operation has finished. *)
Inductive VideoReply :=
| VideoClientFailed
| VideoSeedMissing
| VideoRaised
| VideoNoneGenerated
| VideoSaved (timestamp : string).

(** Outcomes of a [generate_content] request: no client, an exception, a
    response whose [text] attribute is a string or [None], or a response
    without that attribute (then [str(response)] is what the caller sees). *)
Inductive TextReply :=
| TextClientFailed
| TextRaised
| TextResponse (text : option string)
| TextNoAttribute (repr : string).

(** Python exceptions that escape an operation. *)
Inductive PyException :=
| UnboundLocalError (variable : string).

Inductive PyResult (A : Type) :=
| Returned (value : A)
| Raised (exc : PyException).

Arguments Returned {A} value.
Arguments Raised {A} exc.

(** ** Scenario templates *)

Record Scenario := mkScenario {
  setting : string;
  hook : string;
  scenario_characters : list string;
  scenario_visual_style : string;
  music_themes : list string;
  scenario_choices : list string
}.

(** [demo_scenarios["Cyberpunk Detective Noir"]]. *)
Definition cyberpunk_detective_noir : Scenario :=
  {| setting := "Neo-Tokyo 2087: A rain-soaked metropolis where corporate zaibatsus control reality through neural implants";
     hook := "You're a rogue detective investigating the mysterious 'Serpent's Eye' conspiracy in the digital underground";
     scenario_characters :=
       ["Kira Nakamura - Cybernetic hacker with secrets";
        "Director Sato - Corporate overseer with hidden agenda"];
     scenario_visual_style := "cyberpunk noir with neon highlights and atmospheric rain";
     music_themes := ["Synthwave noir"; "Corporate tension"; "Underground resistance"];
     scenario_choices :=
       ["Infiltrate the corporate tower"; "Meet with underground contacts";
        "Investigate the abandoned subway"] |}.

(** [demo_scenarios["Enchanted Forest Mystery"]]. *)
Definition enchanted_forest_mystery : Scenario :=
  {| setting := "An ancient forest where magic flows through twisted trees and glowing flowers";
     hook := "You discover a hidden grove where a mysterious figure guards the Pool of Fates";
     scenario_characters :=
       ["Fate Weaver - Ancient guardian with cryptic wisdom";
        "Flickering Flame - Playful forest spirit"];
     scenario_visual_style := "mystical fantasy with ethereal lighting and magical particles";
     music_themes := ["Mystical forest ambience"; "Ancient magic"; "Ethereal wonder"];
     scenario_choices :=
       ["Approach the guardian peacefully"; "Observe from the shadows";
        "Call out boldly"] |}.

(** [demo_scenarios["Dragon's Lair Confrontation"]]. *)
Definition dragons_lair_confrontation : Scenario :=
  {| setting := "The volcanic lair of an ancient dragon filled with treasures and dangerous magic";
     hook := "The dragon offers you a choice: great power or great wisdom, but not both";
     scenario_characters :=
       ["Pyraxis the Ancient - Wise but dangerous dragon";
        "Echo - Dragon's mysterious companion"];
     scenario_visual_style := "epic fantasy with dramatic fire lighting and volcanic atmosphere";
     music_themes := ["Epic orchestral drama"; "Dragon's ancient power"; "Volcanic ambience"];
     scenario_choices :=
       ["Accept the power"; "Choose wisdom"; "Propose an alternative"] |}.

(** The scenario built in the [else] branch of [start_new_adventure]. *)
Definition custom_scenario (user_story_request : string) : Scenario :=
  {| setting := "An immersive world based on: " +:+ user_story_request;
     hook := "Your adventure begins with an intriguing mystery that draws you in...";
     scenario_characters := ["Mysterious Guide"; "Helpful Ally"];
     scenario_visual_style := "cinematic realism with atmospheric lighting";
     music_themes := ["Adventure atmosphere"; "Mystery and discovery"];
     scenario_choices :=
       ["Investigate boldly"; "Proceed cautiously"; "Seek allies first"] |}.

(** ** Operations of [agents/agent.py] *)

Section Agent.

(** Module-level flag set by the guarded import of the media SDK. *)
Variable MEDIA_GENERATION_AVAILABLE : bool.

(** [generate_consistent_image]: on success the file name is appended to
    [generated_images] and the image count goes up by one; every failure
    returns [None] and leaves the state alone. *)
Definition generate_consistent_image (reply : ImageReply) (s : GameState)
  : option string * GameState :=
  match reply with
  | ImageClientFailed => (None, s)
  | ImageRaised => (None, s)
  | ImageNoneGenerated => (None, s)
  | ImageSaved timestamp =>
      let filename := "generated_scene_" +:+ timestamp +:+ ".png" in
      let s1 := set_generated_images (generated_images s ++ [filename]) s in
      let s2 := bump_images s1 in
      (Some filename, s2)
  end.

(** [generate_video_from_image_seed]. *)
Definition generate_video_from_image_seed (seed_image_path : string)
    (reply : VideoReply) (s : GameState) : option string * GameState :=
  match reply with
  | VideoClientFailed => (None, s)
  | VideoSeedMissing => (None, s)
  | VideoRaised => (None, s)
  | VideoNoneGenerated => (None, s)
  | VideoSaved timestamp =>
      if truthy seed_image_path then
        let filename := "generated_video_" +:+ timestamp +:+ ".mp4" in
        let s1 := set_generated_videos (generated_videos s ++ [filename]) s in
        let s2 := bump_videos s1 in
        (Some filename, s2)
      else (None, s)
  end.

(** [trigger_scene_music]: logs the cue and reports it. *)
Definition trigger_scene_music (scene_type emotional_tone : string)
    (characters : list string) : MusicCue :=
  {| cue_status := "music_cued";
     cue_scene_type := scene_type;
     cue_emotional_tone := emotional_tone;
     cue_characters := characters |}.

(** [generate_scene_music]: starts the daemon thread and reports that. *)
Definition generate_scene_music (scene_context emotional_tone : string)
  : MusicResult :=
  {| music_scene_context := scene_context;
     music_emotional_tone := emotional_tone;
     music_status := "generating_single_track" |}.

(** [orchestrate_adaptive_music]: starts the streaming thread and reports
    that. *)
Definition orchestrate_adaptive_music (scene_context emotional_tone : string)
  : MusicResult :=
  {| music_scene_context := scene_context;
     music_emotional_tone := emotional_tone;
     music_status := "lyria_streaming_active" |}.

(** [generate_establishing_scene]: the image is requested only while the
    image count is below one. *)
Definition generate_establishing_scene (location mood details characters : string)
    (reply : ImageReply) (s : GameState) : SceneResult * GameState :=
  let music_result :=
    trigger_scene_music "establishing" mood
      (if truthy characters then split ", " characters else []) in
  let should_generate_image := images (scene_media_count s) <? 1 in
  let '(generated_image, s1) :=
    if should_generate_image && MEDIA_GENERATION_AVAILABLE then
      let '(generated_image, s1) := generate_consistent_image reply s in
      match generated_image with
      | Some file =>
          (generated_image,
           set_visual_style
             (set_location_references
                (<[location := file]> (location_references (visual_style s1)))
                (visual_style s1)) s1)
      | None => (generated_image, s1)
      end
    else (None, s) in
  ({| scene_location := location;
      scene_mood := mood;
      scene_details := details;
      scene_characters := characters;
      scene_generated_file := generated_image;
      scene_image_status :=
        match generated_image with
        | Some _ => "generated"
        | None => "prompt_only"
        end;
      scene_adaptive_music := music_result;
      scene_media_balance := images (scene_media_count s1) |}, s1).

(** [create_choice_previews]. *)
Definition create_choice_previews (situation choice_a choice_b choice_c : string)
  : ChoicePreviews :=
  let music_result := trigger_scene_music "choice_moment" "tense" [] in
  {| previews_situation := situation;
     previews_choices := [("A", choice_a); ("B", choice_b); ("C", choice_c)];
     previews_music := music_result |}.

(** [create_single_choice_image]: asks for an image whenever media
    generation is available; after a successful call it appends the file name
    and raises the image count itself. *)
Definition create_single_choice_image (chosen_action difficulty context : string)
    (reply : ImageReply) (s : GameState) : ChoiceImageResult * GameState :=
  let '(generated_image, s2) :=
    if MEDIA_GENERATION_AVAILABLE then
      let '(image_file, s1) := generate_consistent_image reply s in
      let '(generated_image, s1) :=
        match image_file with
        | Some file =>
            (Some file,
             set_generated_images (generated_images s1 ++ [file]) s1)
        | None => (None, s1)
        end in
      match generated_image with
      | Some _ => (generated_image, bump_images s1)
      | None => (generated_image, s1)
      end
    else (None, s) in
  ({| generated_image := generated_image;
      choice_image_status := "choice_image_generated" |}, s2).

(** [create_dramatic_outcome]. *)
Definition create_dramatic_outcome (chosen_action difficulty context : string)
    (reply : ImageReply) (s : GameState) : OutcomeResult * GameState :=
  let music_result := trigger_scene_music "dramatic_outcome" "dramatic" [] in
  let '(image_result, s1) :=
    create_single_choice_image chosen_action difficulty context reply s in
  ({| outcome_chosen_action := chosen_action;
      outcome_difficulty := difficulty;
      outcome_context := context;
      outcome_single_image := image_result;
      outcome_music := music_result |}, s1).

(** Result dictionary of [start_new_adventure]. *)
Record StartResult := mkStartResult {
  start_user_request : string;
  story_type : string;
  scenario : Scenario
}.

(** The [if]/[elif] chain of [start_new_adventure] that picks the story type
    and the scenario; [lower] stands for [str.lower]. *)
Definition select_scenario_with (lower : string -> string)
    (user_story_request : string) : string * Scenario :=
  if py_in "cyberpunk" (lower user_story_request)
     || py_in "detective" (lower user_story_request)
  then ("cyberpunk", cyberpunk_detective_noir)
  else if py_in "fantasy" (lower user_story_request)
          || py_in "knight" (lower user_story_request)
          || py_in "dragon" (lower user_story_request)
  then ("fantasy", dragons_lair_confrontation)
  else if py_in "forest" (lower user_story_request)
          || py_in "magic" (lower user_story_request)
  then ("mystical", enchanted_forest_mystery)
  else ("adventure", custom_scenario user_story_request).

(** The chain with [PyStr.lower] for [str.lower]. *)
Definition select_scenario (user_story_request : string) : string * Scenario :=
  select_scenario_with lower user_story_request.

(** [start_new_adventure]; [lower] stands for [str.lower]. *)
Definition start_new_adventure_with (lower : string -> string)
    (user_story_request : string) (s : GameState)
  : StartResult * GameState :=
  let '(story_type, scenario) :=
    select_scenario_with lower user_story_request in
  let s := set_current_scene (setting scenario) s in
  let s := set_current_mood "mysterious" s in
  let s :=
    set_visual_style
      (set_art_style (scenario_visual_style scenario) (visual_style s)) s in
  let s := set_story_history [] s in
  let s := set_scene_media_count zero_media_count s in
  let s := set_user_choices_made 0 s in
  ({| start_user_request := user_story_request;
      story_type := story_type;
      scenario := scenario |}, s).

(** [start_new_adventure] with [PyStr.lower] for [str.lower]. *)
Definition start_new_adventure (user_story_request : string) (s : GameState)
  : StartResult * GameState :=
  start_new_adventure_with lower user_story_request s.

(** [begin_opening_scene]. *)
Definition begin_opening_scene (reply : ImageReply) (s : GameState)
  : SceneResult * GameState :=
  let current_setting := current_scene s in
  let '(opening_result, s1) :=
    generate_establishing_scene current_setting "mysterious"
      "The adventure begins with an atmosphere of mystery and possibility"
      EmptyString reply s in
  (opening_result, append_history (OpeningSceneEvent opening_result) s1).

(** Result dictionary of [present_story_choice]. *)
Record PresentResult := mkPresentResult {
  present_situation : string;
  choice_a : string;
  choice_b : string;
  choice_c : string;
  choices_detail : ChoicePreviews
}.

(** One round of the line loop that extracts the labelled options. *)
Definition parse_choice_line (acc : string * string * string) (line : string)
  : string * string * string :=
  let '(a, b, c) := acc in
  let line := strip line in
  if startswith "A:" line then (strip (drop_chars 2 line), b, c)
  else if startswith "B:" line then (a, strip (drop_chars 2 line), c)
  else if startswith "C:" line then (a, b, strip (drop_chars 2 line))
  else (a, b, c).

(** The options [present_story_choice] ends up with after consulting the
    text collaborator; any failure leaves them as they were. *)
Definition generated_choices (acc : string * string * string)
    (reply : TextReply) : string * string * string :=
  match reply with
  | TextResponse (Some ai_response) =>
      fold_left parse_choice_line (split newline ai_response) acc
  | _ => acc
  end.

(** [present_story_choice]. *)
Definition present_story_choice (situation choice_a choice_b choice_c : string)
    (reply : TextReply) (s : GameState) : PresentResult * GameState :=
  let situation :=
    if negb (truthy situation)
    then "You find yourself in " +:+ current_scene s
         +:+ ". What is your next move?"
    else situation in
  let '(choice_a, choice_b, choice_c) :=
    if negb (truthy choice_a) && negb (truthy choice_b)
       && negb (truthy choice_c)
    then generated_choices (choice_a, choice_b, choice_c) reply
    else (choice_a, choice_b, choice_c) in
  let choices := create_choice_previews situation choice_a choice_b choice_c in
  let s1 := append_history (ChoiceMomentEvent situation choices) s in
  ({| present_situation := situation;
      choice_a := choice_a;
      choice_b := choice_b;
      choice_c := choice_c;
      choices_detail := choices |}, s1).

(** Result dictionary of [resolve_user_choice]. *)
Record ResolveResult := mkResolveResult {
  resolved_option : string;
  resolved_narrative : string;
  outcome : OutcomeResult;
  resolve_story_progress : Z;
  danger_level : Z;
  resolved_choices_made : Z;
  next_step : string
}.

(** The [try] block of [resolve_user_choice]: [Some] narrative when the block
    completes, [None] when control reaches the handler. A missing client
    raises explicitly; a [text] attribute that is [None] makes the slice in
    the log line raise. *)
Definition narrative_of_reply (reply : TextReply) : option string :=
  match reply with
  | TextClientFailed => None
  | TextRaised => None
  | TextResponse (Some text) => Some text
  | TextResponse None => None
  | TextNoAttribute repr => Some repr
  end.

(** The templated sentence of the [except] handler. *)
Definition fallback_narrative (chosen_option scene : string) : string :=
  "Your choice to " +:+ chosen_option
  +:+ " has immediate consequences in " +:+ scene
  +:+ ". The situation evolves as you face the results of your decision.".

(** [resolve_user_choice]. Every statement that can raise sits inside the
    [try] block or inside an operation with a handler of its own, so the
    operation always returns. *)
Definition resolve_user_choice (chosen_option : string) (text_reply : TextReply)
    (image_reply : ImageReply) (s : GameState) : ResolveResult * GameState :=
  let ai_narrative :=
    match narrative_of_reply text_reply with
    | Some text => text
    | None => fallback_narrative chosen_option (current_scene s)
    end in
  let '(outcome_result, s1) :=
    create_dramatic_outcome ("chosen action: " +:+ chosen_option) "moderate"
      (current_scene s) image_reply s in
  let s2 :=
    append_history
      (ChoiceResolutionEvent chosen_option ai_narrative outcome_result) s1 in
  let s3 := set_current_danger_level (current_danger_level s2 + 1) s2 in
  let s4 := set_user_choices_made (user_choices_made s3 + 1) s3 in
  ({| resolved_option := chosen_option;
      resolved_narrative := ai_narrative;
      outcome := outcome_result;
      resolve_story_progress := Z.of_nat (length (story_history s4));
      danger_level := current_danger_level s4;
      resolved_choices_made := user_choices_made s4;
      next_step :=
        if user_choices_made s4 <? 5 then "continue_story"
        else "story_climax" |}, s4).

(** [continue_story_with_music]. *)
Definition continue_story_with_music (scene_description emotional_tone : string)
    (s : GameState) : MusicResult * GameState :=
  let music_result := orchestrate_adaptive_music scene_description emotional_tone in
  let s1 := set_current_scene scene_description s in
  let s2 := set_current_mood emotional_tone s1 in
  let s3 :=
    append_history
      (SceneContinuationEvent scene_description emotional_tone music_result)
      s2 in
  (music_result, s3).

(** Result dictionary of [continue_narrative]. *)
Record ContinueResult := mkContinueResult {
  narrative : string;
  continued_scene : string;
  continue_story_progress : Z;
  continued_choices_made : Z;
  continue_choices_remaining : Z;
  music_generated : MusicResult;
  continued_danger_level : Z
}.

(** [game_state.characters_present.append(name)]. *)
Definition add_character (name : string) (s : GameState) : GameState :=
  set_characters_present (characters_present s ++ [name]) s.

(** The [if]/[elif] ladder of [continue_narrative] over [choices_made] and
    the keywords of the current scene. It yields the state after the
    assignments of the branch taken and the value bound to
    [narrative_continuation], which stays unbound ([None]) when no rung of
    the outer ladder applies; [lower] stands for [str.lower]. *)
Definition advance_story_with (lower : string -> string) (choices_made : Z)
    (s : GameState) : GameState * option string :=
  if choices_made =? 1 then
    if py_in "cyberpunk" (lower (current_scene s)) then
      (set_current_scene "A hidden underground resistance hideout beneath Neo-Tokyo" s,
       Some "Your actions have triggered corporate attention. You've been contacted by the underground resistance and brought to their secret base. The stakes have escalated - they reveal the Serpent's Eye conspiracy goes deeper than anyone imagined.")
    else if py_in "atlantis" (lower (current_scene s)) then
      (set_current_scene "The ancient Atlantean throne room with mystical technology" s,
       Some "Your exploration has awakened something ancient. The ruins have led you to a massive throne room where Atlantean technology still hums with power. Ancient guardians stir, and you realize you've stumbled into something far greater than a simple exploration.")
    else if py_in "forest" (lower (current_scene s)) then
      (set_current_scene "A mystical clearing where reality bends and magic flows freely" s,
       Some "Your choice has opened a path deeper into the enchanted realm. You now stand in a clearing where the very air shimmers with magic, and you can see portals to other realms flickering in and out of existence.")
    else
      (set_current_scene ("A deeper, more dangerous part of " +:+ current_scene s) s,
       Some "Your actions have consequences. The situation has evolved, and you find yourself facing unexpected challenges that will test your resolve.")
  else if choices_made =? 2 then
    if py_in "cyberpunk" (lower (current_scene s)) then
      (add_character "Director Sato - Corporate AI Overlord"
         (set_current_scene "The corporate zaibatsu tower's executive floors" s),
       Some "The resistance mission has brought you into the heart of enemy territory. You're now infiltrating the highest levels of the corporate tower, where reality itself can be manipulated through neural networks. Corporate agents are closing in.")
    else if py_in "atlantis" (lower (current_scene s)) then
      (add_character "Tidal Guardian - Ancient Atlantean Protector"
         (set_current_scene "The abyssal depths where ancient leviathans guard Atlantean secrets" s),
       Some "The throne room revealed a path to the deepest ocean trenches. Here, massive sea creatures that have lived since Atlantis fell guard the most powerful artifacts. You must prove yourself worthy or face their ancient wrath.")
    else if py_in "forest" (lower (current_scene s)) then
      (add_character "Shadow Weaver - Keeper of Dark Mysteries"
         (set_current_scene "The Shadowrealm where dark magic and light magic clash eternally" s),
       Some "Your magical exploration has drawn you into the Shadowrealm, a dimension where the battle between light and dark magic rages eternally. Here, your choices will determine which side of the cosmic balance you support.")
    else
      (set_current_scene ("A completely new location connected to " +:+ current_scene s) s,
       Some "Your journey has taken an unexpected turn. You've discovered a new realm connected to your adventure, where new allies and enemies await.")
  else if choices_made =? 3 then
    if py_in "cyberpunk" (lower (current_scene s)) then
      (set_current_scene "The digital realm inside the neural network itself" s,
       Some "You've jacked directly into the corporate neural network. Reality is now digital - you exist as data, fighting AI constructs in a realm where thoughts become weapons and memories can be rewritten. The final confrontation with the AI overlord approaches.")
    else if py_in "atlantis" (lower (current_scene s)) then
      (set_current_scene "The timestream portal chamber where past and future Atlantis collide" s,
       Some "The leviathans' test has opened a temporal rift. You can now see Atlantis in its prime and witness its fall. You have the power to change history itself, but doing so could unravel reality.")
    else if py_in "forest" (lower (current_scene s)) then
      (set_current_scene "The World Tree's crown where cosmic forces converge" s,
       Some "Your choices in the Shadowrealm have earned you passage to the World Tree's crown. Here, at the nexus of all realities, you can reshape the fundamental forces of nature itself. But cosmic entities watch your every move.")
    else
      (set_current_scene ("The climactic confrontation arising from " +:+ current_scene s) s,
       Some "The ultimate challenge reveals itself. Everything you've done has led to this pivotal moment where your choices will determine not just your fate, but the fate of all involved.")
  else if choices_made =? 4 then
    if py_in "cyberpunk" (lower (current_scene s)) then
      (set_current_scene "The core of the Serpent's Eye AI system - reality's command center" s,
       Some "You've reached the heart of the conspiracy. The Serpent's Eye is revealed to be a quantum AI that controls reality itself through neural manipulation. One final choice will determine whether humanity remains free or becomes permanently enslaved to artificial intelligence.")
    else if py_in "atlantis" (lower (current_scene s)) then
      (set_current_scene "The moment of Atlantis's original fall - you can change everything" s,
       Some "You stand at the exact moment of Atlantis's destruction. With the power you've gained, you can prevent the fall of the greatest civilization ever known. But doing so might prevent humanity from ever learning to protect itself from such power.")
    else if py_in "forest" (lower (current_scene s)) then
      (set_current_scene "The cosmic loom where reality's threads can be rewoven" s,
       Some "At the World Tree's peak, you've found the cosmic loom that weaves the threads of reality itself. You can reshape the natural order, restore balance to magic, or claim ultimate power. The cosmic forces await your final decision.")
    else
      (set_current_scene ("The ultimate threshold of " +:+ current_scene s) s,
       Some "You stand at the ultimate threshold. Your journey has brought you to a point where a single choice will reshape everything. The final moment of truth has arrived.")
  else (s, None).

(** The ladder with [PyStr.lower] for [str.lower]. *)
Definition advance_story (choices_made : Z) (s : GameState)
  : GameState * option string :=
  advance_story_with lower choices_made s.

(** [continue_narrative]; [lower] stands for [str.lower]. The danger level
    is assigned before the history entry is built, so a run that finds
    [narrative_continuation] unbound raises with the new danger level
    already stored. *)
Definition continue_narrative_with (lower : string -> string) (s : GameState)
  : PyResult ContinueResult * GameState :=
  let music_result :=
    generate_scene_music ("Story continues in " +:+ current_scene s) "tense" in
  let choices_made := user_choices_made s in
  let '(s1, narrative_continuation) :=
    advance_story_with lower choices_made s in
  let s2 := set_current_danger_level (Z.min 10 (3 + choices_made * 2)) s1 in
  match narrative_continuation with
  | None => (Raised (UnboundLocalError "narrative_continuation"), s2)
  | Some text =>
      let s3 :=
        append_history
          (StoryContinuationEvent text (current_scene s2) choices_made) s2 in
      (Returned
         {| narrative := text;
            continued_scene := current_scene s3;
            continue_story_progress := Z.of_nat (length (story_history s3));
            continued_choices_made := user_choices_made s3;
            continue_choices_remaining := 5 - user_choices_made s3;
            music_generated := music_result;
            continued_danger_level := current_danger_level s3 |}, s3)
  end.

(** [continue_narrative] with [PyStr.lower] for [str.lower]. *)
Definition continue_narrative (s : GameState)
  : PyResult ContinueResult * GameState :=
  continue_narrative_with lower s.

(** [create_epic_climax_video]: the newest image is the seed; a video that
    comes back is appended to [generated_videos] once more. *)
Definition create_epic_climax_video (final_choice context : string)
    (reply : VideoReply) (s : GameState) : ClimaxVideoResult * GameState :=
  let seed_image := last (generated_images s) in
  let '(generated_video, s1) :=
    match seed_image with
    | Some seed =>
        if MEDIA_GENERATION_AVAILABLE && truthy seed then
          let '(generated_video, s1) :=
            generate_video_from_image_seed seed reply s in
          match generated_video with
          | Some file =>
              (generated_video,
               set_generated_videos (generated_videos s1 ++ [file]) s1)
          | None => (generated_video, s1)
          end
        else (None, s)
    | None => (None, s)
    end in
  ({| video_generated_file := generated_video;
      video_seed_image := seed_image;
      video_status :=
        match generated_video with
        | Some _ => "epic_video_generated"
        | None => "epic_video_failed"
        end |}, s1).

(** Result dictionary of [create_story_climax]. *)
Record ClimaxResult := mkClimaxResult {
  climax_final_choice : string;
  epic_climax_video : ClimaxVideoResult;
  backup_image_result : ChoiceImageResult;
  climax_finale_music : MusicResult;
  total_events : Z;
  climax_story_complete : bool
}.

(** [create_story_climax]. *)
Definition create_story_climax (final_choice : string) (video_reply : VideoReply)
    (image_reply : ImageReply) (s : GameState) : ClimaxResult * GameState :=
  let '(epic_video, s1) :=
    create_epic_climax_video final_choice (current_scene s) video_reply s in
  let '(image_result, s2) :=
    create_single_choice_image
      ("final climactic decision: " +:+ final_choice) "epic"
      ("The ultimate confrontation in " +:+ current_scene s1) image_reply s1 in
  let music_result := orchestrate_adaptive_music "epic story finale" "dramatic" in
  let s3 :=
    append_history
      (StoryClimaxEvent final_choice epic_video image_result music_result) s2 in
  let s4 := set_current_danger_level 10 s3 in
  ({| climax_final_choice := final_choice;
      epic_climax_video := epic_video;
      backup_image_result := image_result;
      climax_finale_music := music_result;
      total_events := Z.of_nat (length (story_history s4));
      climax_story_complete := true |}, s4).

End Agent.

(** ** HTTP handlers of [backend/app.py] *)

(** One dictionary of [story_progression]. *)
Record ProgressionEntry := mkProgressionEntry {
  entry_type : string;
  entry_content : string
}.

(** [StoryResponse]; [media_files] is always the empty dictionary and is
    left out. *)
Record StoryResponse := mkStoryResponse {
  response_narrative : string;
  choices : list string;
  scene_description : string;
  mood : string;
  scene_id : string;
  story_complete : bool;
  story_progression : list ProgressionEntry;
  choices_remaining : Z;
  current_choice : Z;
  total_choices : Z
}.

(** What a handler gives back: the response model, or an [HTTPException]
    with its status code. Status 500 wraps the exception caught by the
    handler's [except Exception]. *)
Inductive HttpResult :=
| HttpOk (response : StoryResponse)
| HttpUnavailable
| HttpServerError (exc : PyException).

Definition http_status (r : HttpResult) : Z :=
  match r with
  | HttpOk _ => 200
  | HttpUnavailable => 503
  | HttpServerError _ => 500
  end.

(** Collaborator outcomes met during one [POST /api/start-story]. *)
Record StartEnv := mkStartEnv {
  opening_image_reply : ImageReply;
  opening_choices_reply : TextReply
}.

(** Collaborator outcomes met during one [POST /api/make-choice]; a handler
    run consults only those on the route it takes. *)
Record ChoiceEnv := mkChoiceEnv {
  narrative_reply : TextReply;
  outcome_image_reply : ImageReply;
  next_choices_reply : TextReply;
  climax_video_reply : VideoReply;
  climax_image_reply : ImageReply
}.

Section Backend.

Variable MEDIA_GENERATION_AVAILABLE : bool.

(** Module-level flag set by the guarded import of the agent functions. *)
Variable AGENT_AVAILABLE : bool.

(** [start_story]. *)
Definition start_story (story_request : string) (env : StartEnv) (s : GameState)
  : HttpResult * GameState :=
  if negb AGENT_AVAILABLE then (HttpUnavailable, s)
  else
    let '(init_result, s1) := start_new_adventure story_request s in
    let '(opening_result, s2) :=
      begin_opening_scene MEDIA_GENERATION_AVAILABLE
        (opening_image_reply env) s1 in
    let '(choice_result, s3) :=
      present_story_choice EmptyString EmptyString EmptyString EmptyString
        (opening_choices_reply env) s2 in
    let ai_narrative :=
      if truthy (hook (scenario init_result)) then hook (scenario init_result)
      else "Story initializing..." in
    let ai_situation := present_situation choice_result in
    let ai_narrative :=
      if truthy ai_situation then ai_narrative +:+ " " +:+ ai_situation
      else ai_narrative in
    (HttpOk
       {| response_narrative := ai_narrative;
          choices :=
            [choice_a choice_result; choice_b choice_result;
             choice_c choice_result];
          scene_description := setting (scenario init_result);
          mood := current_mood s3;
          scene_id := "opening_scene";
          story_complete := false;
          story_progression := [];
          choices_remaining := 5;
          current_choice := 0;
          total_choices := 5 |}, s3).

(** [make_choice]. *)
Definition make_choice (choice : string) (env : ChoiceEnv) (s : GameState)
  : HttpResult * GameState :=
  if negb AGENT_AVAILABLE then (HttpUnavailable, s)
  else
    let '(choice_result, s1) :=
      resolve_user_choice MEDIA_GENERATION_AVAILABLE choice
        (narrative_reply env) (outcome_image_reply env) s in
    let ai_narrative := resolved_narrative choice_result in
    let story_progression := [mkProgressionEntry "choice_result" ai_narrative] in
    let user_choices_made := resolved_choices_made choice_result in
    let choices_remaining := 5 - user_choices_made in
    if user_choices_made <? 5 then
      match continue_narrative s1 with
      | (Raised exc, s2) => (HttpServerError exc, s2)
      | (Returned narrative_result, s2) =>
          let story_progression :=
            if truthy (narrative narrative_result)
            then (story_progression
                  ++ [mkProgressionEntry "story_continuation"
                        (narrative narrative_result)])%list
            else story_progression in
          let '(next_choice_result, s3) :=
            present_story_choice EmptyString EmptyString EmptyString
              EmptyString (next_choices_reply env) s2 in
          let new_situation := present_situation next_choice_result in
          let story_progression :=
            (story_progression
             ++ [mkProgressionEntry "new_situation" new_situation])%list in
          let choices :=
            [choice_a next_choice_result; choice_b next_choice_result;
             choice_c next_choice_result] in
          let current_scene := continued_scene narrative_result in
          (HttpOk
             {| response_narrative := ai_narrative;
                choices := choices;
                scene_description := current_scene;
                mood := "mysterious";
                scene_id := EmptyString;
                story_complete := false;
                story_progression := story_progression;
                choices_remaining := choices_remaining;
                current_choice := user_choices_made;
                total_choices := 5 |}, s3)
      end
    else
      let '(climax_result, s2) :=
        create_story_climax MEDIA_GENERATION_AVAILABLE choice
          (climax_video_reply env) (climax_image_reply env) s1 in
      (HttpOk
         {| response_narrative := ai_narrative;
            choices := [];
            scene_description := current_scene s2 +:+ " - FINALE";
            mood := "mysterious";
            scene_id := EmptyString;
            story_complete := true;
            story_progression := story_progression;
            choices_remaining := 0;
            current_choice := 5;
            total_choices := 5 |}, s2).

(** A request arriving at the boundary. *)
Inductive BoundaryCall :=
| StartStory (story_request : string) (env : StartEnv)
| MakeChoice (choice : string) (env : ChoiceEnv).

(** The handler selected by the route of the request. *)
Definition handle (call : BoundaryCall) (s : GameState)
  : HttpResult * GameState :=
  match call with
  | StartStory story_request env => start_story story_request env s
  | MakeChoice choice env => make_choice choice env s
  end.

(** Requests served one after the other on the shared [game_state]: the
    responses in order and the state left behind. The handlers are
    coroutines without a suspension point, so a request runs to its end
    before the next one starts. *)
Fixpoint serve (calls : list BoundaryCall) (s : GameState)
  : list HttpResult * GameState :=
  match calls with
  | [] => ([], s)
  | call :: rest =>
      let '(r, s1) := handle call s in
      let '(rs, s2) := serve rest s1 in
      (r :: rs, s2)
  end.

End Backend.

(** ** Further operations of [agents/agent.py] *)

Definition set_generated_music (v : list string) (s : GameState) : GameState :=
  mkGameState (current_scene s) (current_mood s) (characters_present s)
    (user_inventory s) (story_history s) (world_knowledge s)
    (current_danger_level s) (user_choices_made s) (generated_images s)
    (generated_videos s) v (visual_style s) (scene_media_count s).

Definition set_world_knowledge (v : gmap string (gmap string MemoryEntry))
    (s : GameState) : GameState :=
  mkGameState (current_scene s) (current_mood s) (characters_present s)
    (user_inventory s) (story_history s) v (current_danger_level s)
    (user_choices_made s) (generated_images s) (generated_videos s)
    (generated_music s) (visual_style s) (scene_media_count s).

Definition set_character_references (v : gmap string string) (vs : VisualStyle)
  : VisualStyle :=
  mkVisualStyle (art_style vs) (color_palette vs) v (location_references vs)
    (style_seed vs).

(** Outcomes of [generate_direct_video], which needs no seed image. As for
    the seeded variant, a reply stands for a run whose polling has ended. *)
Inductive DirectVideoReply :=
| DirectVideoClientFailed
| DirectVideoRaised
| DirectVideoNoneGenerated
| DirectVideoSaved (timestamp : string).

(** Result dictionary of [create_character_portrait]. A stored reference
    fills [portrait_existing_reference]; otherwise the generation fields are
    filled and [portrait_reference_count] carries the size of the reference
    store. *)
Record PortraitResult := mkPortraitResult {
  portrait_npc_name : string;
  portrait_personality : string;
  portrait_context : string;
  portrait_emotion : string;
  portrait_existing_reference : option string;
  portrait_generated_file : option string;
  portrait_image_status : string;
  portrait_music : MusicCue;
  portrait_reference_count : option Z;
  portrait_media_balance : option Z;
  portrait_status : string
}.

(** Result dictionary of [maintain_visual_memory]. *)
Record MemoryResult := mkMemoryResult {
  memory_key : string;
  memory_stored_value : string;
  memory_stored_category : string;
  memory_generated_file : option string;
  memory_image_status : string;
  memory_total : Z
}.

(** Result dictionary of [get_story_status]. *)
Record StatusSnapshot := mkStatusSnapshot {
  status_scene : string;
  status_mood : string;
  status_characters : list string;
  story_events : Z;
  status_danger_level : Z;
  status_images : Z;
  status_videos : Z;
  status_music : Z;
  story_stage : string
}.

Section AgentTools.

Variable MEDIA_GENERATION_AVAILABLE : bool.

(** [generate_direct_video]. *)
Definition generate_direct_video (reply : DirectVideoReply) (s : GameState)
  : option string * GameState :=
  match reply with
  | DirectVideoClientFailed => (None, s)
  | DirectVideoRaised => (None, s)
  | DirectVideoNoneGenerated => (None, s)
  | DirectVideoSaved timestamp =>
      let filename := "generated_video_direct_" +:+ timestamp +:+ ".mp4" in
      let s1 := set_generated_videos (generated_videos s ++ [filename]) s in
      let s2 := bump_videos s1 in
      (Some filename, s2)
  end.

(** [create_character_portrait]: a stored reference is returned at once;
    without one, an image is requested only while the image count is below
    one, and a delivered image becomes the character's reference. *)
Definition create_character_portrait (npc_name personality context emotion : string)
    (reply : ImageReply) (s : GameState) : PortraitResult * GameState :=
  let music_result :=
    trigger_scene_music "character_interaction" emotion [npc_name] in
  match character_references (visual_style s) !! npc_name with
  | Some existing_reference =>
      ({| portrait_npc_name := npc_name;
          portrait_personality := personality;
          portrait_context := context;
          portrait_emotion := emotion;
          portrait_existing_reference := Some existing_reference;
          portrait_generated_file := None;
          portrait_image_status := "using_existing_reference";
          portrait_music := music_result;
          portrait_reference_count := None;
          portrait_media_balance := None;
          portrait_status := "character_reference_maintained_with_music" |},
       s)
  | None =>
      let should_generate_portrait := images (scene_media_count s) <? 1 in
      let '(character_portrait, s1) :=
        if should_generate_portrait && MEDIA_GENERATION_AVAILABLE then
          let '(character_portrait, s1) := generate_consistent_image reply s in
          match character_portrait with
          | Some file =>
              (character_portrait,
               set_visual_style
                 (set_character_references
                    (<[npc_name := file]>
                       (character_references (visual_style s1)))
                    (visual_style s1)) s1)
          | None => (character_portrait, s1)
          end
        else (None, s) in
      ({| portrait_npc_name := npc_name;
          portrait_personality := personality;
          portrait_context := context;
          portrait_emotion := emotion;
          portrait_existing_reference := None;
          portrait_generated_file := character_portrait;
          portrait_image_status :=
            match character_portrait with
            | Some _ => "generated"
            | None => "prompt_only"
            end;
          portrait_music := music_result;
          portrait_reference_count :=
            Some (Z.of_nat (size (character_references (visual_style s1))));
          portrait_media_balance := Some (images (scene_media_count s1));
          portrait_status := "character_portrait_with_music_created" |}, s1)
  end.

(** [sum(len(cat) for cat in world_knowledge.values())]. *)
Definition total_memories (knowledge : gmap string (gmap string MemoryEntry))
  : nat :=
  map_fold (fun _ entries total => (total + size entries)%nat) 0%nat knowledge.

(** [maintain_visual_memory]: the entry is stored under its category, which
    is created when missing; an illustration is requested when the category
    then holds a multiple of three entries. *)
Definition maintain_visual_memory (key value category : string)
    (reply : ImageReply) (s : GameState) : MemoryResult * GameState :=
  let entries := default ∅ (world_knowledge s !! category) in
  let entries :=
    <[key := {| memory_value := value; memory_category := category |}]>
      entries in
  let s1 := set_world_knowledge (<[category := entries]> (world_knowledge s)) s in
  let should_generate_memory := (size entries mod 3 =? 0)%nat in
  let '(memory_image, s2) :=
    if should_generate_memory && MEDIA_GENERATION_AVAILABLE
    then generate_consistent_image reply s1
    else (None, s1) in
  ({| memory_key := key;
      memory_stored_value := value;
      memory_stored_category := category;
      memory_generated_file := memory_image;
      memory_image_status :=
        match memory_image with
        | Some _ => "generated"
        | None => "prompt_only"
        end;
      memory_total := Z.of_nat (total_memories (world_knowledge s2)) |}, s2).

(** The coarse stage label of [get_story_status]. *)
Definition stage_label (events : nat) : string :=
  if (events <? 3)%nat then "beginning"
  else if (events <? 8)%nat then "middle"
  else "climax".

(** [get_story_status]. *)
Definition get_story_status (s : GameState) : StatusSnapshot :=
  {| status_scene := current_scene s;
     status_mood := current_mood s;
     status_characters := characters_present s;
     story_events := Z.of_nat (length (story_history s));
     status_danger_level := current_danger_level s;
     status_images := Z.of_nat (length (generated_images s));
     status_videos := Z.of_nat (length (generated_videos s));
     status_music := Z.of_nat (length (generated_music s));
     story_stage := stage_label (length (story_history s)) |}.

End AgentTools.

(** ** Further handlers of [backend/app.py] *)

(** A handler's answer: a body, or an [HTTPException] with its status. *)
Inductive ApiResult (A : Type) :=
| ApiOk (body : A)
| ApiError (status_code : Z).

Arguments ApiOk {A} body.
Arguments ApiError {A} status_code.

(** The [result] dictionary placed in the answer of [generate_media],
    with the ["method"] the video branch adds to it. *)
Inductive MediaPayload :=
| ScenePayload (result : SceneResult) (method : option string)
| MusicPayload (result : MusicResult)
| ChoiceImagePayload (result : ChoiceImageResult) (method : string).

(** The answer of [generate_media]. *)
Record MediaResponse := mkMediaResponse {
  media_status : string;
  media_type_echo : string;
  media_result : MediaPayload;
  media_generated_file : option string;
  media_total_files : Z;
  media_all_files : list string;
  media_url : option string
}.

(** Collaborator outcomes met during one [POST /api/generate-media]. *)
Record MediaEnv := mkMediaEnv {
  media_image_reply : ImageReply;
  media_video_reply : DirectVideoReply
}.

(** What the three [glob] loops find in one existing directory. *)
Record DirectoryScan := mkDirectoryScan {
  scanned_images : list string;
  scanned_videos : list string;
  scanned_music : list string
}.

(** The dictionary returned by [get_media_files]. *)
Record MediaFiles := mkMediaFiles {
  files_images : list string;
  files_videos : list string;
  files_music : list string
}.

(** [generated_files[-5:] if len(generated_files) > 5 else generated_files]. *)
Definition last_five (files : list string) : list string :=
  if (5 <? length files)%nat then drop (length files - 5) files else files.

(** One [glob] loop: a name is appended unless the list has it already. *)
Definition add_missing (found listed : list string) : list string :=
  fold_left
    (fun listed filename =>
       if bool_decide (filename ∈ listed) then listed
       else (listed ++ [filename])%list)
    found listed.

Section MediaBackend.

Variable MEDIA_GENERATION_AVAILABLE : bool.
Variable AGENT_AVAILABLE : bool.

(** The branch of [generate_media] taken for the requested type: the
    result dictionary, the list the answer reads its files from, and the new
    state; [None] for an unknown type. In the video branch the value of
    [generate_direct_video] is a file name or [None], never a dictionary, so
    the [result.update] reached when some video is listed raises and control
    passes to the scene fallback of the inner handler. *)
Definition media_branch (media_type prompt emotional_tone : string)
    (env : MediaEnv) (s : GameState)
  : option (MediaPayload * list string * GameState) :=
  if String.eqb media_type "image" then
    let '(result, s1) :=
      generate_establishing_scene MEDIA_GENERATION_AVAILABLE prompt
        emotional_tone "cinematic quality" EmptyString
        (media_image_reply env) s in
    Some (ScenePayload result None, generated_images s1, s1)
  else if String.eqb media_type "music" then
    let result := orchestrate_adaptive_music prompt emotional_tone in
    Some (MusicPayload result, generated_music s, s)
  else if String.eqb media_type "video" then
    let '(_, s1) := generate_direct_video (media_video_reply env) s in
    match generated_videos s1 with
    | _ :: _ =>
        let '(result, s2) :=
          generate_establishing_scene MEDIA_GENERATION_AVAILABLE prompt
            emotional_tone "cinematic sequence" EmptyString
            (media_image_reply env) s1 in
        Some (ScenePayload result (Some "fallback_scene_generation"),
              generated_images s2, s2)
    | [] =>
        let '(result, s2) :=
          create_single_choice_image MEDIA_GENERATION_AVAILABLE
            ("cinematic moment: " +:+ prompt) "medium" prompt
            (media_image_reply env) s1 in
        Some (ChoiceImagePayload result "fallback_to_image",
              generated_images s2, s2)
    end
  else None.

(** [generate_media]. The [HTTPException] with status 400 for an unknown
    type is raised inside the [try] block, whose [except Exception] turns it
    into status 500. *)
Definition generate_media (media_type prompt emotional_tone : string)
    (env : MediaEnv) (s : GameState) : ApiResult MediaResponse * GameState :=
  if negb AGENT_AVAILABLE then (ApiError 503, s)
  else
    match media_branch media_type prompt emotional_tone env s with
    | None => (ApiError 500, s)
    | Some (result, generated_files, s1) =>
        let latest_file := last generated_files in
        (ApiOk
           {| media_status := "success";
              media_type_echo := media_type;
              media_result := result;
              media_generated_file := latest_file;
              media_total_files := Z.of_nat (length generated_files);
              media_all_files := last_five generated_files;
              media_url :=
                match latest_file with
                | Some file =>
                    if truthy file then Some ("/api/media/" +:+ file) else None
                | None => None
                end |}, s1)
    end.

(** [story_status]. *)
Definition story_status (s : GameState) : ApiResult StatusSnapshot :=
  if negb AGENT_AVAILABLE then ApiError 503 else ApiOk (get_story_status s).

(** [get_media_files]. With the agent available the dictionary holds the
    lists of [game_state] themselves, so the names appended by the scan end
    up in the state as well. *)
Definition get_media_files (scans : list DirectoryScan) (s : GameState)
  : MediaFiles * GameState :=
  let media_files :=
    if AGENT_AVAILABLE
    then mkMediaFiles (generated_images s) (generated_videos s)
           (generated_music s)
    else mkMediaFiles [] [] [] in
  let media_files :=
    fold_left
      (fun files scan =>
         mkMediaFiles
           (add_missing (scanned_images scan) (files_images files))
           (add_missing (scanned_videos scan) (files_videos files))
           (add_missing (scanned_music scan) (files_music files)))
      scans media_files in
  (media_files,
   if AGENT_AVAILABLE
   then set_generated_music (files_music media_files)
          (set_generated_videos (files_videos media_files)
             (set_generated_images (files_images media_files) s))
   else s).

(** A request to any of the modelled routes. *)
Inductive ApiCall :=
| PostStartStory (story_request : string) (env : StartEnv)
| PostMakeChoice (choice : string) (env : ChoiceEnv)
| PostGenerateMedia (media_type prompt emotional_tone : string) (env : MediaEnv)
| GetStoryStatus
| GetMediaFiles (scans : list DirectoryScan).

(** The state a request leaves behind. *)
Definition api_effect (call : ApiCall) (s : GameState) : GameState :=
  match call with
  | PostStartStory story_request env =>
      snd (start_story MEDIA_GENERATION_AVAILABLE AGENT_AVAILABLE
             story_request env s)
  | PostMakeChoice choice env =>
      snd (make_choice MEDIA_GENERATION_AVAILABLE AGENT_AVAILABLE choice env s)
  | PostGenerateMedia media_type prompt emotional_tone env =>
      snd (generate_media media_type prompt emotional_tone env s)
  | GetStoryStatus => s
  | GetMediaFiles scans => snd (get_media_files scans s)
  end.

(** The state after a sequence of requests. *)
Definition api_run (calls : list ApiCall) (s : GameState) : GameState :=
  fold_left (fun state call => api_effect call state) calls s.

End MediaBackend.

(** ** The wording of the specification, for comparison with the code *)

(** Scenario families of the request classifier. *)
Inductive ScenarioFamily :=
| CyberpunkFamily
| FantasyFamily
| MysticalFamily
| CustomFamily.

(** The keyword sets of the classifier in the order in which they are
    tried. *)
Definition scenario_keywords : list (list string * ScenarioFamily) :=
  [(["cyberpunk"; "detective"], CyberpunkFamily);
   (["fantasy"; "knight"; "dragon"], FantasyFamily);
   (["forest"; "magic"], MysticalFamily)].

(** First matching template wins; a request that matches none is custom. *)
Definition classify_request_with (lower : string -> string) (request : string)
  : ScenarioFamily :=
  match
    List.find
      (fun entry => existsb (fun k => py_in k (lower request)) (fst entry))
      scenario_keywords
  with
  | Some entry => snd entry
  | None => CustomFamily
  end.

Definition classify_request (request : string) : ScenarioFamily :=
  classify_request_with lower request.

Definition family_story_type (f : ScenarioFamily) : string :=
  match f with
  | CyberpunkFamily => "cyberpunk"
  | FantasyFamily => "fantasy"
  | MysticalFamily => "mystical"
  | CustomFamily => "adventure"
  end.

Definition family_template (f : ScenarioFamily) (request : string) : Scenario :=
  match f with
  | CyberpunkFamily => cyberpunk_detective_noir
  | FantasyFamily => dragons_lair_confrontation
  | MysticalFamily => enchanted_forest_mystery
  | CustomFamily => custom_scenario request
  end.

(** Keyword families of the continuation table. *)
Inductive SceneFamily :=
| CyberpunkScene
| AtlantisScene
| ForestScene
| GenericScene.

(** The family of a scene: the first of "cyberpunk", "atlantis", "forest"
    found in the lower-cased scene. *)
Definition scene_family_with (lower : string -> string) (scene : string)
  : SceneFamily :=
  if py_in "cyberpunk" (lower scene) then CyberpunkScene
  else if py_in "atlantis" (lower scene) then AtlantisScene
  else if py_in "forest" (lower scene) then ForestScene
  else GenericScene.

Definition scene_family (scene : string) : SceneFamily :=
  scene_family_with lower scene.

(** The continuation table: the scene selected for a family and a number of
    choices made between one and four. The generic row builds on the scene
    it leaves. *)
Definition next_scene (f : SceneFamily) (choices_made : Z) (scene : string)
  : string :=
  match f, choices_made with
  | CyberpunkScene, 1 => "A hidden underground resistance hideout beneath Neo-Tokyo"
  | AtlantisScene, 1 => "The ancient Atlantean throne room with mystical technology"
  | ForestScene, 1 => "A mystical clearing where reality bends and magic flows freely"
  | GenericScene, 1 => "A deeper, more dangerous part of " +:+ scene
  | CyberpunkScene, 2 => "The corporate zaibatsu tower's executive floors"
  | AtlantisScene, 2 => "The abyssal depths where ancient leviathans guard Atlantean secrets"
  | ForestScene, 2 => "The Shadowrealm where dark magic and light magic clash eternally"
  | GenericScene, 2 => "A completely new location connected to " +:+ scene
  | CyberpunkScene, 3 => "The digital realm inside the neural network itself"
  | AtlantisScene, 3 => "The timestream portal chamber where past and future Atlantis collide"
  | ForestScene, 3 => "The World Tree's crown where cosmic forces converge"
  | GenericScene, 3 => "The climactic confrontation arising from " +:+ scene
  | CyberpunkScene, 4 => "The core of the Serpent's Eye AI system - reality's command center"
  | AtlantisScene, 4 => "The moment of Atlantis's original fall - you can change everything"
  | ForestScene, 4 => "The cosmic loom where reality's threads can be rewoven"
  | GenericScene, 4 => "The ultimate threshold of " +:+ scene
  | _, _ => scene
  end.

(** What is used of [str.lower]: on ASCII text it lowers the letters A to Z
    and nothing else, and an ASCII word that occurs in a text occurs, with
    its letters lowered, in the lowered text. *)
Definition lowers_ascii (lower : string -> string) : Prop :=
  (forall text, is_ascii text = true -> lower text = PyStr.lower text)
  /\ (forall needle hay,
        is_ascii needle = true ->
        py_in needle hay = true ->
        py_in (PyStr.lower needle) (lower hay) = true).

(** The scenes the story can be in. [current_scene] is assigned by
    [start_new_adventure] and by the ladder of [continue_narrative] and left
    alone by every other operation in the tool list of the agent or behind
    a route ([continue_story_with_music] assigns it too, but is in no tool
    list and is called by nothing). So the scene is the initial one, the
    one a start has left, or the one the ladder has left when called on
    such a scene. *)
Inductive story_scene (lower : string -> string) : string -> Prop :=
| scene_initial :
    story_scene lower (current_scene initial_game_state)
| scene_started (request : string) (s : GameState) :
    story_scene lower
      (current_scene (snd (start_new_adventure_with lower request s)))
| scene_continued (choices_made : Z) (s : GameState) :
    story_scene lower (current_scene s) ->
    story_scene lower
      (current_scene (fst (advance_story_with lower choices_made s))).

(** A state in which nothing of an earlier adventure is left: every field
    named by the reset rule has the value it has in a fresh [GameState]. *)
Definition fully_reset (s : GameState) : Prop :=
  story_history s = []
  /\ scene_media_count s = zero_media_count
  /\ user_choices_made s = 0
  /\ characters_present s = []
  /\ current_danger_level s = 1
  /\ generated_images s = []
  /\ generated_videos s = []
  /\ generated_music s = []
  /\ world_knowledge s = ∅
  /\ character_references (visual_style s) = ∅
  /\ location_references (visual_style s) = ∅.

(** ** Sample runs *)

(** White space outside ASCII in its UTF-8 encoding: the no-break space
    U+00A0, the em space U+2003 and the next-line control U+0085; and a
    letter whose encoding ends with the byte [A0], the a with grave accent
    U+00E0. *)
Definition no_break_space : string :=
  String "194"%char (String "160"%char EmptyString).

Definition em_space : string :=
  String "226"%char (String "128"%char (String "131"%char EmptyString)).

Definition next_line : string :=
  String "194"%char (String "133"%char EmptyString).

Definition a_grave : string :=
  String "195"%char (String "160"%char EmptyString).

(** Capital letters outside ASCII whose lower-case form is or begins with
    an ASCII letter: the Kelvin sign U+212A and the dotted capital I
    U+0130, followed by the combining dot U+0307 that the lowered dotted I
    ends with. *)
Definition kelvin : string :=
  String "226"%char (String "132"%char (String "170"%char EmptyString)).

Definition dotted_i : string :=
  String "196"%char (String "176"%char EmptyString).

Definition combining_dot : string :=
  String "204"%char (String "135"%char EmptyString).

(** Every provider is unreachable. *)
Definition offline_start : StartEnv :=
  {| opening_image_reply := ImageClientFailed;
     opening_choices_reply := TextClientFailed |}.

Definition offline_choice : ChoiceEnv :=
  {| narrative_reply := TextClientFailed;
     outcome_image_reply := ImageClientFailed;
     next_choices_reply := TextClientFailed;
     climax_video_reply := VideoClientFailed;
     climax_image_reply := ImageClientFailed |}.

(** The image provider delivers; the text provider answers with three
    labelled options. *)
Definition online_start : StartEnv :=
  {| opening_image_reply := ImageSaved "20250101_120000";
     opening_choices_reply :=
       TextResponse
         (Some ("A: Enter the lair" +:+ newline +:+ "B: Wait outside"
                +:+ newline +:+ "C: Turn back")) |}.

Definition online_choice : ChoiceEnv :=
  {| narrative_reply := TextResponse (Some "The ground shakes.");
     outcome_image_reply := ImageSaved "20250101_120500";
     next_choices_reply :=
       TextResponse
         (Some ("A: Run" +:+ newline +:+ "B: Hide" +:+ newline +:+ "C: Fight"));
     climax_video_reply := VideoSeedMissing;
     climax_image_reply := ImageSaved "20250101_123000" |}.

(** An adventure started at the boundary and followed by [n] choices, with
    every provider unreachable. *)
Definition offline_adventure (n : nat) : list BoundaryCall :=
  StartStory "a dragon quest" offline_start
  :: repeat (MakeChoice "A" offline_choice) n.

(** * Properties *)

(** Case analysis on the byte comparisons of a goal. *)
Ltac byte_cases :=
  repeat
    (match goal with
     | |- context [Nat.eqb ?a ?b] => destruct (Nat.eqb_spec a b)
     | |- context [Nat.leb ?a ?b] => destruct (Nat.leb_spec a b)
     | |- context [Nat.ltb ?a ?b] => destruct (Nat.ltb_spec a b)
     end; cbn [andb orb]; try lia; try discriminate; try reflexivity).

(** ** The string model on small inputs *)

Example lower_keeps_non_letters : lower "Neo-Tokyo 2087" = "neo-tokyo 2087".
Proof. reflexivity. Qed.

(** [str.lower] turns the Kelvin sign into "k", which completes a keyword,
    and the dotted capital I into an "i" with a combining dot, which does
    not. *)
Example lower_outside_ascii :
  lower (kelvin +:+ "NIGHT errant") = "knight errant"
  /\ fst (select_scenario (kelvin +:+ "NIGHT errant")) = "fantasy"
  /\ scene_family ("CYBERPUN" +:+ kelvin +:+ " alley") = CyberpunkScene
  /\ lower ("ATLANT" +:+ dotted_i +:+ "S")
     = "atlanti" +:+ combining_dot +:+ "s"
  /\ scene_family ("ATLANT" +:+ dotted_i +:+ "S") = GenericScene
  /\ lower ("voil" +:+ a_grave) = "voil" +:+ a_grave.
Proof. repeat split; reflexivity. Qed.

Example py_in_finds_keyword :
  py_in "dragon" (lower "Slay the DRAGON!") = true
  /\ py_in "knight" (lower "a quiet night") = false.
Proof. split; reflexivity. Qed.

Example split_keeps_empty_pieces :
  split ", " "a, b,, c" = ["a"; "b,"; "c"]
  /\ split newline ("x" +:+ newline +:+ newline)
     = ["x"; EmptyString; EmptyString].
Proof. split; reflexivity. Qed.

Example labelled_lines_are_extracted :
  generated_choices (EmptyString, EmptyString, EmptyString)
    (TextResponse
       (Some ("Options:" +:+ newline +:+ "  A: go north  " +:+ newline
              +:+ "B:stay" +:+ newline +:+ "c: lower-case label")))
  = ("go north", "stay", EmptyString).
Proof. reflexivity. Qed.

(** [str.strip] removes white space outside ASCII too, and leaves a letter
    alone whose last byte is the last byte of a space. *)
Example strip_removes_unicode_space :
  strip (no_break_space +:+ " Run" +:+ em_space +:+ next_line +:+ " ") = "Run"
  /\ strip (em_space +:+ "voil" +:+ a_grave +:+ no_break_space)
     = "voil" +:+ a_grave
  /\ strip (no_break_space +:+ em_space) = EmptyString.
Proof. repeat split; reflexivity. Qed.

(** A label is found behind a no-break space, and a no-break space after
    the option is not part of it. *)
Example label_behind_no_break_space :
  parse_choice_line (EmptyString, EmptyString, EmptyString)
    (no_break_space +:+ "A: go north" +:+ no_break_space)
  = ("go north", EmptyString, EmptyString).
Proof. reflexivity. Qed.

(** The first keyword set that matches decides, in the order of the
    [if]/[elif] chain; a request that matches none gets the setting built
    from its own text. *)
Example first_matching_family_wins :
  fst (select_scenario "A DETECTIVE hunting a dragon in a magic forest")
  = "cyberpunk"
  /\ fst (select_scenario "a knight lost in a magic forest") = "fantasy"
  /\ fst (select_scenario "street magic") = "mystical"
  /\ fst (select_scenario "a quiet walk") = "adventure"
  /\ current_scene (snd (start_new_adventure "a quiet walk" initial_game_state))
     = "An immersive world based on: a quiet walk"
  /\ classify_request "a knight lost in a magic forest" = FantasyFamily.
Proof. repeat split; reflexivity. Qed.

(** The cyberpunk scenario does not carry its keyword in the setting: the
    first continuation of that adventure takes the generic row. *)
Example cyberpunk_setting_is_generic :
  fst (select_scenario "a cyberpunk detective story") = "cyberpunk"
  /\ scene_family (setting cyberpunk_detective_noir) = GenericScene.
Proof. split; reflexivity. Qed.

(** ** Substring search and lower-casing *)

Lemma startswith_app (p rest : string) : startswith p (p +:+ rest) = true.
Proof.
  unfold startswith.
  induction p as [|c p IH]; simpl.
  - destruct rest; reflexivity.
  - destruct (ascii_dec c c) as [_|Hne]; [exact IH | contradiction].
Qed.

Lemma startswith_inv (p s : string) :
  startswith p s = true -> exists rest, s = p +:+ rest.
Proof.
  unfold startswith.
  revert s.
  induction p as [|c p IH]; intros s H.
  - exists s. reflexivity.
  - destruct s as [|d s]; simpl in H; [discriminate|].
    destruct (ascii_dec c d) as [->|_]; [|discriminate].
    destruct (IH s H) as [rest ->].
    exists rest. reflexivity.
Qed.

Lemma py_in_startswith (needle hay : string) :
  startswith needle hay = true -> py_in needle hay = true.
Proof.
  intros H.
  destruct hay as [|c hay]; cbn [py_in].
  - exact H.
  - rewrite H. reflexivity.
Qed.

(** A string occurs in every string built around it. *)
Lemma py_in_app (needle before after : string) :
  py_in needle (before +:+ needle +:+ after) = true.
Proof.
  induction before as [|c before IH].
  - change (py_in needle (needle +:+ after) = true).
    apply py_in_startswith, startswith_app.
  - change (String c before +:+ needle +:+ after)
      with (String c (before +:+ needle +:+ after)).
    cbn [py_in]. rewrite IH. apply orb_true_r.
Qed.

(** Conversely [py_in] only answers [true] for an occurrence. *)
Lemma py_in_inv (needle hay : string) :
  py_in needle hay = true ->
  exists before after, hay = before +:+ needle +:+ after.
Proof.
  induction hay as [|c hay IH]; cbn [py_in]; intros H.
  - destruct (startswith_inv _ _ H) as [rest Hrest].
    exists EmptyString, rest. exact Hrest.
  - apply orb_true_iff in H as [H|H].
    + destruct (startswith_inv _ _ H) as [rest Hrest].
      exists EmptyString, rest. exact Hrest.
    + destruct (IH H) as (before & after & ->).
      exists (String c before), after. reflexivity.
Qed.

Lemma string_app_assoc (a b c : string) : (a +:+ b) +:+ c = a +:+ b +:+ c.
Proof.
  induction a as [|x a IH]; [reflexivity|].
  change (String x ((a +:+ b) +:+ c) = String x (a +:+ b +:+ c)).
  f_equal. exact IH.
Qed.

(** One step of [lower]: a dotted capital I, a Kelvin sign, or one byte. *)
Lemma lower_step (c : ascii) (rest : string) :
  (exists d rest2,
     rest = String d rest2 /\ dotted_capital_i c d = true
     /\ lower (String c rest)
        = String "i" (String "204" (String "135" (lower rest2))))
  \/ (exists d e rest3,
        rest = String d (String e rest3) /\ kelvin_sign c d e = true
        /\ lower (String c rest) = String "k" (lower rest3))
  \/ lower (String c rest) = String (lower_char c) (lower rest).
Proof.
  destruct rest as [|d rest2]; [right; right; reflexivity|].
  destruct (dotted_capital_i c d) eqn:Hdotted.
  { left. exists d, rest2. split; [reflexivity|]. split; [exact Hdotted|].
    cbn [lower]. rewrite Hdotted. reflexivity. }
  destruct rest2 as [|e rest3].
  { right; right. cbn [lower]. rewrite Hdotted. reflexivity. }
  destruct (kelvin_sign c d e) eqn:Hkelvin.
  - right; left. exists d, e, rest3.
    split; [reflexivity|]. split; [exact Hkelvin|].
    cbn [lower]. rewrite Hdotted, Hkelvin. reflexivity.
  - right; right. cbn [lower]. rewrite Hdotted, Hkelvin. reflexivity.
Qed.

Lemma lower_cons_ascii (c : ascii) (rest : string) :
  (nat_of_ascii c < 128)%nat ->
  lower (String c rest) = String (lower_char c) (lower rest).
Proof.
  intros Hc.
  destruct (lower_step c rest)
    as [(d & rest2 & _ & Hdotted & _)
       | [(d & e & rest3 & _ & Hkelvin & _) | Hstep]];
    [exfalso | exfalso | exact Hstep].
  - revert Hdotted. unfold dotted_capital_i. byte_cases.
  - revert Hkelvin. unfold kelvin_sign. byte_cases.
Qed.

Lemma is_ascii_cons (c : ascii) (rest : string) :
  is_ascii (String c rest) = true ->
  (nat_of_ascii c < 128)%nat /\ is_ascii rest = true.
Proof.
  cbn [is_ascii]. intros H. apply andb_true_iff in H as [Hc Hrest].
  apply Nat.ltb_lt in Hc. split; assumption.
Qed.

(** On ASCII text [lower] works letter by letter, whatever follows. *)
Lemma lower_ascii_app (word rest : string) :
  is_ascii word = true -> lower (word +:+ rest) = lower word +:+ lower rest.
Proof.
  induction word as [|c word IH]; intros Hword; [reflexivity|].
  apply is_ascii_cons in Hword as [Hc Hword].
  change (String c word +:+ rest) with (String c (word +:+ rest)).
  rewrite !lower_cons_ascii by exact Hc.
  rewrite (IH Hword). reflexivity.
Qed.

(** An ASCII word keeps its place when the text around it is lowered. *)
Lemma lower_keeps_ascii_word (n : nat) (c0 : ascii) (word : string) :
  is_ascii (String c0 word) = true ->
  forall before after,
    (String.length before <= n)%nat ->
    exists lowered_before,
      lower (before +:+ String c0 word +:+ after)
      = lowered_before +:+ lower (String c0 word) +:+ lower after.
Proof.
  intros Hword.
  pose proof (is_ascii_cons _ _ Hword) as [Hc0 _].
  induction n as [|n IH]; intros before after Hlen.
  - destruct before; [|cbn [String.length] in Hlen; lia].
    exists EmptyString.
    change (lower (String c0 word +:+ after)
            = lower (String c0 word) +:+ lower after).
    apply lower_ascii_app. exact Hword.
  - destruct before as [|c before].
    { exists EmptyString.
      change (lower (String c0 word +:+ after)
              = lower (String c0 word) +:+ lower after).
      apply lower_ascii_app. exact Hword. }
    cbn [String.length] in Hlen.
    change (String c before +:+ String c0 word +:+ after)
      with (String c (before +:+ String c0 word +:+ after)).
    destruct (lower_step c (before +:+ String c0 word +:+ after))
      as [(d & rest2 & Hrest & Hdotted & ->)
         | [(d & e & rest3 & Hrest & Hkelvin & ->) | ->]].
    + destruct before as [|d' before].
      { exfalso. injection Hrest as <- _.
        revert Hdotted. unfold dotted_capital_i. byte_cases. }
      injection Hrest as <- <-.
      cbn [String.length] in Hlen.
      destruct (IH before after ltac:(lia)) as [lowered ->].
      exists (String "i" (String "204" (String "135" lowered))).
      reflexivity.
    + destruct before as [|d' [|e' before]].
      { exfalso. injection Hrest as <- _.
        revert Hkelvin. unfold kelvin_sign. byte_cases. }
      { exfalso. injection Hrest as _ <- _.
        revert Hkelvin. unfold kelvin_sign. byte_cases. }
      injection Hrest as <- <- <-.
      cbn [String.length] in Hlen.
      destruct (IH before after ltac:(lia)) as [lowered ->].
      exists (String "k" lowered). reflexivity.
    + destruct (IH before after ltac:(lia)) as [lowered ->].
      exists (String (lower_char c) lowered). reflexivity.
Qed.

(** Lower-casing keeps the occurrence of an ASCII word. *)
Lemma py_in_lower (needle hay : string) :
  is_ascii needle = true ->
  py_in needle hay = true -> py_in (lower needle) (lower hay) = true.
Proof.
  intros Hneedle H.
  destruct needle as [|c0 word].
  { destruct (lower hay); reflexivity. }
  destruct (py_in_inv _ _ H) as (before & after & ->).
  destruct (lower_keeps_ascii_word (String.length before) c0 word Hneedle
              before after (le_n _)) as [lowered ->].
  apply py_in_app.
Qed.

(** ** Projections of the state after single assignments *)

Lemma bump_images_count (s : GameState) :
  images (scene_media_count (bump_images s)) = images (scene_media_count s) + 1.
Proof. reflexivity. Qed.

(** [generate_consistent_image] touches nothing but the image list and the
    image count. *)
Lemma generate_consistent_image_frame (reply : ImageReply) (s : GameState) :
  let s' := snd (generate_consistent_image reply s) in
  current_scene s' = current_scene s
  /\ current_mood s' = current_mood s
  /\ characters_present s' = characters_present s
  /\ story_history s' = story_history s
  /\ current_danger_level s' = current_danger_level s
  /\ user_choices_made s' = user_choices_made s.
Proof. destruct reply; simpl; repeat split; reflexivity. Qed.

(** [create_single_choice_image] leaves scene, history and both counters of
    the story alone. *)
Lemma create_single_choice_image_frame (media : bool)
    (action difficulty context : string) (reply : ImageReply) (s : GameState) :
  let s' :=
    snd (create_single_choice_image media action difficulty context reply s) in
  current_scene s' = current_scene s
  /\ current_mood s' = current_mood s
  /\ characters_present s' = characters_present s
  /\ story_history s' = story_history s
  /\ current_danger_level s' = current_danger_level s
  /\ user_choices_made s' = user_choices_made s.
Proof.
  unfold create_single_choice_image.
  destruct media, reply; simpl; repeat split; reflexivity.
Qed.

(** The effect of [resolve_user_choice] on the story fields: one history
    entry more, danger level and choice counter one higher, scene kept. *)
Lemma resolve_user_choice_effect (media : bool) (chosen_option : string)
    (text_reply : TextReply) (image_reply : ImageReply) (s : GameState) :
  let '(r, s') :=
    resolve_user_choice media chosen_option text_reply image_reply s in
  current_scene s' = current_scene s
  /\ user_choices_made s' = user_choices_made s + 1
  /\ current_danger_level s' = current_danger_level s + 1
  /\ resolved_choices_made r = user_choices_made s + 1
  /\ danger_level r = current_danger_level s + 1
  /\ exists e,
       story_history s' = (story_history s ++ [e])%list
       /\ event_type e = "choice_resolution".
Proof.
  unfold resolve_user_choice, create_dramatic_outcome.
  pose proof (create_single_choice_image_frame media
                ("chosen action: " +:+ chosen_option) "moderate"
                (current_scene s) image_reply s) as Hframe.
  destruct (create_single_choice_image media
              ("chosen action: " +:+ chosen_option) "moderate"
              (current_scene s) image_reply s) as [img s1].
  simpl in Hframe.
  destruct Hframe as (Hscene & _ & _ & Hhist & Hdanger & Hmade).
  simpl.
  rewrite Hscene, Hhist, Hdanger, Hmade.
  repeat split; try reflexivity.
  eexists. split; reflexivity.
Qed.

(** ** The continuation ladder *)

(** With one to four choices made the ladder binds the narrative, moves the
    scene to the entry of the table, and leaves history, danger level and
    the choice counter to the caller, whatever [str.lower] makes of the
    scene. *)
Lemma advance_story_with_bound (lower : string -> string) (choices_made : Z)
    (s : GameState) :
  1 <= choices_made <= 4 ->
  exists text,
    snd (advance_story_with lower choices_made s) = Some text
    /\ truthy text = true
    /\ current_scene (fst (advance_story_with lower choices_made s))
       = next_scene (scene_family_with lower (current_scene s)) choices_made
           (current_scene s)
    /\ story_history (fst (advance_story_with lower choices_made s))
       = story_history s
    /\ user_choices_made (fst (advance_story_with lower choices_made s))
       = user_choices_made s.
Proof.
  intros Hrange.
  assert (choices_made = 1 \/ choices_made = 2 \/ choices_made = 3
          \/ choices_made = 4) as Hcases by lia.
  unfold advance_story_with, scene_family_with.
  destruct Hcases as [-> | [-> | [-> | ->]]];
    cbn [Z.eqb Pos.eqb];
    destruct (py_in "cyberpunk" (lower (current_scene s)));
    [| destruct (py_in "atlantis" (lower (current_scene s)));
       [| destruct (py_in "forest" (lower (current_scene s)))] ..];
    eexists; repeat split; reflexivity.
Qed.

Lemma advance_story_bound (choices_made : Z) (s : GameState) :
  1 <= choices_made <= 4 ->
  exists text,
    snd (advance_story choices_made s) = Some text
    /\ truthy text = true
    /\ current_scene (fst (advance_story choices_made s))
       = next_scene (scene_family (current_scene s)) choices_made
           (current_scene s)
    /\ story_history (fst (advance_story choices_made s)) = story_history s
    /\ user_choices_made (fst (advance_story choices_made s))
       = user_choices_made s.
Proof. exact (advance_story_with_bound lower choices_made s). Qed.

(** Outside that range no rung applies: nothing is assigned and the
    narrative stays unbound. *)
Lemma advance_story_with_unbound (lower : string -> string) (choices_made : Z)
    (s : GameState) :
  ~ (1 <= choices_made <= 4) ->
  advance_story_with lower choices_made s = (s, None).
Proof.
  intros Hout.
  unfold advance_story_with.
  destruct (Z.eqb_spec choices_made 1); [lia|].
  destruct (Z.eqb_spec choices_made 2); [lia|].
  destruct (Z.eqb_spec choices_made 3); [lia|].
  destruct (Z.eqb_spec choices_made 4); [lia|].
  reflexivity.
Qed.

Lemma advance_story_unbound (choices_made : Z) (s : GameState) :
  ~ (1 <= choices_made <= 4) -> advance_story choices_made s = (s, None).
Proof. exact (advance_story_with_unbound lower choices_made s). Qed.

(** [continue_narrative] inside the range: it returns, the scene is the
    table entry, the danger level is recomputed, one continuation entry is
    appended and the choice counter is kept. *)
Lemma continue_narrative_with_returns (lower : string -> string)
    (s : GameState) :
  1 <= user_choices_made s <= 4 ->
  exists r s' e,
    continue_narrative_with lower s = (Returned r, s')
    /\ current_scene s'
       = next_scene (scene_family_with lower (current_scene s))
           (user_choices_made s) (current_scene s)
    /\ continued_scene r = current_scene s'
    /\ current_danger_level s' = Z.min 10 (3 + user_choices_made s * 2)
    /\ continued_danger_level r = current_danger_level s'
    /\ user_choices_made s' = user_choices_made s
    /\ truthy (narrative r) = true
    /\ story_history s' = (story_history s ++ [e])%list
    /\ event_type e = "story_continuation".
Proof.
  intros Hrange.
  destruct (advance_story_with_bound lower (user_choices_made s) s Hrange)
    as (text & Htext & Hfilled & Hscene & Hhist & Hmade).
  unfold continue_narrative_with.
  destruct (advance_story_with lower (user_choices_made s) s) as [s1 bound].
  simpl in Htext, Hscene, Hhist, Hmade. subst bound.
  do 3 eexists.
  split; [reflexivity|].
  simpl. rewrite Hscene, Hhist.
  repeat split; try reflexivity; assumption.
Qed.

Lemma continue_narrative_returns (s : GameState) :
  1 <= user_choices_made s <= 4 ->
  exists r s' e,
    continue_narrative s = (Returned r, s')
    /\ current_scene s'
       = next_scene (scene_family (current_scene s)) (user_choices_made s)
           (current_scene s)
    /\ continued_scene r = current_scene s'
    /\ current_danger_level s' = Z.min 10 (3 + user_choices_made s * 2)
    /\ continued_danger_level r = current_danger_level s'
    /\ user_choices_made s' = user_choices_made s
    /\ truthy (narrative r) = true
    /\ story_history s' = (story_history s ++ [e])%list
    /\ event_type e = "story_continuation".
Proof. exact (continue_narrative_with_returns lower s). Qed.

(** ** Choice presentation and climax *)

(** [present_story_choice] appends one choice moment and changes no other
    field; the choice counter in particular stays as it is. *)
Lemma present_story_choice_effect (situation a b c : string)
    (reply : TextReply) (s : GameState) :
  exists r e,
    present_story_choice situation a b c reply s
    = (r, append_history e s)
    /\ event_type e = "choice_moment".
Proof.
  unfold present_story_choice.
  destruct (if negb (truthy a) && negb (truthy b) && negb (truthy c)
            then generated_choices (a, b, c) reply
            else (a, b, c)) as [[a' b'] c'].
  do 2 eexists. split; reflexivity.
Qed.

Lemma generate_video_from_image_seed_frame (seed : string) (reply : VideoReply)
    (s : GameState) :
  let s' := snd (generate_video_from_image_seed seed reply s) in
  current_scene s' = current_scene s
  /\ story_history s' = story_history s
  /\ user_choices_made s' = user_choices_made s
  /\ generated_images s' = generated_images s
  /\ images (scene_media_count s') = images (scene_media_count s).
Proof.
  destruct reply; simpl; try (repeat split; reflexivity).
  destruct (truthy seed); simpl; repeat split; reflexivity.
Qed.

Lemma create_epic_climax_video_frame (media : bool)
    (final_choice context : string) (reply : VideoReply) (s : GameState) :
  let s' := snd (create_epic_climax_video media final_choice context reply s) in
  current_scene s' = current_scene s
  /\ story_history s' = story_history s
  /\ user_choices_made s' = user_choices_made s.
Proof.
  unfold create_epic_climax_video.
  destruct (last (generated_images s)) as [seed|]; simpl;
    [| repeat split; reflexivity].
  destruct (media && truthy seed); simpl; [| repeat split; reflexivity].
  pose proof (generate_video_from_image_seed_frame seed reply s) as Hframe.
  destruct (generate_video_from_image_seed seed reply s) as [[file|] s1];
    simpl in *; destruct Hframe as (Hscene & Hhist & Hmade & _);
    repeat split; assumption.
Qed.

(** [create_story_climax] appends the climax entry, keeps scene and choice
    counter, and sets the danger level to ten. *)
Lemma create_story_climax_effect (media : bool) (final_choice : string)
    (video_reply : VideoReply) (image_reply : ImageReply) (s : GameState) :
  let '(r, s') :=
    create_story_climax media final_choice video_reply image_reply s in
  current_scene s' = current_scene s
  /\ user_choices_made s' = user_choices_made s
  /\ current_danger_level s' = 10
  /\ climax_story_complete r = true
  /\ exists e,
       story_history s' = (story_history s ++ [e])%list
       /\ event_type e = "story_climax".
Proof.
  unfold create_story_climax.
  pose proof (create_epic_climax_video_frame media final_choice
                (current_scene s) video_reply s) as Hvideo.
  destruct (create_epic_climax_video media final_choice (current_scene s)
              video_reply s) as [video s1].
  simpl in Hvideo. destruct Hvideo as (Hscene1 & Hhist1 & Hmade1).
  pose proof (create_single_choice_image_frame media
                ("final climactic decision: " +:+ final_choice) "epic"
                ("The ultimate confrontation in " +:+ current_scene s1)
                image_reply s1) as Himage.
  destruct (create_single_choice_image media
              ("final climactic decision: " +:+ final_choice) "epic"
              ("The ultimate confrontation in " +:+ current_scene s1)
              image_reply s1) as [image s2].
  simpl in Himage.
  destruct Himage as (Hscene2 & _ & _ & Hhist2 & _ & Hmade2).
  simpl.
  rewrite Hscene2, Hscene1, Hmade2, Hmade1, Hhist2, Hhist1.
  repeat split; try reflexivity.
  eexists. split; reflexivity.
Qed.

(** ** Claims *)

(** The events a handler run has added to the history. *)
Lemma appended_two (h : list StoryEvent) (e1 e2 : StoryEvent) :
  drop (length h) ((h ++ [e1]) ++ [e2])%list = [e1; e2].
Proof. rewrite <- app_assoc. apply drop_app_length. Qed.

Lemma appended_three (h : list StoryEvent) (e1 e2 e3 : StoryEvent) :
  drop (length h) (((h ++ [e1]) ++ [e2]) ++ [e3])%list = [e1; e2; e3].
Proof. rewrite <- !app_assoc. apply drop_app_length. Qed.

(** C4. Routing of the make-choice handler. With the agent available and a
    state in which zero to four choices have been made, the handler answers
    with a response and the counter goes up by one. When this was the fifth
    choice the state is the one left by [create_story_climax] run right
    after the resolution, the history gained a resolution and a climax entry
    and no continuation, and the response has [story_complete = true], no
    choices, [current_choice = 5] and [choices_remaining = 0]. For an earlier
    choice the state is the one left by [continue_narrative] followed by
    [present_story_choice], the history gained a resolution, a continuation
    and a choice moment, and the response carries three options with
    [story_complete = false]. *)
Theorem C4_make_choice_routes_by_choice_count (media : bool) (choice : string)
    (env : ChoiceEnv) (s : GameState) :
  0 <= user_choices_made s <= 4 ->
  let resolved :=
    snd (resolve_user_choice media choice (narrative_reply env)
           (outcome_image_reply env) s) in
  exists r s',
    make_choice media true choice env s = (HttpOk r, s')
    /\ user_choices_made s' = user_choices_made s + 1
    /\ (user_choices_made s = 4 ->
        s' = snd (create_story_climax media choice (climax_video_reply env)
                    (climax_image_reply env) resolved)
        /\ map event_type (drop (length (story_history s)) (story_history s'))
           = ["choice_resolution"; "story_climax"]
        /\ story_complete r = true
        /\ choices r = []
        /\ current_choice r = 5
        /\ choices_remaining r = 0)
    /\ (user_choices_made s < 4 ->
        s' = snd (present_story_choice EmptyString EmptyString EmptyString
                    EmptyString (next_choices_reply env)
                    (snd (continue_narrative resolved)))
        /\ map event_type (drop (length (story_history s)) (story_history s'))
           = ["choice_resolution"; "story_continuation"; "choice_moment"]
        /\ story_complete r = false
        /\ length (choices r) = 3%nat
        /\ current_choice r = user_choices_made s + 1
        /\ choices_remaining r = 5 - (user_choices_made s + 1)).
Proof.
  intros Hrange resolved. subst resolved.
  unfold make_choice. cbn [negb].
  pose proof (resolve_user_choice_effect media choice (narrative_reply env)
                (outcome_image_reply env) s) as Hresolve.
  destruct (resolve_user_choice media choice (narrative_reply env)
              (outcome_image_reply env) s) as [res s1].
  destruct Hresolve as (_ & Hmade & _ & Hres & _ & e1 & Hhist1 & Htype1).
  cbn [snd]. rewrite Hres.
  destruct (Z.ltb_spec (user_choices_made s + 1) 5) as [Hearly | Hfifth].
  - assert (1 <= user_choices_made s1 <= 4) as Hrange1 by lia.
    destruct (continue_narrative_returns s1 Hrange1)
      as (cont & s2 & e2 & Hcont & _ & _ & _ & _ & Hmade2 & _ & Hhist2 & Htype2).
    rewrite Hcont. cbn [snd].
    destruct (present_story_choice_effect EmptyString EmptyString EmptyString
                EmptyString (next_choices_reply env) s2)
      as (pres & e3 & Hpres & Htype3).
    rewrite Hpres.
    do 2 eexists. split; [reflexivity|].
    split; [cbn; lia|].
    split; [intros; lia|].
    intros _. cbn.
    rewrite Hhist2, Hhist1, appended_three. cbn.
    rewrite Htype1, Htype2, Htype3.
    repeat split; reflexivity.
  - pose proof (create_story_climax_effect media choice (climax_video_reply env)
                  (climax_image_reply env) s1) as Hclimax.
    destruct (create_story_climax media choice (climax_video_reply env)
                (climax_image_reply env) s1) as [climax s2].
    destruct Hclimax as (_ & Hmade2 & _ & _ & e2 & Hhist2 & Htype2).
    do 2 eexists. split; [reflexivity|].
    split; [lia|].
    split; [| intros; lia].
    intros _. cbn.
    rewrite Hhist2, Hhist1, appended_two. cbn.
    rewrite Htype1, Htype2.
    repeat split; reflexivity.
Qed.

Lemma C4_make_choice_routes_witness :
  let s0 := snd (serve true true (offline_adventure 0) initial_game_state) in
  let s4 := snd (serve true true (offline_adventure 4) initial_game_state) in
  (0 <= user_choices_made s0 <= 4
   /\ exists r s',
        make_choice true true "A" offline_choice s0 = (HttpOk r, s')
        /\ story_complete r = false /\ current_choice r = 1)
  /\ (0 <= user_choices_made s4 <= 4
      /\ exists r s',
           make_choice true true "A" offline_choice s4 = (HttpOk r, s')
           /\ story_complete r = true /\ choices r = []).
Proof.
  intros s0 s4.
  assert (0 <= user_choices_made s0 <= 4) as H0
    by (vm_compute; split; discriminate).
  assert (0 <= user_choices_made s4 <= 4) as H4
    by (vm_compute; split; discriminate).
  split; (split; [assumption|]).
  - destruct (C4_make_choice_routes_by_choice_count true "A" offline_choice
                s0 H0) as (r & s' & Hrun & _ & _ & Hearly).
    exists r, s'. split; [exact Hrun|].
    destruct Hearly as (_ & _ & Hopen & _ & Hcurrent & _);
      [vm_compute; reflexivity|].
    split; [exact Hopen | exact Hcurrent].
  - destruct (C4_make_choice_routes_by_choice_count true "A" offline_choice
                s4 H4) as (r & s' & Hrun & _ & Hfifth & _).
    exists r, s'. split; [exact Hrun|].
    destruct Hfifth as (_ & _ & Hdone & Hnone & _);
      [vm_compute; reflexivity|].
    split; [exact Hdone | exact Hnone].
Defined.

(** [continue_narrative] never changes the choice counter, whether it
    returns or raises. *)
Lemma continue_narrative_keeps_counter (s : GameState) :
  user_choices_made (snd (continue_narrative s)) = user_choices_made s.
Proof.
  destruct (Z_le_dec 1 (user_choices_made s)) as [Hlow|Hlow];
    [destruct (Z_le_dec (user_choices_made s) 4) as [Hhigh|Hhigh]|].
  - destruct (continue_narrative_returns s (conj Hlow Hhigh))
      as (r & s' & e & Hrun & _ & _ & _ & _ & Hmade & _).
    rewrite Hrun. exact Hmade.
  - unfold continue_narrative, continue_narrative_with.
    rewrite advance_story_with_unbound by lia. reflexivity.
  - unfold continue_narrative, continue_narrative_with.
    rewrite advance_story_with_unbound by lia. reflexivity.
Qed.

(** Every run of the make-choice handler with the agent available raises the
    choice counter by one. *)
Lemma make_choice_counter (media : bool) (choice : string) (env : ChoiceEnv)
    (s : GameState) :
  user_choices_made (snd (make_choice media true choice env s))
  = user_choices_made s + 1.
Proof.
  unfold make_choice. cbn [negb].
  pose proof (resolve_user_choice_effect media choice (narrative_reply env)
                (outcome_image_reply env) s) as Hresolve.
  destruct (resolve_user_choice media choice (narrative_reply env)
              (outcome_image_reply env) s) as [res s1].
  destruct Hresolve as (_ & Hmade & _ & Hres & _).
  destruct (resolved_choices_made res <? 5).
  - pose proof (continue_narrative_keeps_counter s1) as Hkeep.
    destruct (continue_narrative s1) as [[cont|exc] s2]; cbn [snd] in *.
    + destruct (present_story_choice_effect EmptyString EmptyString
                  EmptyString EmptyString (next_choices_reply env) s2)
        as (pres & e & Hpres & _).
      rewrite Hpres. cbn. lia.
    + lia.
  - pose proof (create_story_climax_effect media choice (climax_video_reply env)
                  (climax_image_reply env) s1) as Hclimax.
    destruct (create_story_climax media choice (climax_video_reply env)
                (climax_image_reply env) s1) as [climax s2].
    destruct Hclimax as (_ & Hmade2 & _).
    cbn. lia.
Qed.

(** A run of make-choice requests adds its length to the counter. *)
Lemma serve_choices_counter (media : bool) (requests : list (string * ChoiceEnv))
    (s : GameState) :
  user_choices_made
    (snd (serve media true (map (fun q => MakeChoice (fst q) (snd q)) requests) s))
  = user_choices_made s + Z.of_nat (length requests).
Proof.
  revert s.
  induction requests as [|q requests IH]; intros s.
  - cbn. lia.
  - cbn [map serve handle].
    pose proof (make_choice_counter media (fst q) (snd q) s) as Hstep.
    destruct (make_choice media true (fst q) (snd q) s) as [r s1].
    specialize (IH s1).
    destruct (serve media true
                (map (fun q => MakeChoice (fst q) (snd q)) requests) s1)
      as [rs s2].
    cbn [snd] in *. rewrite IH, Hstep.
    cbn [length]. lia.
Qed.

(** [start_story] with the agent available leaves the counter at zero. *)
Lemma start_story_counter (media : bool) (request : string) (env : StartEnv)
    (s : GameState) :
  user_choices_made (snd (start_story media true request env s)) = 0.
Proof.
  unfold start_story, begin_opening_scene, generate_establishing_scene,
    start_new_adventure, start_new_adventure_with.
  cbn [negb].
  destruct (select_scenario_with lower request) as [kind template].
  cbn.
  destruct media, (opening_image_reply env); cbn;
    match goal with
    | |- context [present_story_choice ?a ?b ?c ?d ?t ?st] =>
        destruct (present_story_choice_effect a b c d t st)
          as (pres & e & Hpres & _); rewrite Hpres
    end; reflexivity.
Qed.

(** The choice counter is never negative in a state reached through the
    boundary, so the range assumed for the routing of make-choice covers
    every such state with fewer than five choices made. *)
Lemma serve_counter_nonneg (media agent : bool) (calls : list BoundaryCall)
    (s : GameState) :
  0 <= user_choices_made s ->
  0 <= user_choices_made (snd (serve media agent calls s)).
Proof.
  revert s.
  induction calls as [|call calls IH]; intros s Hs; [exact Hs|].
  cbn [serve].
  assert (0 <= user_choices_made (snd (handle media agent call s))) as Hstep.
  { destruct agent.
    - destruct call as [request env | choice env]; cbn [handle].
      + rewrite start_story_counter. lia.
      + rewrite make_choice_counter. lia.
    - destruct call; exact Hs. }
  destruct (handle media agent call s) as [r s1].
  specialize (IH s1 Hstep).
  destruct (serve media agent calls s1) as [rs s2].
  exact IH.
Qed.

(** C5, as the code has it. The choice counter goes up by exactly one with
    every [resolve_user_choice] and with every make-choice request, whatever
    its value was; after a start request and [n] choices it is [n]. No
    request is turned away for coming after the fifth choice: with five or
    more choices made the handler answers with a climax response. So the
    counter stays at or below five only for callers that stop after five
    choices. *)
Theorem C5_choice_counter_counts_every_resolution (media : bool)
    (request choice : string) (start_env : StartEnv) (env : ChoiceEnv)
    (requests : list (string * ChoiceEnv)) (s : GameState) :
  (forall text_reply image_reply,
     user_choices_made
       (snd (resolve_user_choice media choice text_reply image_reply s))
     = user_choices_made s + 1)
  /\ user_choices_made (snd (make_choice media true choice env s))
     = user_choices_made s + 1
  /\ user_choices_made
       (snd (serve media true
               (StartStory request start_env
                :: map (fun q => MakeChoice (fst q) (snd q)) requests) s))
     = Z.of_nat (length requests)
  /\ (5 <= user_choices_made s ->
      exists r,
        fst (make_choice media true choice env s) = HttpOk r
        /\ story_complete r = true
        /\ current_choice r = 5).
Proof.
  split; [| split; [| split]].
  - intros text_reply image_reply.
    pose proof (resolve_user_choice_effect media choice text_reply
                  image_reply s) as Hresolve.
    destruct (resolve_user_choice media choice text_reply image_reply s)
      as [res s1].
    destruct Hresolve as (_ & Hmade & _). exact Hmade.
  - apply make_choice_counter.
  - cbn [serve handle].
    pose proof (start_story_counter media request start_env s) as Hstart.
    destruct (start_story media true request start_env s) as [r0 s0].
    pose proof (serve_choices_counter media requests s0) as Hrun.
    destruct (serve media true
                (map (fun q => MakeChoice (fst q) (snd q)) requests) s0)
      as [rs s1].
    cbn [snd] in *. lia.
  - intros Hlate.
    unfold make_choice. cbn [negb].
    pose proof (resolve_user_choice_effect media choice (narrative_reply env)
                  (outcome_image_reply env) s) as Hresolve.
    destruct (resolve_user_choice media choice (narrative_reply env)
                (outcome_image_reply env) s) as [res s1].
    destruct Hresolve as (_ & _ & _ & Hres & _).
    destruct (Z.ltb_spec (resolved_choices_made res) 5) as [Hlt|_]; [lia|].
    destruct (create_story_climax media choice (climax_video_reply env)
                (climax_image_reply env) s1) as [climax s2].
    eexists. repeat split; reflexivity.
Qed.

Lemma C5_choice_counter_witness :
  let s5 := snd (serve true true (offline_adventure 5) initial_game_state) in
  5 <= user_choices_made s5
  /\ user_choices_made (snd (make_choice true true "A" offline_choice s5)) = 6
  /\ exists r,
       fst (make_choice true true "A" offline_choice s5) = HttpOk r
       /\ story_complete r = true.
Proof.
  intros s5.
  assert (user_choices_made s5 = 5) as Hfive by (vm_compute; reflexivity).
  destruct (C5_choice_counter_counts_every_resolution true "a dragon quest"
              "A" offline_start offline_choice [] s5)
    as (_ & Hstep & _ & Hlate).
  split; [lia|].
  split; [rewrite Hstep, Hfive; reflexivity|].
  destruct Hlate as (r & Hrun & Hdone & _); [lia|].
  exists r. split; [exact Hrun | exact Hdone].
Defined.

(** C5, counterexample to the claim as worded: a start request followed by
    six choices is served without any error status, the sixth answer is one
    more climax response, and the counter ends at six. *)
Lemma C5_sixth_choice_is_served :
  let '(responses, s) :=
    serve true true (offline_adventure 6) initial_game_state in
  user_choices_made s = 6
  /\ map http_status responses = [200; 200; 200; 200; 200; 200; 200]
  /\ (story_complete <$> match last responses with
                         | Some (HttpOk r) => Some r
                         | _ => None
                         end) = Some true.
Proof. vm_compute. repeat split; reflexivity. Qed.



(** *** Scenes that name the forest *)

(** [PyStr.lower] has what [lowers_ascii] asks for. *)
Lemma lowers_ascii_lower : lowers_ascii PyStr.lower.
Proof.
  split; [reflexivity|].
  intros needle hay Hneedle Hin. apply py_in_lower; assumption.
Qed.

(** The words the generic scenes and the custom setting are built from do
    not contain "forest" and do not end with the beginning of it. *)
Lemma forest_not_in_connecting_words (words rest : string) :
  words = "An immersive world based on: "
  \/ words = "A deeper, more dangerous part of "
  \/ words = "A completely new location connected to "
  \/ words = "The climactic confrontation arising from "
  \/ words = "The ultimate threshold of " ->
  py_in "forest" (words +:+ rest) = py_in "forest" rest.
Proof.
  intros [-> | [-> | [-> | [-> | ->]]]]; vm_compute; reflexivity.
Qed.

(** A scene of the story that contains "forest" is a forest scene: neither
    "cyberpunk" nor "atlantis" is found in it before "forest" is. *)
Lemma story_scene_forest (lower : string -> string) (scene : string) :
  lowers_ascii lower ->
  story_scene lower scene ->
  py_in "forest" scene = true ->
  scene_family_with lower scene = ForestScene.
Proof.
  intros [Hascii Hkeep] Hscene.
  induction Hscene as [|request s|choices_made s Hscene IH]; intros Hforest.
  - unfold scene_family_with.
    rewrite (Hascii (current_scene initial_game_state)) by reflexivity.
    reflexivity.
  - revert Hforest.
    unfold start_new_adventure_with, select_scenario_with.
    destruct (py_in "cyberpunk" (lower request)
              || py_in "detective" (lower request));
      [intros Hforest; vm_compute in Hforest; discriminate|].
    destruct (py_in "fantasy" (lower request)
              || py_in "knight" (lower request)
              || py_in "dragon" (lower request));
      [intros Hforest; vm_compute in Hforest; discriminate|].
    destruct (py_in "forest" (lower request)) eqn:Hrequest; cbn [orb].
    + intros _.
      change (scene_family_with lower (setting enchanted_forest_mystery)
              = ForestScene).
      unfold scene_family_with.
      rewrite (Hascii (setting enchanted_forest_mystery)) by reflexivity.
      reflexivity.
    + destruct (py_in "magic" (lower request)).
      * intros _.
        change (scene_family_with lower (setting enchanted_forest_mystery)
                = ForestScene).
        unfold scene_family_with.
        rewrite (Hascii (setting enchanted_forest_mystery)) by reflexivity.
        reflexivity.
      * intros Hforest.
        change (py_in "forest" ("An immersive world based on: " +:+ request)
                = true) in Hforest.
        rewrite forest_not_in_connecting_words in Hforest by tauto.
        apply (Hkeep "forest" request eq_refl) in Hforest.
        change (PyStr.lower "forest") with "forest" in Hforest.
        rewrite Hforest in Hrequest. discriminate.
  - destruct (Z_le_dec 1 choices_made) as [Hlow|Hlow];
      [destruct (Z_le_dec choices_made 4) as [Hhigh|Hhigh]|].
    + destruct (advance_story_with_bound lower choices_made s
                  (conj Hlow Hhigh)) as (text & _ & _ & Hnext & _).
      rewrite Hnext in Hforest |- *.
      assert (choices_made = 1 \/ choices_made = 2 \/ choices_made = 3
              \/ choices_made = 4) as Hcases by lia.
      destruct (scene_family_with lower (current_scene s)) eqn:Hfamily.
      1-3: destruct Hcases as [-> | [-> | [-> | ->]]];
        vm_compute in Hforest; discriminate.
      assert (py_in "forest" (current_scene s) = true) as Hbefore.
      { destruct Hcases as [-> | [-> | [-> | ->]]];
          cbn [next_scene] in Hforest;
          rewrite forest_not_in_connecting_words in Hforest by tauto;
          exact Hforest. }
      specialize (IH Hbefore). discriminate IH.
    + rewrite advance_story_with_unbound in Hforest |- * by lia.
      exact (IH Hforest).
    + rewrite advance_story_with_unbound in Hforest |- * by lia.
      exact (IH Hforest).
Qed.

(** Resolving a choice leaves the scene alone, so the state in which the
    route calls [continue_narrative] for the first time after a start is in
    a scene of the story. *)
Lemma resolved_after_start_is_story_scene (lower : string -> string)
    (media : bool) (request chosen_option : string) (text_reply : TextReply)
    (image_reply : ImageReply) (s : GameState) :
  let started := snd (start_new_adventure_with lower request s) in
  let resolved :=
    snd (resolve_user_choice media chosen_option text_reply image_reply
           started) in
  user_choices_made resolved = 1
  /\ story_scene lower (current_scene resolved).
Proof.
  intros started resolved. subst resolved.
  pose proof (resolve_user_choice_effect media chosen_option text_reply
                image_reply started) as Hresolve.
  destruct (resolve_user_choice media chosen_option text_reply image_reply
              started) as [r s'].
  cbn [snd]. destruct Hresolve as (Hscene & Hmade & _).
  split.
  - rewrite Hmade. subst started.
    unfold start_new_adventure_with.
    destruct (select_scenario_with lower request). reflexivity.
  - rewrite Hscene. apply scene_started.
Qed.

(** [continue_narrative] leaves the story in one of its scenes. *)
Lemma continue_narrative_with_story_scene (lower : string -> string)
    (s : GameState) :
  story_scene lower (current_scene s) ->
  story_scene lower (current_scene (snd (continue_narrative_with lower s))).
Proof.
  intros Hscene.
  pose proof (scene_continued lower (user_choices_made s) s Hscene) as Hnext.
  unfold continue_narrative_with.
  destruct (advance_story_with lower (user_choices_made s) s)
    as [s1 [text|]]; exact Hnext.
Qed.

(** The two routes keep the story in its scenes, so every state reached
    through the boundary from the initial state is in one of them. *)
Lemma handle_keeps_story_scene (media agent : bool) (call : BoundaryCall)
    (s : GameState) :
  story_scene lower (current_scene s) ->
  story_scene lower (current_scene (snd (handle media agent call s))).
Proof.
  intros Hscene.
  destruct call as [request env | choice env]; cbn [handle].
  - destruct agent; [| exact Hscene].
    assert (current_scene (snd (start_story media true request env s))
            = current_scene (snd (start_new_adventure_with lower request s)))
      as ->; [| apply scene_started].
    unfold start_story, begin_opening_scene, generate_establishing_scene,
      start_new_adventure, start_new_adventure_with.
    cbn [negb].
    destruct (select_scenario_with lower request) as [kind template].
    cbn.
    destruct media, (opening_image_reply env); cbn;
      match goal with
      | |- context [present_story_choice ?a ?b ?c ?d ?t ?st] =>
          destruct (present_story_choice_effect a b c d t st)
            as (pres & e & Hpres & _); rewrite Hpres
      end; reflexivity.
  - destruct agent; [| exact Hscene].
    unfold make_choice. cbn [negb].
    pose proof (resolve_user_choice_effect media choice (narrative_reply env)
                  (outcome_image_reply env) s) as Hresolve.
    destruct (resolve_user_choice media choice (narrative_reply env)
                (outcome_image_reply env) s) as [res s1].
    destruct Hresolve as (Hsame & _).
    rewrite <- Hsame in Hscene.
    destruct (resolved_choices_made res <? 5).
    + pose proof (continue_narrative_with_story_scene lower s1 Hscene)
        as Hnext.
      change (continue_narrative_with lower s1) with (continue_narrative s1)
        in Hnext.
      destruct (continue_narrative s1) as [[cont|exc] s2]; [| exact Hnext].
      match goal with
      | |- context [present_story_choice ?a ?b ?c ?d ?t ?st] =>
          destruct (present_story_choice_effect a b c d t st)
            as (pres & e & Hpres & _); rewrite Hpres
      end.
      exact Hnext.
    + pose proof (create_story_climax_effect media choice
                    (climax_video_reply env) (climax_image_reply env) s1)
        as Hclimax.
      destruct (create_story_climax media choice (climax_video_reply env)
                  (climax_image_reply env) s1) as [climax s2].
      destruct Hclimax as (Hkept & _).
      cbn [snd]. rewrite Hkept. exact Hscene.
Qed.

Lemma serve_keeps_story_scene (media agent : bool)
    (calls : list BoundaryCall) (s : GameState) :
  story_scene lower (current_scene s) ->
  story_scene lower (current_scene (snd (serve media agent calls s))).
Proof.
  revert s.
  induction calls as [|call calls IH]; intros s Hscene; [exact Hscene|].
  cbn [serve].
  pose proof (handle_keeps_story_scene media agent call s Hscene) as Hnext.
  destruct (handle media agent call s) as [r s1].
  specialize (IH s1 Hnext).
  destruct (serve media agent calls s1) as [rs s2].
  exact IH.
Qed.

(** C7. With one to four choices made [continue_narrative] returns; the new
    scene is the entry of the continuation table for the choice count and
    the keyword family of the scene it leaves, where the family is the first
    of "cyberpunk", "atlantis", "forest" to occur in the lower-cased scene;
    the danger level becomes [min(10, 3 + 2 * choices)], that is 5, 7, 9 and
    10. All of this holds whatever [str.lower] does. With one choice made
    and the story in one of its scenes, a scene that contains "forest" is
    followed by the mystical clearing, with danger level 5; this uses of
    [str.lower] only what [lowers_ascii] says. *)
Theorem C7_continue_narrative_follows_table (lower : string -> string)
    (s : GameState) :
  1 <= user_choices_made s <= 4 ->
  exists r s',
    continue_narrative_with lower s = (Returned r, s')
    /\ current_scene s'
       = next_scene (scene_family_with lower (current_scene s))
           (user_choices_made s) (current_scene s)
    /\ continued_scene r = current_scene s'
    /\ current_danger_level s' = Z.min 10 (3 + 2 * user_choices_made s)
    /\ continued_danger_level r = current_danger_level s'
    /\ (user_choices_made s = 1 -> current_danger_level s' = 5)
    /\ (user_choices_made s = 2 -> current_danger_level s' = 7)
    /\ (user_choices_made s = 3 -> current_danger_level s' = 9)
    /\ (user_choices_made s = 4 -> current_danger_level s' = 10)
    /\ (user_choices_made s = 1 ->
        lowers_ascii lower ->
        story_scene lower (current_scene s) ->
        py_in "forest" (current_scene s) = true ->
        current_scene s'
        = "A mystical clearing where reality bends and magic flows freely"
        /\ continued_scene r
           = "A mystical clearing where reality bends and magic flows freely"
        /\ current_danger_level s' = 5
        /\ continued_danger_level r = 5).
Proof.
  intros Hrange.
  destruct (continue_narrative_with_returns lower s Hrange)
    as (r & s' & e & Hrun & Hscene & Hr & Hdanger & Hrd & _).
  exists r, s'.
  split; [exact Hrun|].
  split; [exact Hscene|].
  split; [exact Hr|].
  split; [rewrite Hdanger; f_equal; lia|].
  split; [exact Hrd|].
  do 4 (split; [intros Hmade; rewrite Hdanger, Hmade; reflexivity|]).
  intros Hmade Hlower Hstory Hforest.
  rewrite Hr, Hrd, Hscene, Hdanger, Hmade.
  rewrite (story_scene_forest lower (current_scene s) Hlower Hstory Hforest).
  repeat split; reflexivity.
Qed.

Lemma C7_continue_narrative_witness :
  let s :=
    snd (resolve_user_choice true "A" TextClientFailed ImageClientFailed
           (snd (start_new_adventure_with PyStr.lower
                   "a walk through the FOREST of Atlantis"
                   initial_game_state))) in
  1 <= user_choices_made s <= 4
  /\ current_scene s
     = "An ancient forest where magic flows through twisted trees and glowing flowers"
  /\ py_in "forest" (current_scene s) = true
  /\ current_scene (snd (continue_narrative_with PyStr.lower s))
     = "A mystical clearing where reality bends and magic flows freely"
  /\ current_danger_level (snd (continue_narrative_with PyStr.lower s)) = 5.
Proof.
  intros s.
  assert (1 <= user_choices_made s <= 4) as Hrange
    by (vm_compute; split; discriminate).
  split; [exact Hrange|].
  split; [vm_compute; reflexivity|].
  split; [vm_compute; reflexivity|].
  destruct (C7_continue_narrative_follows_table PyStr.lower s Hrange)
    as (r & s' & Hrun & _ & _ & _ & _ & _ & _ & _ & _ & Hforest).
  rewrite Hrun. cbn [snd].
  destruct Hforest as (Hscene & _ & Hdanger & _).
  - vm_compute. reflexivity.
  - exact lowers_ascii_lower.
  - exact (proj2 (resolved_after_start_is_story_scene PyStr.lower true
                    "a walk through the FOREST of Atlantis" "A"
                    TextClientFailed ImageClientFailed initial_game_state)).
  - vm_compute. reflexivity.
  - split; [exact Hscene | exact Hdanger].
Defined.

(** The [if]/[elif] chain of [start_new_adventure] is the first-match
    lookup in the keyword table. *)
Lemma select_scenario_with_classify (lower : string -> string)
    (request : string) :
  select_scenario_with lower request
  = (family_story_type (classify_request_with lower request),
     family_template (classify_request_with lower request) request).
Proof.
  unfold select_scenario_with, classify_request_with, scenario_keywords.
  cbn [List.find existsb fst snd].
  destruct (py_in "cyberpunk" (lower request)); cbn [orb];
    [reflexivity|].
  destruct (py_in "detective" (lower request)); cbn [orb];
    [reflexivity|].
  destruct (py_in "fantasy" (lower request)); cbn [orb];
    [reflexivity|].
  destruct (py_in "knight" (lower request)); cbn [orb];
    [reflexivity|].
  destruct (py_in "dragon" (lower request)); cbn [orb];
    [reflexivity|].
  destruct (py_in "forest" (lower request)); cbn [orb];
    [reflexivity|].
  destruct (py_in "magic" (lower request)); reflexivity.
Qed.

Lemma select_scenario_classify (request : string) :
  select_scenario request
  = (family_story_type (classify_request request),
     family_template (classify_request request) request).
Proof. exact (select_scenario_with_classify lower request). Qed.

(** C8. [start_new_adventure] is a function of the request text, whatever
    [str.lower] does: from whatever state it starts, it returns the same
    result dictionary and leaves the same scene, mood and art style; in
    particular two runs from the same state agree. The family is the one
    found by first-match keyword lookup in the lower-cased request
    (cyberpunk or detective, then fantasy, knight or dragon, then forest or
    magic, otherwise custom), and each family has its story type, setting
    and art style; the custom setting and the request handed back are built
    from the request text as it was typed. The mood is always
    "mysterious". *)
Theorem C8_start_new_adventure_deterministic (lower : string -> string)
    (request : string) (s1 s2 : GameState) :
  let run1 := start_new_adventure_with lower request s1 in
  let run2 := start_new_adventure_with lower request s2 in
  fst run1 = fst run2
  /\ current_scene (snd run1) = current_scene (snd run2)
  /\ current_mood (snd run1) = current_mood (snd run2)
  /\ art_style (visual_style (snd run1)) = art_style (visual_style (snd run2))
  /\ start_user_request (fst run1) = request
  /\ current_mood (snd run1) = "mysterious"
  /\ setting (scenario (fst run1)) = current_scene (snd run1)
  /\ scenario_visual_style (scenario (fst run1))
     = art_style (visual_style (snd run1))
  /\ match classify_request_with lower request with
     | CyberpunkFamily =>
         story_type (fst run1) = "cyberpunk"
         /\ scenario (fst run1) = cyberpunk_detective_noir
         /\ current_scene (snd run1)
            = "Neo-Tokyo 2087: A rain-soaked metropolis where corporate zaibatsus control reality through neural implants"
         /\ art_style (visual_style (snd run1))
            = "cyberpunk noir with neon highlights and atmospheric rain"
     | FantasyFamily =>
         story_type (fst run1) = "fantasy"
         /\ scenario (fst run1) = dragons_lair_confrontation
         /\ current_scene (snd run1)
            = "The volcanic lair of an ancient dragon filled with treasures and dangerous magic"
         /\ art_style (visual_style (snd run1))
            = "epic fantasy with dramatic fire lighting and volcanic atmosphere"
     | MysticalFamily =>
         story_type (fst run1) = "mystical"
         /\ scenario (fst run1) = enchanted_forest_mystery
         /\ current_scene (snd run1)
            = "An ancient forest where magic flows through twisted trees and glowing flowers"
         /\ art_style (visual_style (snd run1))
            = "mystical fantasy with ethereal lighting and magical particles"
     | CustomFamily =>
         story_type (fst run1) = "adventure"
         /\ current_scene (snd run1)
            = "An immersive world based on: " +:+ request
         /\ art_style (visual_style (snd run1))
            = "cinematic realism with atmospheric lighting"
         /\ hook (scenario (fst run1))
            = "Your adventure begins with an intriguing mystery that draws you in..."
         /\ scenario_characters (scenario (fst run1))
            = ["Mysterious Guide"; "Helpful Ally"]
         /\ music_themes (scenario (fst run1))
            = ["Adventure atmosphere"; "Mystery and discovery"]
         /\ scenario_choices (scenario (fst run1))
            = ["Investigate boldly"; "Proceed cautiously"; "Seek allies first"]
     end.
Proof.
  cbv zeta.
  unfold start_new_adventure_with.
  rewrite select_scenario_with_classify.
  destruct (classify_request_with lower request);
    repeat split; reflexivity.
Qed.

(** C9. Whenever media generation is available and the image provider
    delivers, [create_single_choice_image] leaves the file name twice at the
    end of [generated_images] and the image count two higher: one entry and
    one increment come from [generate_consistent_image], the second pair
    from [create_single_choice_image] itself. A resolved choice with such an
    image therefore carries the duplicate entry and the double count. *)
Theorem C9_choice_image_is_recorded_twice
    (chosen_action difficulty context chosen_option timestamp : string)
    (text_reply : TextReply) (s : GameState) :
  let file := "generated_scene_" +:+ timestamp +:+ ".png" in
  let inner := snd (generate_consistent_image (ImageSaved timestamp) s) in
  let '(r, s') :=
    create_single_choice_image true chosen_action difficulty context
      (ImageSaved timestamp) s in
  let resolved :=
    snd (resolve_user_choice true chosen_option text_reply
           (ImageSaved timestamp) s) in
  generated_image r = Some file
  /\ generated_images inner = (generated_images s ++ [file])%list
  /\ images (scene_media_count inner) = images (scene_media_count s) + 1
  /\ generated_images s' = (generated_images s ++ [file; file])%list
  /\ images (scene_media_count s') = images (scene_media_count s) + 2
  /\ generated_images resolved = (generated_images s ++ [file; file])%list
  /\ images (scene_media_count resolved) = images (scene_media_count s) + 2.
Proof.
  cbn.
  rewrite <- !app_assoc. cbn.
  repeat split; try reflexivity; lia.
Qed.

(** C10. [continue_narrative] returns a result exactly when one to four
    choices have been made. For any other count no branch binds
    [narrative_continuation], and the function raises [UnboundLocalError]
    where the history entry is built: nothing is appended to the history and
    the scene is unchanged, while the danger level assigned just before is
    already stored. *)
Theorem C10_continue_narrative_needs_one_to_four_choices (s : GameState) :
  ((exists r, fst (continue_narrative s) = Returned r)
   <-> 1 <= user_choices_made s <= 4)
  /\ (~ (1 <= user_choices_made s <= 4) ->
      snd (advance_story (user_choices_made s) s) = None
      /\ fst (continue_narrative s)
         = Raised (UnboundLocalError "narrative_continuation")
      /\ story_history (snd (continue_narrative s)) = story_history s
      /\ current_scene (snd (continue_narrative s)) = current_scene s
      /\ current_danger_level (snd (continue_narrative s))
         = Z.min 10 (3 + user_choices_made s * 2)).
Proof.
  assert (~ (1 <= user_choices_made s <= 4) ->
          snd (advance_story (user_choices_made s) s) = None
          /\ fst (continue_narrative s)
             = Raised (UnboundLocalError "narrative_continuation")
          /\ story_history (snd (continue_narrative s)) = story_history s
          /\ current_scene (snd (continue_narrative s)) = current_scene s
          /\ current_danger_level (snd (continue_narrative s))
             = Z.min 10 (3 + user_choices_made s * 2)) as Hraise.
  { intros Hout. unfold continue_narrative, continue_narrative_with.
    change (advance_story_with lower ?n ?st) with (advance_story n st).
    rewrite (advance_story_unbound _ _ Hout).
    repeat split; reflexivity. }
  split; [| exact Hraise].
  split.
  - intros [r Hrun].
    destruct (Z_le_dec 1 (user_choices_made s)) as [Hlow|Hlow];
      [destruct (Z_le_dec (user_choices_made s) 4) as [Hhigh|Hhigh]|].
    + split; assumption.
    + destruct Hraise as (_ & Hexc & _); [lia|]. congruence.
    + destruct Hraise as (_ & Hexc & _); [lia|]. congruence.
  - intros Hrange.
    destruct (continue_narrative_returns s Hrange) as (r & s' & e & Hrun & _).
    exists r. rewrite Hrun. reflexivity.
Qed.

Lemma C10_continue_narrative_witness :
  let s5 := snd (serve true true (offline_adventure 5) initial_game_state) in
  (~ (1 <= user_choices_made initial_game_state <= 4)
   /\ fst (continue_narrative initial_game_state)
      = Raised (UnboundLocalError "narrative_continuation"))
  /\ (~ (1 <= user_choices_made s5 <= 4)
      /\ fst (continue_narrative s5)
         = Raised (UnboundLocalError "narrative_continuation")).
Proof.
  intros s5.
  assert (~ (1 <= user_choices_made initial_game_state <= 4)) as H0
    by (vm_compute; intros [Hlow _]; apply Hlow; reflexivity).
  assert (~ (1 <= user_choices_made s5 <= 4)) as H5
    by (vm_compute; intros [_ Hhigh]; apply Hhigh; reflexivity).
  split; (split; [assumption|]).
  - destruct (C10_continue_narrative_needs_one_to_four_choices
                initial_game_state) as (_ & Hraise).
    destruct (Hraise H0) as (_ & Hexc & _). exact Hexc.
  - destruct (C10_continue_narrative_needs_one_to_four_choices s5)
      as (_ & Hraise).
    destruct (Hraise H5) as (_ & Hexc & _). exact Hexc.
Defined.

(** C1, the code at the fifth choice. After a start request and four
    choices the danger level is 10; [resolve_user_choice] for the fifth
    choice adds one without a cap, so the state it leaves and the
    [danger_level] it reports are 11, above the scale of 1 to 10. The climax
    that the handler runs next stores 10 again, a decrease. *)
Theorem C1_fifth_resolution_leaves_danger_eleven :
  let s4 := snd (serve true true (offline_adventure 4) initial_game_state) in
  let '(r, s5) :=
    resolve_user_choice true "A" TextClientFailed ImageClientFailed s4 in
  let s6 :=
    snd (create_story_climax true "A" VideoClientFailed ImageClientFailed s5) in
  user_choices_made s4 = 4
  /\ current_danger_level s4 = 10
  /\ user_choices_made s5 = 5
  /\ current_danger_level s5 = 11
  /\ danger_level r = 11
  /\ current_danger_level s6 = 10.
Proof. vm_compute. repeat split; reflexivity. Qed.

(** C2, the code with a delivering image provider. The opening scene takes
    the one image of the budget; the first resolved choice asks the provider
    again without consulting the count, and the count stands at 3 with three
    entries in [generated_images]. *)
Theorem C2_choice_image_is_generated_past_the_cap :
  let opened :=
    snd (serve true true [StartStory "a dragon quest" online_start]
           initial_game_state) in
  let chosen :=
    snd (serve true true
           [StartStory "a dragon quest" online_start;
            MakeChoice "A" online_choice] initial_game_state) in
  images (scene_media_count opened) = 1
  /\ generated_images opened = ["generated_scene_20250101_120000.png"]
  /\ images (scene_media_count chosen) = 3
  /\ generated_images chosen
     = ["generated_scene_20250101_120000.png";
        "generated_scene_20250101_120500.png";
        "generated_scene_20250101_120500.png"].
Proof. vm_compute. repeat split; reflexivity. Qed.

(** C3, as the code has it. [start_new_adventure] empties the history, zeroes
    the media counts and the choice counter, and sets scene, mood and art
    style from the selected scenario. It assigns nothing else: the characters
    present, the danger level, the lists of generated media, the world
    knowledge, the colour palette and the stored character and location
    references keep the values they had. *)
Theorem C3_start_new_adventure_resets_progress_only (request : string)
    (s : GameState) :
  let s' := snd (start_new_adventure request s) in
  story_history s' = []
  /\ scene_media_count s' = zero_media_count
  /\ user_choices_made s' = 0
  /\ current_scene s' = setting (snd (select_scenario request))
  /\ current_mood s' = "mysterious"
  /\ art_style (visual_style s')
     = scenario_visual_style (snd (select_scenario request))
  /\ characters_present s' = characters_present s
  /\ user_inventory s' = user_inventory s
  /\ current_danger_level s' = current_danger_level s
  /\ generated_images s' = generated_images s
  /\ generated_videos s' = generated_videos s
  /\ generated_music s' = generated_music s
  /\ world_knowledge s' = world_knowledge s
  /\ color_palette (visual_style s') = color_palette (visual_style s)
  /\ character_references (visual_style s')
     = character_references (visual_style s)
  /\ location_references (visual_style s')
     = location_references (visual_style s).
Proof.
  unfold start_new_adventure, start_new_adventure_with, select_scenario.
  destruct (select_scenario_with lower request) as [kind template].
  repeat split; reflexivity.
Qed.

(** C3, counterexample to the claim as worded: a second adventure started
    after an opening scene with an image and one choice. The danger level is
    still 5, the image list and the location reference of the first
    adventure are still there, so the state is not fully reset. *)
Lemma C3_restart_keeps_prior_adventure :
  let played :=
    snd (serve true true
           [StartStory "a dragon quest" online_start;
            MakeChoice "A" online_choice] initial_game_state) in
  let s' := snd (start_new_adventure "an enchanted forest" played) in
  current_danger_level s' = 5
  /\ length (generated_images s') = 3%nat
  /\ location_references (visual_style s')
     !! "The volcanic lair of an ancient dragon filled with treasures and dangerous magic"
     = Some "generated_scene_20250101_120000.png"
  /\ ~ fully_reset s'.
Proof.
  intros played s'.
  assert (current_danger_level s' = 5) as Hdanger by (vm_compute; reflexivity).
  split; [exact Hdanger|].
  split; [vm_compute; reflexivity|].
  split; [vm_compute; reflexivity|].
  intros (_ & _ & _ & _ & Hone & _).
  rewrite Hdanger in Hone. discriminate.
Qed.

(** * Further properties *)

(** ** White space and line splitting *)

Lemma is_space_inv (c : ascii) :
  is_space c = true -> (nat_of_ascii c <= 32)%nat.
Proof. unfold is_space. cbv zeta. byte_cases. Qed.

Lemma two_byte_space_inv (c d : ascii) :
  two_byte_space c d = true ->
  nat_of_ascii c = 194%nat /\ (128 <= nat_of_ascii d <= 191)%nat.
Proof. unfold two_byte_space. byte_cases; intros _; lia. Qed.

Lemma three_byte_space_inv (c d e : ascii) :
  three_byte_space c d e = true ->
  (225 <= nat_of_ascii c <= 227)%nat /\
  (128 <= nat_of_ascii d <= 191)%nat /\
  (128 <= nat_of_ascii e <= 191)%nat.
Proof. unfold three_byte_space. cbv zeta. byte_cases; intros _; lia. Qed.

(** A byte from 128 to 191 opens no white-space character. *)
Lemma tail_byte_opens_nothing (c : ascii) (k : string) :
  (128 <= nat_of_ascii c <= 191)%nat -> is_space_char (String c k) = false.
Proof.
  intros Hc.
  destruct k as [|d [|e [|f k]]]; cbn [is_space_char];
    unfold is_space, two_byte_space, three_byte_space; cbv zeta;
    try reflexivity; byte_cases.
Qed.

Lemma rstrip_keeps_visible (c : ascii) (rest : string) :
  (forall k, is_space_char (String c k) = false) ->
  rstrip (String c rest) = String c (rstrip rest).
Proof. intros Hvisible. cbn [rstrip]. rewrite Hvisible. reflexivity. Qed.

Lemma rstrip_cons_eq (c : ascii) (rest : string) :
  rstrip (String c rest)
  = if is_space_char (String c (rstrip rest)) then EmptyString
    else String c (rstrip rest).
Proof. reflexivity. Qed.

Lemma rstrip_idempotent (s : string) : rstrip (rstrip s) = rstrip s.
Proof.
  induction s as [|c rest IH]; [reflexivity|].
  cbn [rstrip].
  destruct (is_space_char (String c (rstrip rest))) eqn:Hspace;
    [reflexivity|].
  cbn [rstrip]. rewrite IH, Hspace. reflexivity.
Qed.

(** What [rstrip] keeps is the beginning of the text. *)
Lemma rstrip_prefix (s : string) : exists dropped, s = rstrip s +:+ dropped.
Proof.
  induction s as [|c rest [dropped IH]]; [exists EmptyString; reflexivity|].
  cbn [rstrip].
  destruct (is_space_char (String c (rstrip rest))).
  - exists (String c rest). reflexivity.
  - exists dropped.
    change (String c (rstrip rest) +:+ dropped)
      with (String c (rstrip rest +:+ dropped)).
    rewrite <- IH. reflexivity.
Qed.

Lemma lstrip_space_head (s : string) :
  lstrip s = match space_head s with Some rest => lstrip rest | None => s end.
Proof.
  destruct s as [|c [|d [|e rest]]]; [reflexivity| | |].
  - cbn [space_head lstrip]. destruct (is_space c); reflexivity.
  - cbn [space_head].
    destruct (is_space c) eqn:Hc;
      [|destruct (two_byte_space c d) eqn:Hcd];
      cbn [lstrip]; rewrite ?Hc, ?Hcd; reflexivity.
  - cbn [space_head].
    destruct (is_space c) eqn:Hc;
      [|destruct (two_byte_space c d) eqn:Hcd;
        [|destruct (three_byte_space c d e) eqn:Hcde]];
      cbn [lstrip]; rewrite ?Hc, ?Hcd, ?Hcde; reflexivity.
Qed.

Lemma space_head_shorter (s rest : string) :
  space_head s = Some rest -> (String.length rest < String.length s)%nat.
Proof.
  destruct s as [|c [|d [|e k]]]; cbn [space_head];
    repeat match goal with
           | |- context [if ?b then _ else _] => destruct b
           end; intros Hhead; inversion Hhead; subst; cbn [String.length]; lia.
Qed.

(** A leading white-space character is recognised from the first bytes. *)
Lemma space_head_app (s rest more : string) :
  space_head s = Some rest -> space_head (s +:+ more) = Some (rest +:+ more).
Proof.
  destruct s as [|c [|d [|e k]]]; cbn [space_head]; try discriminate.
  - change (String c EmptyString +:+ more) with (String c more).
    cbn [space_head].
    destruct (is_space c); [|discriminate].
    intros Hhead. inversion Hhead. destruct more; reflexivity.
  - change (String c (String d EmptyString) +:+ more)
      with (String c (String d more)).
    cbn [space_head].
    destruct (is_space c); [intros Hhead; inversion Hhead; reflexivity|].
    destruct (two_byte_space c d); [|discriminate].
    intros Hhead. inversion Hhead. reflexivity.
  - change (String c (String d (String e k)) +:+ more)
      with (String c (String d (String e (k +:+ more)))).
    cbn [space_head].
    destruct (is_space c); [intros Hhead; inversion Hhead; reflexivity|].
    destruct (two_byte_space c d); [intros Hhead; inversion Hhead; reflexivity|].
    destruct (three_byte_space c d e); [|discriminate].
    intros Hhead. inversion Hhead. reflexivity.
Qed.

Lemma space_head_rstrip (s : string) :
  space_head s = None -> space_head (rstrip s) = None.
Proof.
  intros Hnone.
  destruct (space_head (rstrip s)) as [rest|] eqn:Hhead; [|reflexivity].
  destruct (rstrip_prefix s) as [dropped Hdropped].
  apply (space_head_app _ _ dropped) in Hhead.
  rewrite <- Hdropped in Hhead. congruence.
Qed.

(** Text that opens with a white-space character: what [rstrip] keeps of it
    opens with the same character, unless nothing is kept. *)
Lemma lstrip_rstrip_head (s rest : string) :
  space_head s = Some rest -> lstrip (rstrip s) = lstrip (rstrip rest).
Proof.
  destruct s as [|c k]; [discriminate|].
  cbn [space_head].
  destruct (is_space c) eqn:Hc.
  { intros Hhead. inversion Hhead. subst k. clear Hhead.
    cbn [rstrip].
    destruct (rstrip rest) as [|d kept] eqn:Hkept.
    - cbn [is_space_char]. rewrite Hc. reflexivity.
    - assert (is_space_char (String c (String d kept)) = false) as Hno.
      { apply is_space_inv in Hc.
        destruct kept as [|e [|f kept]]; cbn [is_space_char];
          unfold two_byte_space, three_byte_space; cbv zeta;
          try reflexivity; byte_cases. }
      rewrite Hno. cbn [lstrip]. rewrite Hc. reflexivity. }
  destruct k as [|d k]; [discriminate|].
  destruct (two_byte_space c d) eqn:Hcd.
  { intros Hhead. inversion Hhead. subst k. clear Hhead.
    destruct (two_byte_space_inv c d Hcd) as [Hlead Htail].
    rewrite (rstrip_cons_eq c (String d rest)).
    rewrite (rstrip_keeps_visible d rest)
      by (intros k; apply tail_byte_opens_nothing; exact Htail).
    destruct (rstrip rest) as [|e kept] eqn:Hkept.
    - cbn [is_space_char]. rewrite Hcd. reflexivity.
    - assert (is_space_char (String c (String d (String e kept))) = false)
        as Hno.
      { destruct kept as [|f kept]; cbn [is_space_char]; [|reflexivity].
        unfold three_byte_space; cbv zeta. byte_cases. }
      rewrite Hno. cbn [lstrip]. rewrite Hc, Hcd. reflexivity. }
  destruct k as [|e k]; [discriminate|].
  destruct (three_byte_space c d e) eqn:Hcde; [|discriminate].
  intros Hhead. inversion Hhead. subst k. clear Hhead.
  destruct (three_byte_space_inv c d e Hcde) as (Hlead & Htail1 & Htail2).
  rewrite (rstrip_cons_eq c (String d (String e rest))).
  rewrite (rstrip_keeps_visible d (String e rest))
    by (intros k; apply tail_byte_opens_nothing; exact Htail1).
  rewrite (rstrip_keeps_visible e rest)
    by (intros k; apply tail_byte_opens_nothing; exact Htail2).
  destruct (rstrip rest) as [|f kept] eqn:Hkept.
  - cbn [is_space_char]. rewrite Hcde. reflexivity.
  - change (is_space_char
              (String c (String d (String e (String f kept))))) with false.
    cbn [lstrip]. rewrite Hc, Hcd, Hcde. reflexivity.
Qed.

(** Stripping on the left and on the right commute. *)
Lemma lstrip_rstrip_bounded (n : nat) :
  forall s, (String.length s <= n)%nat -> lstrip (rstrip s) = rstrip (lstrip s).
Proof.
  induction n as [|n IH]; intros s Hlen.
  - destruct s; [reflexivity|cbn [String.length] in Hlen; lia].
  - rewrite (lstrip_space_head s).
    destruct (space_head s) as [rest|] eqn:Hhead.
    + rewrite (lstrip_rstrip_head s rest Hhead).
      apply IH. apply space_head_shorter in Hhead. lia.
    + rewrite lstrip_space_head, (space_head_rstrip s Hhead). reflexivity.
Qed.

Lemma lstrip_rstrip (s : string) : lstrip (rstrip s) = rstrip (lstrip s).
Proof. exact (lstrip_rstrip_bounded (String.length s) s (le_n _)). Qed.

Lemma lstrip_idempotent_bounded (n : nat) :
  forall s, (String.length s <= n)%nat -> lstrip (lstrip s) = lstrip s.
Proof.
  induction n as [|n IH]; intros s Hlen.
  - destruct s; [reflexivity|cbn [String.length] in Hlen; lia].
  - rewrite (lstrip_space_head s).
    destruct (space_head s) as [rest|] eqn:Hhead.
    + apply IH. apply space_head_shorter in Hhead. lia.
    + rewrite lstrip_space_head, Hhead. reflexivity.
Qed.

Lemma lstrip_idempotent (s : string) : lstrip (lstrip s) = lstrip s.
Proof. exact (lstrip_idempotent_bounded (String.length s) s (le_n _)). Qed.

Lemma strip_idempotent (s : string) : strip (strip s) = strip s.
Proof.
  unfold strip.
  rewrite lstrip_rstrip, rstrip_idempotent, lstrip_idempotent.
  reflexivity.
Qed.

Lemma rev_app_rev_app (a b c : string) :
  String.rev_app (String.rev_app a b) c = String.rev_app b (a +:+ c).
Proof.
  revert b c.
  induction a as [|x a IH]; intros b c; [reflexivity|].
  cbn [String.rev_app]. rewrite IH. reflexivity.
Qed.

Lemma string_app_empty (s : string) : s +:+ EmptyString = s.
Proof.
  induction s as [|c s IH]; [reflexivity|].
  change (String c (s +:+ EmptyString) = String c s). f_equal. exact IH.
Qed.

Lemma rev_rev_app (line : string) :
  String.rev (String.rev_app line EmptyString) = line.
Proof.
  unfold String.rev. rewrite rev_app_rev_app.
  cbn [String.rev_app]. apply string_app_empty.
Qed.

(** A string without a line feed, one character at a time. *)
Lemma py_in_newline_cons (c : ascii) (rest : string) :
  py_in newline (String c rest) = false ->
  Ascii.eqb c "010"%char = false
  /\ startswith newline (String c rest) = false
  /\ py_in newline rest = false.
Proof.
  cbn [py_in]. intros H.
  apply orb_false_iff in H as [Hhead Hrest].
  repeat split; try assumption.
  destruct (Ascii.eqb_spec c "010"%char) as [->|]; [|reflexivity].
  destruct rest; vm_compute in Hhead; discriminate Hhead.
Qed.

Lemma startswith_newline_head (rest : string) :
  startswith newline (String "010"%char rest) = true.
Proof. destruct rest; reflexivity. Qed.

Lemma startswith_newline_other (c : ascii) (rest : string) :
  Ascii.eqb c "010"%char = false ->
  startswith newline (String c rest) = false.
Proof.
  intros Hother. unfold startswith, newline.
  change (String.prefix (String "010"%char EmptyString) (String c rest))
    with (if ascii_dec "010"%char c
          then String.prefix EmptyString rest else false).
  destruct (ascii_dec "010" c) as [<-|]; [discriminate Hother | reflexivity].
Qed.

(** Splitting passes over a line that holds no line feed and cuts at the
    line feed that ends it. *)
Lemma split_acc_line (line rest acc : string) :
  py_in newline line = false ->
  split_acc newline O acc (line +:+ String "010"%char rest)
  = String.rev (String.rev_app line acc)
    :: split_acc newline O EmptyString rest.
Proof.
  revert acc.
  induction line as [|c line IH]; intros acc Hline.
  - change (EmptyString +:+ String "010"%char rest)
      with (String "010"%char rest).
    cbn [split_acc]. rewrite startswith_newline_head. reflexivity.
  - destruct (py_in_newline_cons c line Hline) as (Hother & _ & Hrest).
    change (String c line +:+ String "010"%char rest)
      with (String c (line +:+ String "010"%char rest)).
    cbn [split_acc].
    rewrite (startswith_newline_other c _ Hother).
    rewrite (IH (String c acc) Hrest). reflexivity.
Qed.

Lemma split_acc_last (line acc : string) :
  py_in newline line = false ->
  split_acc newline O acc line = [String.rev (String.rev_app line acc)].
Proof.
  revert acc.
  induction line as [|c line IH]; intros acc Hline.
  - reflexivity.
  - destruct (py_in_newline_cons c line Hline) as (Hother & _ & Hrest).
    cbn [split_acc]. rewrite (startswith_newline_other c _ Hother).
    rewrite (IH (String c acc) Hrest). reflexivity.
Qed.

(** ** Reading the options out of the collaborator's answer *)

Lemma strip_rstrip (t : string) : strip (rstrip t) = strip t.
Proof.
  unfold strip. rewrite lstrip_rstrip, rstrip_idempotent. reflexivity.
Qed.

(** A line that opens with a label, stripped: the label survives and only
    the tail loses its trailing white space. *)
Lemma strip_labelled (label : ascii) (t : string) :
  (65 <= nat_of_ascii label <= 90)%nat ->
  strip (String label (String ":" t)) = String label (String ":" (rstrip t)).
Proof.
  intros Hlabel.
  assert (forall k, is_space_char (String label k) = false) as Hvisible.
  { intros [|d [|e [|f k]]]; cbn [is_space_char]; try reflexivity;
      unfold is_space, two_byte_space, three_byte_space; cbv zeta;
      byte_cases. }
  unfold strip.
  rewrite lstrip_space_head.
  assert (space_head (String label (String ":" t)) = None) as ->.
  { cbn [space_head].
    rewrite (Hvisible EmptyString : is_space label = false).
    rewrite (Hvisible (String ":" EmptyString) : two_byte_space label ":" = false).
    destruct t as [|e t]; [reflexivity|].
    rewrite (Hvisible (String ":" (String e EmptyString))
             : three_byte_space label ":" e = false).
    reflexivity. }
  rewrite (rstrip_keeps_visible label _ Hvisible).
  rewrite (rstrip_keeps_visible ":" t)
    by (intros [|d [|e [|f k]]]; reflexivity).
  reflexivity.
Qed.

Lemma parse_choice_line_a (a b c t : string) :
  parse_choice_line (a, b, c) ("A:" +:+ t) = (strip t, b, c).
Proof.
  unfold parse_choice_line.
  change ("A:" +:+ t) with (String "A" (String ":" t)).
  rewrite strip_labelled by (split; apply Nat.leb_le; reflexivity).
  change (String "A" (String ":" (rstrip t))) with ("A:" +:+ rstrip t).
  rewrite startswith_app.
  change (drop_chars 2 ("A:" +:+ rstrip t)) with (rstrip t).
  rewrite strip_rstrip. reflexivity.
Qed.

Lemma parse_choice_line_b (a b c t : string) :
  parse_choice_line (a, b, c) ("B:" +:+ t) = (a, strip t, c).
Proof.
  unfold parse_choice_line.
  change ("B:" +:+ t) with (String "B" (String ":" t)).
  rewrite strip_labelled by (split; apply Nat.leb_le; reflexivity).
  change (startswith "A:" (String "B" (String ":" (rstrip t)))) with false.
  change (String "B" (String ":" (rstrip t))) with ("B:" +:+ rstrip t).
  rewrite startswith_app.
  change (drop_chars 2 ("B:" +:+ rstrip t)) with (rstrip t).
  rewrite strip_rstrip. reflexivity.
Qed.

Lemma parse_choice_line_c (a b c t : string) :
  parse_choice_line (a, b, c) ("C:" +:+ t) = (a, b, strip t).
Proof.
  unfold parse_choice_line.
  change ("C:" +:+ t) with (String "C" (String ":" t)).
  rewrite strip_labelled by (split; apply Nat.leb_le; reflexivity).
  change (startswith "A:" (String "C" (String ":" (rstrip t)))) with false.
  change (startswith "B:" (String "C" (String ":" (rstrip t)))) with false.
  change (String "C" (String ":" (rstrip t))) with ("C:" +:+ rstrip t).
  rewrite startswith_app.
  change (drop_chars 2 ("C:" +:+ rstrip t)) with (rstrip t).
  rewrite strip_rstrip. reflexivity.
Qed.

Lemma labelled_line_has_no_newline (label : ascii) (t : string) :
  Ascii.eqb label "010"%char = false ->
  py_in newline t = false ->
  py_in newline (String label (String ":" t)) = false.
Proof.
  intros Hlabel Ht. cbn [py_in].
  rewrite (startswith_newline_other label _ Hlabel).
  rewrite (startswith_newline_other ":" t) by reflexivity.
  exact Ht.
Qed.

(** The three labelled lines of an answer are told apart by [split]. *)
Lemma split_three_labelled (ta tb tc : string) :
  py_in newline ta = false ->
  py_in newline tb = false ->
  py_in newline tc = false ->
  split newline
    ("A:" +:+ ta +:+ newline +:+ "B:" +:+ tb +:+ newline +:+ "C:" +:+ tc)
  = ["A:" +:+ ta; "B:" +:+ tb; "C:" +:+ tc].
Proof.
  intros Ha Hb Hc. unfold split.
  change (newline +:+ "B:" +:+ tb +:+ newline +:+ "C:" +:+ tc)
    with (String "010"%char ("B:" +:+ tb +:+ newline +:+ "C:" +:+ tc)).
  rewrite <- (string_app_assoc "A:" ta).
  rewrite split_acc_line
    by (apply (labelled_line_has_no_newline "A"); [reflexivity | exact Ha]).
  change (newline +:+ "C:" +:+ tc) with (String "010"%char ("C:" +:+ tc)).
  rewrite <- (string_app_assoc "B:" tb).
  rewrite split_acc_line
    by (apply (labelled_line_has_no_newline "B"); [reflexivity | exact Hb]).
  rewrite split_acc_last
    by (apply (labelled_line_has_no_newline "C"); [reflexivity | exact Hc]).
  rewrite !rev_rev_app. reflexivity.
Qed.

(** X1. When [present_story_choice] is called without options and the text
    collaborator answers with the three lines "A:...", "B:...", "C:...", the
    options returned are the texts after the labels with the white space
    around them removed. *)
Theorem present_story_choice_reads_labelled_lines
    (situation ta tb tc : string) (s : GameState) :
  py_in newline ta = false ->
  py_in newline tb = false ->
  py_in newline tc = false ->
  let r :=
    fst (present_story_choice situation EmptyString EmptyString EmptyString
           (TextResponse
              (Some ("A:" +:+ ta +:+ newline +:+ "B:" +:+ tb +:+ newline
                     +:+ "C:" +:+ tc))) s) in
  choice_a r = strip ta /\ choice_b r = strip tb /\ choice_c r = strip tc.
Proof.
  intros Ha Hb Hc.
  unfold present_story_choice. cbn [truthy negb andb generated_choices].
  rewrite (split_three_labelled ta tb tc Ha Hb Hc).
  cbn [fold_left].
  rewrite parse_choice_line_a, parse_choice_line_b, parse_choice_line_c.
  repeat split; reflexivity.
Qed.

Lemma present_story_choice_reads_labelled_lines_witness :
  let r :=
    fst (present_story_choice EmptyString EmptyString EmptyString EmptyString
           (TextResponse
              (Some ("A:" +:+ ("  Enter the lair " +:+ no_break_space)
                     +:+ newline +:+ "B:" +:+ "Wait" +:+ newline +:+ "C:"
                     +:+ EmptyString)))
           initial_game_state) in
  choice_a r = "Enter the lair" /\ choice_b r = "Wait"
  /\ choice_c r = EmptyString.
Proof.
  exact (present_story_choice_reads_labelled_lines EmptyString
           ("  Enter the lair " +:+ no_break_space) "Wait" EmptyString
           initial_game_state eq_refl eq_refl eq_refl).
Defined.

(** X2. As soon as one option is passed in, [present_story_choice] does not
    consult the text collaborator: the three options come back as given,
    empty ones included, whatever the collaborator would have answered. *)
Theorem present_story_choice_keeps_given_options
    (situation a b c : string) (reply other_reply : TextReply)
    (s : GameState) :
  truthy a || truthy b || truthy c = true ->
  let r := fst (present_story_choice situation a b c reply s) in
  choice_a r = a /\ choice_b r = b /\ choice_c r = c
  /\ present_story_choice situation a b c reply s
     = present_story_choice situation a b c other_reply s.
Proof.
  intros Hgiven. unfold present_story_choice.
  assert (negb (truthy a) && negb (truthy b) && negb (truthy c) = false)
    as Hskip by (destruct (truthy a), (truthy b), (truthy c);
                 try reflexivity; discriminate Hgiven).
  rewrite Hskip. repeat split; reflexivity.
Qed.

Lemma present_story_choice_keeps_given_options_witness :
  let r :=
    fst (present_story_choice "At the gate" EmptyString "Knock" EmptyString
           (TextResponse (Some "A: Climb the wall")) initial_game_state) in
  choice_a r = EmptyString /\ choice_b r = "Knock" /\ choice_c r = EmptyString.
Proof.
  destruct (present_story_choice_keeps_given_options "At the gate"
              EmptyString "Knock" EmptyString
              (TextResponse (Some "A: Climb the wall")) TextRaised
              initial_game_state eq_refl) as (Ha & Hb & Hc & _).
  repeat split; assumption.
Defined.

(** A line without any of the three labels leaves the options as they
    are. *)
Lemma parse_choice_line_unlabelled (acc : string * string * string)
    (line : string) :
  startswith "A:" (strip line) = false ->
  startswith "B:" (strip line) = false ->
  startswith "C:" (strip line) = false ->
  parse_choice_line acc line = acc.
Proof.
  intros Ha Hb Hc. destruct acc as [[a b] c].
  unfold parse_choice_line. rewrite Ha, Hb, Hc. reflexivity.
Qed.

(** X3. A collaborator that fails, or whose answer has no line starting
    with "A:", "B:" or "C:" once stripped, does not make
    [present_story_choice] fail: it returns with three empty options and
    still records the choice moment. *)
Theorem present_story_choice_survives_unusable_answer
    (situation : string) (reply : TextReply) (s : GameState) :
  match reply with
  | TextResponse (Some answer) =>
      Forall
        (fun line =>
           startswith "A:" (strip line) = false
           /\ startswith "B:" (strip line) = false
           /\ startswith "C:" (strip line) = false)
        (split newline answer)
  | _ => True
  end ->
  let '(r, s') :=
    present_story_choice situation EmptyString EmptyString EmptyString reply s in
  choice_a r = EmptyString /\ choice_b r = EmptyString
  /\ choice_c r = EmptyString
  /\ length (story_history s') = S (length (story_history s)).
Proof.
  intros Hreply.
  assert (generated_choices (EmptyString, EmptyString, EmptyString) reply
          = (EmptyString, EmptyString, EmptyString)) as Hkept.
  { destruct reply as [| | [answer|] |]; try reflexivity.
    cbn [generated_choices].
    induction Hreply as [|line lines (Ha & Hb & Hc) _ IH]; [reflexivity|].
    cbn [fold_left].
    rewrite (parse_choice_line_unlabelled _ line Ha Hb Hc). exact IH. }
  unfold present_story_choice. cbn [truthy negb andb].
  rewrite Hkept. cbn.
  repeat split; try reflexivity.
  rewrite length_app. cbn. lia.
Qed.

Lemma present_story_choice_survives_unusable_answer_witness :
  choice_a
    (fst (present_story_choice EmptyString EmptyString EmptyString
            EmptyString
            (TextResponse (Some ("Sure! Here you go" +:+ newline +:+ "a: go")))
            initial_game_state))
  = EmptyString.
Proof.
  pose proof (present_story_choice_survives_unusable_answer EmptyString
                (TextResponse
                   (Some ("Sure! Here you go" +:+ newline +:+ "a: go")))
                initial_game_state) as Hsoft.
  destruct (present_story_choice EmptyString EmptyString EmptyString
              EmptyString
              (TextResponse (Some ("Sure! Here you go" +:+ newline +:+ "a: go")))
              initial_game_state) as [r s'].
  destruct Hsoft as (Ha & _); [| exact Ha].
  repeat constructor.
Defined.

(** ** The guarded image paths *)

(** X4. Once the image count has reached one, [generate_establishing_scene]
    does not turn to the image provider: whatever the provider would have
    answered, the state is left as it was and the scene is reported as
    prompt only. *)
Theorem generate_establishing_scene_respects_cap (media : bool)
    (location mood details characters : string) (reply : ImageReply)
    (s : GameState) :
  1 <= images (scene_media_count s) ->
  let '(r, s') :=
    generate_establishing_scene media location mood details characters
      reply s in
  s' = s /\ scene_generated_file r = None
  /\ scene_image_status r = "prompt_only".
Proof.
  intros Hused. unfold generate_establishing_scene.
  destruct (Z.ltb_spec (images (scene_media_count s)) 1) as [Hfree|_];
    [lia|].
  cbn. repeat split; reflexivity.
Qed.

Lemma generate_establishing_scene_respects_cap_witness :
  let opened :=
    snd (serve true true [StartStory "a dragon quest" online_start]
           initial_game_state) in
  1 <= images (scene_media_count opened)
  /\ snd (generate_establishing_scene true "A tower" "tense" EmptyString
            EmptyString (ImageSaved "20250101_130000") opened)
     = opened.
Proof.
  intros opened.
  assert (1 <= images (scene_media_count opened)) as Hused
    by (vm_compute; discriminate).
  split; [exact Hused|].
  pose proof (generate_establishing_scene_respects_cap true "A tower" "tense"
                EmptyString EmptyString (ImageSaved "20250101_130000")
                opened Hused) as Hcap.
  destruct (generate_establishing_scene true "A tower" "tense" EmptyString
              EmptyString (ImageSaved "20250101_130000") opened) as [r s'].
  destruct Hcap as (Hsame & _). exact Hsame.
Defined.

(** X5. With the image count below one, media generation available and an
    image delivered, [generate_establishing_scene] records the file name, the
    count goes to one more and the file becomes the visual reference of the
    location; the references of other locations are untouched. *)
Theorem generate_establishing_scene_stores_location_reference
    (location mood details characters timestamp other : string)
    (s : GameState) :
  images (scene_media_count s) < 1 ->
  let file := "generated_scene_" +:+ timestamp +:+ ".png" in
  let '(r, s') :=
    generate_establishing_scene true location mood details characters
      (ImageSaved timestamp) s in
  scene_generated_file r = Some file
  /\ generated_images s' = (generated_images s ++ [file])%list
  /\ images (scene_media_count s') = images (scene_media_count s) + 1
  /\ location_references (visual_style s') !! location = Some file
  /\ (other <> location ->
      location_references (visual_style s') !! other
      = location_references (visual_style s) !! other).
Proof.
  intros Hfree. unfold generate_establishing_scene.
  destruct (Z.ltb_spec (images (scene_media_count s)) 1) as [_|Hused];
    [|lia].
  cbn.
  repeat split; try reflexivity.
  - apply lookup_insert_eq.
  - intros Hother. apply lookup_insert_ne. congruence.
Qed.

Lemma generate_establishing_scene_stores_location_reference_witness :
  location_references
    (visual_style
       (snd (generate_establishing_scene true "A tower" "tense" EmptyString
               EmptyString (ImageSaved "20250101_130000")
               initial_game_state)))
  !! "A tower"
  = Some "generated_scene_20250101_130000.png".
Proof.
  assert (images (scene_media_count initial_game_state) < 1) as Hfree
    by reflexivity.
  pose proof (generate_establishing_scene_stores_location_reference "A tower"
                "tense" EmptyString EmptyString "20250101_130000"
                "A tower" initial_game_state Hfree) as Hstore.
  destruct (generate_establishing_scene true "A tower" "tense" EmptyString
              EmptyString (ImageSaved "20250101_130000") initial_game_state)
    as [r s'].
  destruct Hstore as (_ & _ & _ & Href & _). exact Href.
Defined.

(** X6. An image request that does not end in a saved file costs nothing:
    when media generation is unavailable or the provider does not deliver,
    [generate_establishing_scene], [create_single_choice_image] and
    [create_character_portrait] all hand back the state they were given, so
    neither the image count nor any list or reference changes. *)
Theorem failed_image_request_leaves_state (media : bool)
    (a b c d : string) (reply : ImageReply) (s : GameState) :
  media = false \/ (forall timestamp, reply <> ImageSaved timestamp) ->
  snd (generate_establishing_scene media a b c d reply s) = s
  /\ snd (create_single_choice_image media a b c reply s) = s
  /\ snd (create_character_portrait media a b c d reply s) = s.
Proof.
  intros Hfail.
  unfold generate_establishing_scene, create_single_choice_image,
    create_character_portrait.
  destruct media.
  - destruct Hfail as [Hoff|Hreply]; [discriminate Hoff|].
    assert (generate_consistent_image reply s = (None, s)) as Hnone.
    { destruct reply as [| | |timestamp]; try reflexivity.
      destruct (Hreply timestamp eq_refl). }
    destruct (character_references (visual_style s) !! a);
      destruct (images (scene_media_count s) <? 1);
      cbn [andb snd]; rewrite ?Hnone; repeat split; reflexivity.
  - destruct (character_references (visual_style s) !! a);
      destruct (images (scene_media_count s) <? 1);
      repeat split; reflexivity.
Qed.

Lemma failed_image_request_leaves_state_witness :
  snd (create_single_choice_image true "open the door" "moderate" "A tower"
         ImageNoneGenerated initial_game_state)
  = initial_game_state.
Proof.
  destruct (failed_image_request_leaves_state true "open the door" "moderate"
              "A tower" "neutral" ImageNoneGenerated initial_game_state)
    as (_ & Hchoice & _).
  - right. intros timestamp. discriminate.
  - exact Hchoice.
Defined.

(** X7. The two guarded paths keep the budget: from a state with at most one
    image counted, neither [generate_establishing_scene] nor
    [create_character_portrait] ever leaves more than one counted, whatever
    the provider answers. *)
Theorem guarded_image_paths_keep_cap (media : bool) (a b c d : string)
    (reply : ImageReply) (s : GameState) :
  images (scene_media_count s) <= 1 ->
  images (scene_media_count
            (snd (generate_establishing_scene media a b c d reply s))) <= 1
  /\ images (scene_media_count
               (snd (create_character_portrait media a b c d reply s))) <= 1.
Proof.
  intros Hcap.
  unfold generate_establishing_scene, create_character_portrait.
  destruct (character_references (visual_style s) !! a);
    destruct (Z.ltb_spec (images (scene_media_count s)) 1);
    destruct media, reply; cbn; split; lia.
Qed.

Lemma guarded_image_paths_keep_cap_witness :
  images (scene_media_count
            (snd (create_character_portrait true "Kira" "hacker" "Neo-Tokyo"
                    "neutral" (ImageSaved "20250101_130000")
                    (snd (generate_establishing_scene true "Neo-Tokyo" "tense"
                            EmptyString EmptyString
                            (ImageSaved "20250101_125900")
                            initial_game_state))))) <= 1.
Proof.
  apply guarded_image_paths_keep_cap.
  apply guarded_image_paths_keep_cap.
  vm_compute. discriminate.
Defined.

(** ** Character portraits and the reference store *)

(** X8. A character with a stored reference never causes an image request:
    [create_character_portrait] returns the stored reference and the state
    unchanged, whatever the image count and whatever the provider would have
    answered. *)
Theorem create_character_portrait_reuses_reference (media : bool)
    (npc_name personality context emotion reference : string)
    (reply : ImageReply) (s : GameState) :
  character_references (visual_style s) !! npc_name = Some reference ->
  let '(r, s') :=
    create_character_portrait media npc_name personality context emotion
      reply s in
  s' = s
  /\ portrait_existing_reference r = Some reference
  /\ portrait_generated_file r = None
  /\ portrait_image_status r = "using_existing_reference".
Proof.
  intros Hstored. unfold create_character_portrait. rewrite Hstored.
  repeat split; reflexivity.
Qed.

(** X9. A portrait that was generated is found again: after a first call
    that delivered an image for a character without reference, every later
    call for that character returns that file as the existing reference and
    changes nothing, while a character without reference gets no image any
    more because the budget is used up. *)
Theorem create_character_portrait_round_trip
    (npc_name personality context emotion timestamp : string)
    (later_personality later_context later_emotion newcomer : string)
    (later_reply : ImageReply) (s : GameState) :
  character_references (visual_style s) !! npc_name = None ->
  images (scene_media_count s) = 0 ->
  newcomer <> npc_name ->
  character_references (visual_style s) !! newcomer = None ->
  let file := "generated_scene_" +:+ timestamp +:+ ".png" in
  let '(first, s1) :=
    create_character_portrait true npc_name personality context emotion
      (ImageSaved timestamp) s in
  let '(again, s2) :=
    create_character_portrait true npc_name later_personality later_context
      later_emotion later_reply s1 in
  let '(other, s3) :=
    create_character_portrait true newcomer later_personality later_context
      later_emotion later_reply s1 in
  portrait_generated_file first = Some file
  /\ portrait_existing_reference again = Some file
  /\ s2 = s1
  /\ portrait_generated_file other = None
  /\ portrait_image_status other = "prompt_only"
  /\ s3 = s1.
Proof.
  intros Hnone Hzero Hnew Hnewcomer.
  unfold create_character_portrait at 1. rewrite Hnone, Hzero.
  cbn.
  unfold create_character_portrait. cbn.
  rewrite lookup_insert_eq.
  rewrite lookup_insert_ne by congruence. rewrite Hnewcomer.
  rewrite Hzero. cbn.
  repeat split; reflexivity.
Qed.

Lemma create_character_portrait_round_trip_witness :
  portrait_existing_reference
    (fst (create_character_portrait true "Kira" "tired" "a bar" "sad"
            ImageRaised
            (snd (create_character_portrait true "Kira" "hacker" "Neo-Tokyo"
                    "neutral" (ImageSaved "20250101_130000")
                    initial_game_state))))
  = Some "generated_scene_20250101_130000.png".
Proof.
  pose proof (create_character_portrait_round_trip "Kira" "hacker" "Neo-Tokyo"
                "neutral" "20250101_130000" "tired" "a bar" "sad" "Sato"
                ImageRaised initial_game_state) as Hround.
  destruct (create_character_portrait true "Kira" "hacker" "Neo-Tokyo"
              "neutral" (ImageSaved "20250101_130000") initial_game_state)
    as [first s1].
  cbn [snd].
  destruct (create_character_portrait true "Kira" "tired" "a bar" "sad"
              ImageRaised s1) as [again s2].
  destruct (create_character_portrait true "Sato" "tired" "a bar" "sad"
              ImageRaised s1) as [other s3].
  destruct Hround as (_ & Hagain & _);
    [reflexivity | reflexivity | discriminate | reflexivity | exact Hagain].
Defined.

Lemma create_character_portrait_reuses_reference_witness :
  let s :=
    snd (create_character_portrait true "Kira" "hacker" "Neo-Tokyo" "neutral"
           (ImageSaved "20250101_130000") initial_game_state) in
  character_references (visual_style s) !! "Kira"
  = Some "generated_scene_20250101_130000.png"
  /\ snd (create_character_portrait true "Kira" "tired" "a bar" "sad"
            (ImageSaved "20250101_140000") s) = s.
Proof.
  intros s.
  assert (character_references (visual_style s) !! "Kira"
          = Some "generated_scene_20250101_130000.png") as Hstored
    by (vm_compute; reflexivity).
  split; [exact Hstored|].
  pose proof (create_character_portrait_reuses_reference true "Kira" "tired"
                "a bar" "sad" "generated_scene_20250101_130000.png"
                (ImageSaved "20250101_140000") s Hstored) as Hreuse.
  destruct (create_character_portrait true "Kira" "tired" "a bar" "sad"
              (ImageSaved "20250101_140000") s) as [r s'].
  destruct Hreuse as (Hsame & _). exact Hsame.
Defined.

(** ** World memory *)

(** X10. What [maintain_visual_memory] stores can be read back: afterwards
    the category exists and holds the value under the key; every other key of
    that category and every other category read as before. *)
Theorem maintain_visual_memory_round_trip (media : bool)
    (key value category other_key other_category : string)
    (reply : ImageReply) (s : GameState) :
  let knowledge :=
    world_knowledge
      (snd (maintain_visual_memory media key value category reply s)) in
  (knowledge !! category ≫= (.!! key))
  = Some {| memory_value := value; memory_category := category |}
  /\ (other_key <> key ->
      (knowledge !! category ≫= (.!! other_key))
      = (world_knowledge s !! category ≫= (.!! other_key)))
  /\ (other_category <> category ->
      knowledge !! other_category = world_knowledge s !! other_category).
Proof.
  assert (forall st, world_knowledge (snd (generate_consistent_image reply st))
                     = world_knowledge st) as Hframe
    by (intros st; destruct reply; reflexivity).
  unfold maintain_visual_memory.
  destruct ((size (<[key := {| memory_value := value;
                                memory_category := category |}]>
                     (default ∅ (world_knowledge s !! category))) mod 3
             =? 0)%nat && media).
  - specialize (Hframe
      (set_world_knowledge
         (<[category :=
              <[key := {| memory_value := value;
                          memory_category := category |}]>
                (default ∅ (world_knowledge s !! category))]>
            (world_knowledge s)) s)).
    destruct (generate_consistent_image reply _) as [image s2].
    cbn [snd] in *. rewrite Hframe. cbn.
    repeat split.
    + rewrite lookup_insert_eq. cbn. apply lookup_insert_eq.
    + intros Hother. rewrite lookup_insert_eq. cbn.
      rewrite lookup_insert_ne by congruence.
      destruct (world_knowledge s !! category); reflexivity.
    + intros Hother. apply lookup_insert_ne. congruence.
  - cbn.
    repeat split.
    + rewrite lookup_insert_eq. cbn. apply lookup_insert_eq.
    + intros Hother. rewrite lookup_insert_eq. cbn.
      rewrite lookup_insert_ne by congruence.
      destruct (world_knowledge s !! category); reflexivity.
    + intros Hother. apply lookup_insert_ne. congruence.
Qed.

Lemma maintain_visual_memory_round_trip_witness :
  let s :=
    snd (maintain_visual_memory true "sword" "rusty" "items" ImageRaised
           initial_game_state) in
  (world_knowledge
     (snd (maintain_visual_memory true "shield" "oak" "items" ImageRaised s))
   !! "items" ≫= (.!! "sword"))
  = Some {| memory_value := "rusty"; memory_category := "items" |}.
Proof.
  intros s.
  destruct (maintain_visual_memory_round_trip true "shield" "oak" "items"
              "sword" "places" ImageRaised s) as (_ & Hkept & _).
  rewrite Hkept by discriminate.
  vm_compute. reflexivity.
Defined.

(** X11. The illustration of a memory is requested exactly when the
    category, after the store, holds a multiple of three entries, and the
    image budget is not consulted: with media generation available and a
    delivering provider the image count then rises by one from any value,
    and the file is recorded; otherwise count and list stay. *)
Theorem maintain_visual_memory_illustrates_every_third
    (key value category timestamp : string) (s : GameState) :
  let file := "generated_scene_" +:+ timestamp +:+ ".png" in
  let entries :=
    <[key := {| memory_value := value; memory_category := category |}]>
      (default ∅ (world_knowledge s !! category)) in
  let '(r, s') :=
    maintain_visual_memory true key value category (ImageSaved timestamp) s in
  if (size entries mod 3 =? 0)%nat
  then memory_generated_file r = Some file
       /\ images (scene_media_count s') = images (scene_media_count s) + 1
       /\ generated_images s' = (generated_images s ++ [file])%list
  else memory_generated_file r = None
       /\ images (scene_media_count s') = images (scene_media_count s)
       /\ generated_images s' = generated_images s.
Proof.
  unfold maintain_visual_memory.
  destruct ((size (<[key := {| memory_value := value;
                                memory_category := category |}]>
                     (default ∅ (world_knowledge s !! category))) mod 3
             =? 0)%nat);
    cbn; repeat split; reflexivity.
Qed.

(** ** The climax video *)

(** X12. Without any recorded image there is no seed, and
    [create_epic_climax_video] does not turn to the video provider: the state
    is unchanged and the result reports the video as failed. *)
Theorem create_epic_climax_video_needs_an_image (media : bool)
    (final_choice context : string) (reply : VideoReply) (s : GameState) :
  generated_images s = [] ->
  let '(r, s') :=
    create_epic_climax_video media final_choice context reply s in
  s' = s /\ video_generated_file r = None /\ video_seed_image r = None
  /\ video_status r = "epic_video_failed".
Proof.
  intros Hnone. unfold create_epic_climax_video. rewrite Hnone.
  repeat split; reflexivity.
Qed.

Lemma create_epic_climax_video_needs_an_image_witness :
  snd (create_epic_climax_video true "A" "A tower" (VideoSaved "20250101_150000")
         initial_game_state)
  = initial_game_state.
Proof.
  pose proof (create_epic_climax_video_needs_an_image true "A" "A tower"
                (VideoSaved "20250101_150000") initial_game_state eq_refl)
    as Hseed.
  destruct (create_epic_climax_video true "A" "A tower"
              (VideoSaved "20250101_150000") initial_game_state) as [r s'].
  destruct Hseed as (Hsame & _). exact Hsame.
Defined.

(** X13. A delivered climax video is listed twice and counted once: with an
    image to seed it, [create_epic_climax_video] leaves the file name two
    times at the end of [generated_videos] while the video count rises by
    one; the newest image is reported as the seed. *)
Theorem create_epic_climax_video_lists_video_twice
    (final_choice context timestamp seed : string) (s : GameState) :
  last (generated_images s) = Some seed ->
  truthy seed = true ->
  let file := "generated_video_" +:+ timestamp +:+ ".mp4" in
  let '(r, s') :=
    create_epic_climax_video true final_choice context (VideoSaved timestamp)
      s in
  video_generated_file r = Some file
  /\ video_seed_image r = Some seed
  /\ generated_videos s' = (generated_videos s ++ [file; file])%list
  /\ videos (scene_media_count s') = videos (scene_media_count s) + 1
  /\ generated_images s' = generated_images s.
Proof.
  intros Hseed Htruthy. unfold create_epic_climax_video.
  rewrite Hseed. cbn [andb]. rewrite Htruthy.
  unfold generate_video_from_image_seed. rewrite Htruthy.
  cbn. rewrite <- app_assoc.
  repeat split; reflexivity.
Qed.

Lemma create_epic_climax_video_lists_video_twice_witness :
  let opened :=
    snd (serve true true [StartStory "a dragon quest" online_start]
           initial_game_state) in
  generated_videos
    (snd (create_epic_climax_video true "A" "A tower"
            (VideoSaved "20250101_150000") opened))
  = ["generated_video_20250101_150000.mp4";
     "generated_video_20250101_150000.mp4"].
Proof.
  intros opened.
  assert (last (generated_images opened)
          = Some "generated_scene_20250101_120000.png") as Hseed
    by (vm_compute; reflexivity).
  pose proof (create_epic_climax_video_lists_video_twice "A" "A tower"
                "20250101_150000" "generated_scene_20250101_120000.png"
                opened Hseed eq_refl) as Htwice.
  destruct (create_epic_climax_video true "A" "A tower"
              (VideoSaved "20250101_150000") opened) as [r s'].
  destruct Htwice as (_ & _ & Hvideos & _).
  cbn [snd]. rewrite Hvideos. vm_compute. reflexivity.
Defined.

(** ** The story handlers on states reached through the boundary *)

(** [start_story] with the agent available always answers, leaves the
    counter at zero, the danger level as it was, and a history of exactly
    the opening scene and the first choice moment. *)
Lemma start_story_effect (media : bool) (request : string) (env : StartEnv)
    (s : GameState) :
  exists r s',
    start_story media true request env s = (HttpOk r, s')
    /\ user_choices_made s' = 0
    /\ current_danger_level s' = current_danger_level s
    /\ length (story_history s') = 2%nat
    /\ images (scene_media_count s') <= 1
    /\ 0 <= images (scene_media_count s').
Proof.
  unfold start_story, begin_opening_scene, generate_establishing_scene,
    start_new_adventure, start_new_adventure_with.
  cbn [negb].
  destruct (select_scenario_with lower request) as [kind template].
  cbn.
  destruct media, (opening_image_reply env); cbn;
    match goal with
    | |- context [present_story_choice ?a ?b ?c ?d ?t ?st] =>
        destruct (present_story_choice_effect a b c d t st)
          as (pres & e & Hpres & _); rewrite Hpres
    end;
    do 2 eexists; (split; [reflexivity|]); cbn; repeat split; lia.
Qed.

(** The make-choice handler on a state with a non-negative counter: it
    answers, the danger level it leaves is a function of the counter alone,
    and the history grows by three entries before the fifth choice and by
    two from then on. *)
Lemma make_choice_effect (media : bool) (choice : string) (env : ChoiceEnv)
    (s : GameState) :
  0 <= user_choices_made s ->
  exists r s' added,
    make_choice media true choice env s = (HttpOk r, s')
    /\ user_choices_made s' = user_choices_made s + 1
    /\ current_danger_level s' = Z.min 10 (5 + 2 * user_choices_made s)
    /\ story_history s' = (story_history s ++ added)%list
    /\ (user_choices_made s < 4 -> length added = 3%nat)
    /\ (4 <= user_choices_made s -> length added = 2%nat).
Proof.
  intros Hcount.
  unfold make_choice. cbn [negb].
  pose proof (resolve_user_choice_effect media choice (narrative_reply env)
                (outcome_image_reply env) s) as Hresolve.
  destruct (resolve_user_choice media choice (narrative_reply env)
              (outcome_image_reply env) s) as [res s1].
  destruct Hresolve as (_ & Hmade & _ & Hres & _ & e1 & Hhist1 & _).
  rewrite Hres.
  destruct (Z.ltb_spec (user_choices_made s + 1) 5) as [Hearly | Hfifth].
  - assert (1 <= user_choices_made s1 <= 4) as Hrange by lia.
    destruct (continue_narrative_returns s1 Hrange)
      as (cont & s2 & e2 & Hcont & _ & _ & Hdanger & _ & Hmade2 & _ & Hhist2 & _).
    rewrite Hcont.
    destruct (present_story_choice_effect EmptyString EmptyString EmptyString
                EmptyString (next_choices_reply env) s2)
      as (pres & e3 & Hpres & _).
    rewrite Hpres.
    eexists. exists (append_history e3 s2), [e1; e2; e3].
    split; [reflexivity|].
    cbn. rewrite Hhist2, Hhist1, Hmade2, Hdanger, Hmade.
    rewrite <- !app_assoc.
    repeat split; try reflexivity; try lia.
  - pose proof (create_story_climax_effect media choice (climax_video_reply env)
                  (climax_image_reply env) s1) as Hclimax.
    destruct (create_story_climax media choice (climax_video_reply env)
                (climax_image_reply env) s1) as [climax s2].
    destruct Hclimax as (_ & Hmade2 & Hdanger & _ & e2 & Hhist2 & _).
    eexists. exists s2, [e1; e2].
    split; [reflexivity|].
    rewrite Hhist2, Hhist1, Hmade2, Hdanger, Hmade.
    rewrite <- !app_assoc.
    repeat split; try reflexivity; try lia.
Qed.

(** Requests served from a state with a non-negative counter are all
    answered with a response. *)
Lemma serve_answers (media : bool) (calls : list BoundaryCall) (s : GameState) :
  0 <= user_choices_made s ->
  Forall (fun r => http_status r = 200) (fst (serve media true calls s)).
Proof.
  revert s.
  induction calls as [|call calls IH]; intros s Hs; [constructor|].
  cbn [serve].
  destruct call as [request env | choice env]; cbn [handle].
  - destruct (start_story_effect media request env s)
      as (r & s1 & Hrun & Hzero & _).
    rewrite Hrun.
    specialize (IH s1 ltac:(lia)).
    destruct (serve media true calls s1) as [rs s2].
    constructor; [reflexivity | exact IH].
  - destruct (make_choice_effect media choice env s Hs)
      as (r & s1 & added & Hrun & Hmade & _).
    rewrite Hrun.
    specialize (IH s1 ltac:(lia)).
    destruct (serve media true calls s1) as [rs s2].
    constructor; [reflexivity | exact IH].
Qed.

(** X14. Through the boundary the story never runs into the unbound
    narrative of [continue_narrative]: with the agent available, every start
    and make-choice request of any sequence served from a fresh process is
    answered with a response, none with status 500. *)
Theorem served_story_requests_are_answered (media : bool)
    (calls : list BoundaryCall) :
  Forall (fun r => http_status r = 200)
    (fst (serve media true calls initial_game_state)).
Proof. apply serve_answers. reflexivity. Qed.

(** X15. The danger level a make-choice request leaves behind depends on
    the number of choices alone: from any state with a non-negative counter
    it is [min(10, 5 + 2 * choices before)], that is 5, 7, 9 and then 10,
    whatever the level was before and whatever the collaborators answer. *)
Theorem make_choice_sets_danger_from_count (media : bool) (choice : string)
    (env : ChoiceEnv) (s : GameState) :
  0 <= user_choices_made s ->
  current_danger_level (snd (make_choice media true choice env s))
  = Z.min 10 (5 + 2 * user_choices_made s).
Proof.
  intros Hcount.
  destruct (make_choice_effect media choice env s Hcount)
    as (r & s' & added & Hrun & _ & Hdanger & _).
  rewrite Hrun. exact Hdanger.
Qed.

Lemma make_choice_sets_danger_from_count_witness :
  let s1 := snd (serve true true (offline_adventure 1) initial_game_state) in
  0 <= user_choices_made s1
  /\ current_danger_level (snd (make_choice true true "B" online_choice s1))
     = 7.
Proof.
  intros s1.
  assert (user_choices_made s1 = 1) as Hone by (vm_compute; reflexivity).
  split; [lia|].
  rewrite make_choice_sets_danger_from_count by lia.
  rewrite Hone. reflexivity.
Defined.

(** The story counters are out of reach of the media operations. *)
Lemma generate_establishing_scene_frame (media : bool)
    (a b c d : string) (reply : ImageReply) (s : GameState) :
  let s' := snd (generate_establishing_scene media a b c d reply s) in
  story_history s' = story_history s
  /\ current_danger_level s' = current_danger_level s
  /\ user_choices_made s' = user_choices_made s.
Proof.
  unfold generate_establishing_scene.
  destruct (images (scene_media_count s) <? 1), media, reply;
    repeat split; reflexivity.
Qed.

Lemma generate_media_frame (media agent : bool)
    (media_type prompt tone : string) (env : MediaEnv) (s : GameState) :
  let s' := snd (generate_media media agent media_type prompt tone env s) in
  story_history s' = story_history s
  /\ current_danger_level s' = current_danger_level s
  /\ user_choices_made s' = user_choices_made s.
Proof.
  unfold generate_media, media_branch.
  destruct agent; cbn [negb]; [| repeat split; reflexivity].
  destruct (String.eqb media_type "image").
  { pose proof (generate_establishing_scene_frame media prompt tone
                  "cinematic quality" EmptyString (media_image_reply env) s)
      as Hframe.
    destruct (generate_establishing_scene media prompt tone
                "cinematic quality" EmptyString (media_image_reply env) s).
    exact Hframe. }
  destruct (String.eqb media_type "music"); [repeat split; reflexivity|].
  destruct (String.eqb media_type "video"); [| repeat split; reflexivity].
  assert (let s1 := snd (generate_direct_video (media_video_reply env) s) in
          story_history s1 = story_history s
          /\ current_danger_level s1 = current_danger_level s
          /\ user_choices_made s1 = user_choices_made s) as Hvideo
    by (destruct (media_video_reply env); repeat split; reflexivity).
  destruct (generate_direct_video (media_video_reply env) s) as [video s1].
  cbn [snd] in Hvideo. destruct Hvideo as (Hh & Hd & Hm).
  destruct (generated_videos s1).
  - pose proof (create_single_choice_image_frame media
                  ("cinematic moment: " +:+ prompt) "medium" prompt
                  (media_image_reply env) s1) as Hframe.
    destruct (create_single_choice_image media
                ("cinematic moment: " +:+ prompt) "medium" prompt
                (media_image_reply env) s1).
    cbn [snd] in *. destruct Hframe as (_ & _ & _ & Hh2 & Hd2 & Hm2).
    repeat split; congruence.
  - pose proof (generate_establishing_scene_frame media prompt tone
                  "cinematic sequence" EmptyString (media_image_reply env) s1)
      as Hframe.
    destruct (generate_establishing_scene media prompt tone
                "cinematic sequence" EmptyString (media_image_reply env) s1).
    cbn [snd] in *. destruct Hframe as (Hh2 & Hd2 & Hm2).
    repeat split; congruence.
Qed.

(** One request of any kind keeps the counter non-negative and the danger
    level between one and ten. *)
Lemma api_effect_keeps_range (media agent : bool) (call : ApiCall)
    (s : GameState) :
  0 <= user_choices_made s /\ 1 <= current_danger_level s <= 10 ->
  0 <= user_choices_made (api_effect media agent call s)
  /\ 1 <= current_danger_level (api_effect media agent call s) <= 10.
Proof.
  intros (Hcount & Hdanger).
  destruct call as [request env | choice env | kind prompt tone env | | scans];
    cbn [api_effect].
  - destruct agent; [| cbn; lia].
    destruct (start_story_effect media request env s)
      as (r & s' & Hrun & Hzero & Hkept & _).
    rewrite Hrun. cbn [snd]. lia.
  - destruct agent; [| cbn; lia].
    destruct (make_choice_effect media choice env s Hcount)
      as (r & s' & added & Hrun & Hmade & Hset & _).
    rewrite Hrun. cbn [snd]. lia.
  - destruct (generate_media_frame media agent kind prompt tone env s)
      as (_ & Hd & Hm).
    lia.
  - lia.
  - unfold get_media_files. destruct agent; cbn; lia.
Qed.

(** X16. Between requests the counters stay in range: after any sequence
    of requests to the start, make-choice, generate-media, story-status and
    media-files routes, served from a fresh process, the number of choices is
    not negative and the danger level lies between 1 and 10. *)
Theorem api_keeps_story_counters_in_range (media agent : bool)
    (calls : list ApiCall) :
  let s := api_run media agent calls initial_game_state in
  0 <= user_choices_made s /\ 1 <= current_danger_level s <= 10.
Proof.
  cbn zeta. unfold api_run.
  assert (0 <= user_choices_made initial_game_state
          /\ 1 <= current_danger_level initial_game_state <= 10) as Hinit
    by (cbn; lia).
  revert Hinit. generalize initial_game_state.
  induction calls as [|call calls IH]; intros s Hs; [exact Hs|].
  cbn [fold_left]. apply IH. apply api_effect_keeps_range. exact Hs.
Qed.

(** Make-choice requests never shorten the history. *)
Lemma serve_choices_history_grows (media : bool)
    (requests : list (string * ChoiceEnv)) (s : GameState) :
  0 <= user_choices_made s ->
  (length (story_history s)
   <= length (story_history
                (snd (serve media true
                        (map (fun q => MakeChoice (fst q) (snd q)) requests)
                        s))))%nat.
Proof.
  revert s.
  induction requests as [|q requests IH]; intros s Hs; [cbn; lia|].
  cbn [map serve handle].
  destruct (make_choice_effect media (fst q) (snd q) s Hs)
    as (r & s1 & added & Hrun & Hmade & _ & Hhist & _).
  rewrite Hrun.
  specialize (IH s1 ltac:(lia)).
  destruct (serve media true
              (map (fun q => MakeChoice (fst q) (snd q)) requests) s1)
    as [rs s2].
  cbn [snd] in *. rewrite Hhist, length_app in IH. lia.
Qed.

(** X17. The stage reported by [get_story_status] runs ahead of the story:
    after a start request it is "beginning", after the first choice it is
    "middle", and from the second choice on it is "climax", although the
    climax itself is only reached with the fifth choice. *)
Theorem story_stage_after_choices (media : bool) (request : string)
    (start_env : StartEnv) (requests : list (string * ChoiceEnv))
    (s : GameState) :
  story_stage
    (get_story_status
       (snd (serve media true
               (StartStory request start_env
                :: map (fun q => MakeChoice (fst q) (snd q)) requests) s)))
  = match requests with
    | [] => "beginning"
    | [_] => "middle"
    | _ :: _ :: _ => "climax"
    end.
Proof.
  cbn [serve handle get_story_status story_stage].
  destruct (start_story_effect media request start_env s)
    as (r0 & s0 & Hstart & Hzero & _ & Hlen0 & _).
  rewrite Hstart.
  destruct requests as [|q1 [|q2 requests]].
  - cbn. rewrite Hlen0. reflexivity.
  - cbn [map serve handle].
    destruct (make_choice_effect media (fst q1) (snd q1) s0 ltac:(lia))
      as (r1 & s1 & added1 & Hrun1 & _ & _ & Hhist1 & Hthree1 & _).
    rewrite Hrun1. cbn [snd].
    rewrite Hhist1, length_app, Hlen0, Hthree1 by lia. reflexivity.
  - cbn [map serve handle].
    destruct (make_choice_effect media (fst q1) (snd q1) s0 ltac:(lia))
      as (r1 & s1 & added1 & Hrun1 & Hmade1 & _ & Hhist1 & Hthree1 & _).
    rewrite Hrun1.
    destruct (make_choice_effect media (fst q2) (snd q2) s1 ltac:(lia))
      as (r2 & s2 & added2 & Hrun2 & Hmade2 & _ & Hhist2 & Hthree2 & _).
    rewrite Hrun2.
    pose proof (serve_choices_history_grows media requests s2 ltac:(lia))
      as Hgrow.
    destruct (serve media true
                (map (fun q => MakeChoice (fst q) (snd q)) requests) s2)
      as [rs s3].
    cbn [snd] in *.
    rewrite Hhist2, Hhist1, !length_app, Hlen0, Hthree1, Hthree2 in Hgrow
      by lia.
    unfold stage_label.
    destruct (Nat.ltb_spec (length (story_history s3)) 3); [lia|].
    destruct (Nat.ltb_spec (length (story_history s3)) 8); [lia|].
    reflexivity.
Qed.

(** The continuation ladder assigns the scene and the characters only. *)
Lemma advance_story_frame (choices_made : Z) (s : GameState) :
  let s' := fst (advance_story choices_made s) in
  story_history s' = story_history s
  /\ generated_images s' = generated_images s
  /\ generated_videos s' = generated_videos s
  /\ scene_media_count s' = scene_media_count s
  /\ visual_style s' = visual_style s.
Proof.
  unfold advance_story, advance_story_with.
  destruct (choices_made =? 1); [|destruct (choices_made =? 2);
    [|destruct (choices_made =? 3); [|destruct (choices_made =? 4)]]];
    try (destruct (py_in "cyberpunk" (lower (current_scene s)));
         [| destruct (py_in "atlantis" (lower (current_scene s)));
            [| destruct (py_in "forest" (lower (current_scene s)))]]);
    repeat split; reflexivity.
Qed.

(** Whether it returns or raises, [continue_narrative] keeps what the
    history holds and leaves the media fields alone. *)
Lemma continue_narrative_frame (s : GameState) :
  let s' := snd (continue_narrative s) in
  story_history s `prefix_of` story_history s'
  /\ generated_images s' = generated_images s
  /\ generated_videos s' = generated_videos s
  /\ scene_media_count s' = scene_media_count s
  /\ visual_style s' = visual_style s.
Proof.
  unfold continue_narrative, continue_narrative_with.
  change (advance_story_with lower ?n ?st) with (advance_story n st).
  pose proof (advance_story_frame (user_choices_made s) s) as Hframe.
  destruct (advance_story (user_choices_made s) s) as [s1 [text|]];
    cbn [fst] in Hframe;
    destruct Hframe as (Hhist & Himages & Hvideos & Hcount & Hstyle);
    cbn; rewrite Hhist; repeat split; try assumption.
  - apply prefix_app_r. reflexivity.
  - reflexivity.
Qed.

(** X18. What the history holds is never altered or removed by a request
    other than a start: after a make-choice, generate-media, story-status or
    media-files request, in any state and with or without the agent, the
    earlier history is a prefix of the new one. *)
Theorem history_is_append_only (media agent : bool) (call : ApiCall)
    (s : GameState) :
  match call with
  | PostStartStory _ _ => True
  | _ => story_history s `prefix_of` story_history (api_effect media agent call s)
  end.
Proof.
  destruct call as [request env | choice env | kind prompt tone env | | scans];
    cbn [api_effect]; [exact I | | | reflexivity |].
  - unfold make_choice.
    destruct agent; cbn [negb]; [| reflexivity].
    pose proof (resolve_user_choice_effect media choice (narrative_reply env)
                  (outcome_image_reply env) s) as Hresolve.
    destruct (resolve_user_choice media choice (narrative_reply env)
                (outcome_image_reply env) s) as [res s1].
    destruct Hresolve as (_ & _ & _ & _ & _ & e1 & Hhist1 & _).
    assert (story_history s `prefix_of` story_history s1) as Hfirst
      by (rewrite Hhist1; apply prefix_app_r; reflexivity).
    destruct (resolved_choices_made res <? 5).
    + pose proof (continue_narrative_frame s1) as Hcont.
      destruct (continue_narrative s1) as [[cont|exc] s2];
        cbn [snd] in *; destruct Hcont as (Hprefix & _).
      * destruct (present_story_choice_effect EmptyString EmptyString
                    EmptyString EmptyString (next_choices_reply env) s2)
          as (pres & e3 & Hpres & _).
        rewrite Hpres. cbn.
        etrans; [exact Hfirst|]. etrans; [exact Hprefix|].
        apply prefix_app_r. reflexivity.
      * etrans; [exact Hfirst | exact Hprefix].
    + pose proof (create_story_climax_effect media choice
                    (climax_video_reply env) (climax_image_reply env) s1)
        as Hclimax.
      destruct (create_story_climax media choice (climax_video_reply env)
                  (climax_image_reply env) s1) as [climax s2].
      destruct Hclimax as (_ & _ & _ & _ & e2 & Hhist2 & _).
      cbn [snd]. rewrite Hhist2.
      etrans; [exact Hfirst|]. apply prefix_app_r. reflexivity.
  - destruct (generate_media_frame media agent kind prompt tone env s)
      as (Hhist & _).
    rewrite Hhist. reflexivity.
  - unfold get_media_files. destruct agent; reflexivity.
Qed.

(** ** Without media generation *)

Lemma handle_media_off (agent : bool) (call : BoundaryCall) (s : GameState) :
  let s' := snd (handle false agent call s) in
  generated_images s' = generated_images s
  /\ generated_videos s' = generated_videos s
  /\ character_references (visual_style s')
     = character_references (visual_style s)
  /\ location_references (visual_style s')
     = location_references (visual_style s).
Proof.
  destruct agent; [| destruct call; repeat split; reflexivity].
  destruct call as [request env | choice env]; cbn [handle].
  - unfold start_story, begin_opening_scene, generate_establishing_scene,
      start_new_adventure, start_new_adventure_with.
    cbn [negb]. destruct (select_scenario_with lower request) as [kind template].
    cbn.
    match goal with
    | |- context [present_story_choice ?a ?b ?c ?d ?t ?st] =>
        destruct (present_story_choice_effect a b c d t st)
          as (pres & e & Hpres & _); rewrite Hpres
    end.
    repeat split; reflexivity.
  - unfold make_choice, resolve_user_choice, create_dramatic_outcome,
      create_single_choice_image.
    cbn.
    match goal with
    | |- context [if ?made <? 5 then _ else _] => destruct (made <? 5)
    end.
    + match goal with
      | |- context [continue_narrative ?st] =>
          pose proof (continue_narrative_frame st) as Hcont;
          destruct (continue_narrative st) as [[cont|exc] s2]
      end;
        cbn [snd] in Hcont;
        destruct Hcont as (_ & Himages & Hvideos & _ & Hstyle).
      * destruct (present_story_choice_effect EmptyString EmptyString
                    EmptyString EmptyString (next_choices_reply env) s2)
          as (pres & e3 & Hpres & _).
        rewrite Hpres. cbn. rewrite Himages, Hvideos, Hstyle.
        repeat split; reflexivity.
      * cbn. rewrite Himages, Hvideos, Hstyle. repeat split; reflexivity.
    + unfold create_story_climax, create_epic_climax_video,
        create_single_choice_image.
      cbn.
      destruct (last (generated_images s)); repeat split; reflexivity.
Qed.

(** X19. With media generation unavailable the story handlers never record
    a file: after any sequence of start and make-choice requests the lists
    of generated images and videos and the stored character and location
    references are what they were, whatever the collaborators are said to
    answer. *)
Theorem story_without_media_records_nothing (agent : bool)
    (calls : list BoundaryCall) (s : GameState) :
  let s' := snd (serve false agent calls s) in
  generated_images s' = generated_images s
  /\ generated_videos s' = generated_videos s
  /\ character_references (visual_style s')
     = character_references (visual_style s)
  /\ location_references (visual_style s')
     = location_references (visual_style s).
Proof.
  revert s.
  induction calls as [|call calls IH]; intros s;
    [repeat split; reflexivity|].
  cbn [serve].
  pose proof (handle_media_off agent call s) as Hstep.
  destruct (handle false agent call s) as [r s1].
  specialize (IH s1).
  destruct (serve false agent calls s1) as [rs s2].
  cbn [snd] in *.
  destruct Hstep as (H1 & H2 & H3 & H4), IH as (I1 & I2 & I3 & I4).
  repeat split; congruence.
Qed.

(** ** The generate-media handler *)

(** X20. A request for a media type other than "image", "music" and "video"
    is answered with status 500, not 400: the exception carrying status 400
    is raised inside the handler's own [try] block and wrapped by its
    [except]. The state is not touched. *)
Theorem generate_media_unknown_type_is_server_error (media : bool)
    (media_type prompt tone : string) (env : MediaEnv) (s : GameState) :
  media_type <> "image" ->
  media_type <> "music" ->
  media_type <> "video" ->
  generate_media media true media_type prompt tone env s = (ApiError 500, s).
Proof.
  intros Himage Hmusic Hvideo.
  unfold generate_media, media_branch. cbn [negb].
  apply String.eqb_neq in Himage, Hmusic, Hvideo.
  rewrite Himage, Hmusic, Hvideo. reflexivity.
Qed.

Lemma generate_media_unknown_type_witness :
  generate_media true true "audio" "a storm" "tense"
    (mkMediaEnv ImageRaised DirectVideoRaised) initial_game_state
  = (ApiError 500, initial_game_state).
Proof.
  apply generate_media_unknown_type_is_server_error; discriminate.
Defined.

Lemma generate_establishing_scene_keeps_videos (media : bool)
    (a b c d : string) (reply : ImageReply) (s : GameState) :
  let s' := snd (generate_establishing_scene media a b c d reply s) in
  generated_videos s' = generated_videos s
  /\ videos (scene_media_count s') = videos (scene_media_count s).
Proof.
  unfold generate_establishing_scene.
  destruct (images (scene_media_count s) <? 1), media, reply;
    split; reflexivity.
Qed.

(** X21. A video request never reports a video. Whether or not the video
    provider delivers, the answer is a success whose file list is
    [generated_images]: its [generated_file] is the newest image, if any.
    A delivered video is recorded in the state all the same, and then the
    result is that of the scene fallback. *)
Theorem generate_media_video_reports_images (media : bool)
    (prompt tone : string) (env : MediaEnv) (s : GameState) :
  exists r s',
    generate_media media true "video" prompt tone env s = (ApiOk r, s')
    /\ media_generated_file r = last (generated_images s')
    /\ media_total_files r = Z.of_nat (length (generated_images s'))
    /\ (forall timestamp,
          media_video_reply env = DirectVideoSaved timestamp ->
          generated_videos s'
          = (generated_videos s
             ++ ["generated_video_direct_" +:+ timestamp +:+ ".mp4"])%list
          /\ videos (scene_media_count s') = videos (scene_media_count s) + 1
          /\ exists scene,
               media_result r
               = ScenePayload scene (Some "fallback_scene_generation")).
Proof.
  unfold generate_media, media_branch. cbn [negb String.eqb Ascii.eqb
    Bool.eqb].
  destruct (media_video_reply env) as [| | |saved] eqn:Hreply.
  1-3: cbn [generate_direct_video];
    destruct (generated_videos s) eqn:Hvideos;
    [ destruct (create_single_choice_image media
                 ("cinematic moment: " +:+ prompt) "medium" prompt
                 (media_image_reply env) s) as [img s2]
    | destruct (generate_establishing_scene media prompt tone
                 "cinematic sequence" EmptyString (media_image_reply env) s)
        as [scene s2] ];
    do 2 eexists; (split; [reflexivity|]);
    (split; [reflexivity|]); (split; [reflexivity|]);
    intros timestamp Hsaved; discriminate Hsaved.
  cbn [generate_direct_video].
  destruct (generated_videos
              (bump_videos
                 (set_generated_videos
                    (generated_videos s
                     ++ ["generated_video_direct_" +:+ saved +:+ ".mp4"]) s)))
    as [|first rest] eqn:Hvideos.
  { cbn in Hvideos. destruct (generated_videos s); discriminate Hvideos. }
  pose proof (generate_establishing_scene_keeps_videos media prompt
                tone "cinematic sequence" EmptyString (media_image_reply env)
                (bump_videos
                   (set_generated_videos
                      (generated_videos s
                       ++ ["generated_video_direct_" +:+ saved +:+ ".mp4"])
                      s))) as Hframe.
  destruct (generate_establishing_scene media prompt tone
              "cinematic sequence" EmptyString (media_image_reply env) _)
    as [scene s2].
  cbn [snd] in Hframe. destruct Hframe as (Hlist & Hcount).
  do 2 eexists. split; [reflexivity|].
  split; [reflexivity|]. split; [reflexivity|].
  intros timestamp Hsaved. injection Hsaved as <-.
  rewrite Hlist, Hcount.
  split; [reflexivity|]. split; [reflexivity|].
  eexists. reflexivity.
Qed.

Lemma generate_media_video_reports_images_witness :
  let answer :=
    generate_media true true "video" "a storm" "tense"
      (mkMediaEnv ImageNoneGenerated (DirectVideoSaved "20250101_160000"))
      initial_game_state in
  generated_videos (snd answer)
  = ["generated_video_direct_20250101_160000.mp4"]
  /\ exists r, fst answer = ApiOk r /\ media_generated_file r = None.
Proof.
  intros answer.
  destruct (generate_media_video_reports_images true "a storm" "tense"
              (mkMediaEnv ImageNoneGenerated
                 (DirectVideoSaved "20250101_160000")) initial_game_state)
    as (r & s' & Hrun & Hfile & _ & Hsaved).
  destruct (Hsaved "20250101_160000" eq_refl) as (Hvideos & _).
  subst answer. rewrite Hrun. cbn [fst snd].
  split; [rewrite Hvideos; reflexivity|].
  exists r. split; [reflexivity|].
  rewrite Hfile.
  assert (s' = snd (generate_media true true "video" "a storm" "tense"
                      (mkMediaEnv ImageNoneGenerated
                         (DirectVideoSaved "20250101_160000"))
                      initial_game_state)) as -> by (rewrite Hrun; reflexivity).
  vm_compute. reflexivity.
Defined.

(** X22. An image request that comes after the one image of the budget
    generates nothing and still announces a file: the state is unchanged,
    the scene is prompt only, and the success answer names the newest file
    of the images recorded earlier as its [generated_file]. *)
Theorem generate_media_image_after_budget_reports_old_file (media : bool)
    (prompt tone : string) (env : MediaEnv) (s : GameState) :
  1 <= images (scene_media_count s) ->
  exists r scene,
    generate_media media true "image" prompt tone env s = (ApiOk r, s)
    /\ media_status r = "success"
    /\ media_result r = ScenePayload scene None
    /\ scene_generated_file scene = None
    /\ media_generated_file r = last (generated_images s).
Proof.
  intros Hused.
  unfold generate_media, media_branch.
  cbn [negb String.eqb Ascii.eqb Bool.eqb].
  unfold generate_establishing_scene.
  destruct (Z.ltb_spec (images (scene_media_count s)) 1) as [Hfree|_];
    [lia|].
  cbn [andb].
  do 2 eexists. split; [reflexivity|].
  repeat split; reflexivity.
Qed.

Lemma generate_media_image_after_budget_witness :
  let opened :=
    snd (serve true true [StartStory "a dragon quest" online_start]
           initial_game_state) in
  exists r,
    generate_media true true "image" "A tower" "tense"
      (mkMediaEnv (ImageSaved "20250101_170000") DirectVideoRaised) opened
    = (ApiOk r, opened)
    /\ media_generated_file r = Some "generated_scene_20250101_120000.png".
Proof.
  intros opened.
  assert (1 <= images (scene_media_count opened)) as Hused
    by (vm_compute; discriminate).
  destruct (generate_media_image_after_budget_reports_old_file true "A tower"
              "tense"
              (mkMediaEnv (ImageSaved "20250101_170000") DirectVideoRaised)
              opened Hused) as (r & scene & Hrun & _ & _ & _ & Hfile).
  exists r. split; [exact Hrun|].
  rewrite Hfile. vm_compute. reflexivity.
Defined.

Lemma last_five_facts (files : list string) :
  length (last_five files) = Nat.min 5 (length files)
  /\ last (last_five files) = last files
  /\ last_five files `suffix_of` files.
Proof.
  unfold last_five.
  destruct (Nat.ltb_spec 5 (length files)) as [Hlong|Hshort].
  - rewrite length_drop.
    split; [lia|]. split; [| apply suffix_drop].
    rewrite !last_lookup, lookup_drop, length_drop. f_equal. lia.
  - split; [lia|]. split; reflexivity.
Qed.

(** X23. Every success answer of [generate_media] lists at most five
    files: [all_files] has [min(5, total_files)] entries and ends with the
    file named as [generated_file]; a URL is given exactly for a non-empty
    file name and is that name under "/api/media/". *)
Theorem generate_media_lists_last_five (media agent : bool)
    (media_type prompt tone : string) (env : MediaEnv) (s s' : GameState)
    (r : MediaResponse) :
  generate_media media agent media_type prompt tone env s = (ApiOk r, s') ->
  length (media_all_files r) = Nat.min 5 (Z.to_nat (media_total_files r))
  /\ last (media_all_files r) = media_generated_file r
  /\ media_url r
     = match media_generated_file r with
       | Some file =>
           if truthy file then Some ("/api/media/" +:+ file) else None
       | None => None
       end.
Proof.
  unfold generate_media.
  destruct agent; cbn [negb]; [| discriminate].
  destruct (media_branch media media_type prompt tone env s)
    as [[[payload files] s1]|]; [| discriminate].
  intros Hrun. injection Hrun as <- <-. cbn.
  destruct (last_five_facts files) as (Hlen & Hlast & _).
  rewrite Nat2Z.id.
  repeat split; assumption || reflexivity.
Qed.

Lemma generate_media_lists_last_five_witness :
  exists r s',
    generate_media true true "music" "a storm" "tense"
      (mkMediaEnv ImageRaised DirectVideoRaised)
      (set_generated_music ["a.wav"; "b.wav"; "c.wav"; "d.wav"; "e.wav";
                            "f.wav"] initial_game_state)
    = (ApiOk r, s')
    /\ length (media_all_files r) = 5%nat
    /\ last (media_all_files r) = Some "f.wav".
Proof.
  do 2 eexists.
  split; [reflexivity|].
  match goal with
  | |- length (media_all_files ?r) = _ /\ _ =>
      destruct (generate_media_lists_last_five true true "music" "a storm"
                  "tense" (mkMediaEnv ImageRaised DirectVideoRaised)
                  (set_generated_music
                     ["a.wav"; "b.wav"; "c.wav"; "d.wav"; "e.wav"; "f.wav"]
                     initial_game_state) _ r eq_refl) as (Hlen & Hlast & _)
  end.
  split; [exact Hlen | exact Hlast].
Defined.

(** ** The media-files handler *)

Lemma add_missing_facts (found listed : list string) :
  listed `prefix_of` add_missing found listed
  /\ (forall name, name ∈ found -> name ∈ add_missing found listed)
  /\ (NoDup listed -> NoDup (add_missing found listed)).
Proof.
  unfold add_missing. revert listed.
  induction found as [|name found IH]; intros listed; cbn [fold_left].
  - split; [reflexivity|]. split; [| tauto].
    intros name Hin. inversion Hin.
  - destruct (IH (if bool_decide (name ∈ listed) then listed
                  else (listed ++ [name])%list)) as (Hprefix & Hin & Hnodup).
    case_bool_decide as Hlisted.
    + split; [exact Hprefix|]. split; [| exact Hnodup].
      intros other Hother. apply elem_of_cons in Hother as [->|Hother].
      * eapply elem_of_prefix; [exact Hlisted | exact Hprefix].
      * apply Hin. exact Hother.
    + split; [etrans; [apply prefix_app_r; reflexivity | exact Hprefix]|].
      split.
      * intros other Hother. apply elem_of_cons in Hother as [->|Hother].
        -- eapply elem_of_prefix; [| exact Hprefix].
           apply elem_of_app. right. apply list_elem_of_singleton.
           reflexivity.
        -- apply Hin. exact Hother.
      * intros Hnd. apply Hnodup. apply NoDup_app.
        split; [exact Hnd|]. split; [| apply NoDup_singleton].
        intros other Hother Hsingle.
        apply list_elem_of_singleton in Hsingle as ->. contradiction.
Qed.

(** A scan that finds nothing new changes nothing. *)
Lemma add_missing_known (found listed : list string) :
  (forall name, name ∈ found -> name ∈ listed) ->
  add_missing found listed = listed.
Proof.
  unfold add_missing.
  induction found as [|name found IH]; intros Hknown; [reflexivity|].
  cbn [fold_left].
  rewrite bool_decide_eq_true_2 by (apply Hknown; left).
  apply IH. intros other Hother. apply Hknown. right. exact Hother.
Qed.

(** One of the three lists through all directories: [pick] selects the
    names found for it in a directory. *)
Lemma scans_facts (pick : DirectoryScan -> list string)
    (scans : list DirectoryScan) (listed : list string) :
  let final :=
    fold_left (fun listed scan => add_missing (pick scan) listed) scans
      listed in
  listed `prefix_of` final
  /\ (forall scan name, scan ∈ scans -> name ∈ pick scan -> name ∈ final)
  /\ (NoDup listed -> NoDup final).
Proof.
  revert listed.
  induction scans as [|scan scans IH]; intros listed; cbn [fold_left].
  - split; [reflexivity|]. split; [| tauto].
    intros scan name Hin. inversion Hin.
  - destruct (add_missing_facts (pick scan) listed)
      as (Hprefix1 & Hin1 & Hnodup1).
    destruct (IH (add_missing (pick scan) listed))
      as (Hprefix & Hin & Hnodup).
    split; [etrans; eassumption|]. split; [| tauto].
    intros other name Hother Hname.
    apply elem_of_cons in Hother as [->|Hother].
    + eapply elem_of_prefix; [apply Hin1; exact Hname | exact Hprefix].
    + eapply Hin; eassumption.
Qed.

Lemma scans_known (pick : DirectoryScan -> list string)
    (scans : list DirectoryScan) (listed : list string) :
  (forall scan name, scan ∈ scans -> name ∈ pick scan -> name ∈ listed) ->
  fold_left (fun listed scan => add_missing (pick scan) listed) scans listed
  = listed.
Proof.
  induction scans as [|scan scans IH]; intros Hknown; [reflexivity|].
  cbn [fold_left].
  rewrite add_missing_known by (intros name; apply Hknown; left).
  apply IH. intros other name Hother. apply Hknown. right. exact Hother.
Qed.

(** The three lists of the dictionary are scanned independently. *)
Lemma get_media_files_lists (agent : bool) (scans : list DirectoryScan)
    (s : GameState) :
  let start :=
    if agent
    then mkMediaFiles (generated_images s) (generated_videos s)
           (generated_music s)
    else mkMediaFiles [] [] [] in
  let files := fst (get_media_files agent scans s) in
  files_images files
  = fold_left (fun listed scan => add_missing (scanned_images scan) listed)
      scans (files_images start)
  /\ files_videos files
     = fold_left (fun listed scan => add_missing (scanned_videos scan) listed)
         scans (files_videos start)
  /\ files_music files
     = fold_left (fun listed scan => add_missing (scanned_music scan) listed)
         scans (files_music start).
Proof.
  unfold get_media_files. cbn [fst].
  generalize (if agent
              then mkMediaFiles (generated_images s) (generated_videos s)
                     (generated_music s)
              else mkMediaFiles [] [] []).
  induction scans as [|scan scans IH]; intros start;
    [repeat split; reflexivity|].
  cbn [fold_left].
  exact (IH (mkMediaFiles
               (add_missing (scanned_images scan) (files_images start))
               (add_missing (scanned_videos scan) (files_videos start))
               (add_missing (scanned_music scan) (files_music start)))).
Qed.

(** X24. The media-files listing writes into the game state. With the
    agent available the lists returned are the lists of the state itself,
    extended in place: afterwards the state holds exactly the returned
    lists; each of the three begins with what the state held before and
    contains every name the scan found for it, and each one that had no
    duplicates has none afterwards. *)
Theorem get_media_files_extends_state_lists (scans : list DirectoryScan)
    (s : GameState) :
  let '(files, s') := get_media_files true scans s in
  generated_images s' = files_images files
  /\ generated_videos s' = files_videos files
  /\ generated_music s' = files_music files
  /\ generated_images s `prefix_of` generated_images s'
  /\ generated_videos s `prefix_of` generated_videos s'
  /\ generated_music s `prefix_of` generated_music s'
  /\ (forall scan name,
        scan ∈ scans -> name ∈ scanned_images scan ->
        name ∈ generated_images s')
  /\ (forall scan name,
        scan ∈ scans -> name ∈ scanned_videos scan ->
        name ∈ generated_videos s')
  /\ (forall scan name,
        scan ∈ scans -> name ∈ scanned_music scan ->
        name ∈ generated_music s')
  /\ (NoDup (generated_images s) -> NoDup (generated_images s'))
  /\ (NoDup (generated_videos s) -> NoDup (generated_videos s'))
  /\ (NoDup (generated_music s) -> NoDup (generated_music s')).
Proof.
  pose proof (get_media_files_lists true scans s) as Hlists.
  destruct (get_media_files true scans s) as [files s'] eqn:Hrun.
  assert (s' = set_generated_music (files_music files)
                 (set_generated_videos (files_videos files)
                    (set_generated_images (files_images files) s))) as ->.
  { unfold get_media_files in Hrun. injection Hrun as <- <-. reflexivity. }
  cbn in Hlists |- *. destruct Hlists as (Himages & Hvideos & Hmusic).
  rewrite Himages, Hvideos, Hmusic.
  destruct (scans_facts scanned_images scans (generated_images s))
    as (Hp1 & Hin1 & Hnd1).
  destruct (scans_facts scanned_videos scans (generated_videos s))
    as (Hp2 & Hin2 & Hnd2).
  destruct (scans_facts scanned_music scans (generated_music s))
    as (Hp3 & Hin3 & Hnd3).
  do 6 (split; [reflexivity || assumption|]).
  do 5 (split; [assumption|]). assumption.
Qed.

(** X25. Listing the media files twice adds nothing the second time: a
    repeated request with the same directory contents returns the same lists
    and leaves the state it found. *)
Theorem get_media_files_is_idempotent (scans : list DirectoryScan)
    (s : GameState) :
  let '(files, s1) := get_media_files true scans s in
  get_media_files true scans s1 = (files, s1).
Proof.
  pose proof (get_media_files_lists true scans s) as Hlists.
  destruct (get_media_files true scans s) as [files s1] eqn:Hrun.
  assert (s1 = set_generated_music (files_music files)
                 (set_generated_videos (files_videos files)
                    (set_generated_images (files_images files) s))) as Hs1.
  { unfold get_media_files in Hrun. injection Hrun as <- <-. reflexivity. }
  cbn in Hlists. destruct Hlists as (Himages & Hvideos & Hmusic).
  pose proof (get_media_files_lists true scans s1) as Hagain.
  destruct (get_media_files true scans s1) as [files2 s2] eqn:Hrun2.
  assert (s2 = set_generated_music (files_music files2)
                 (set_generated_videos (files_videos files2)
                    (set_generated_images (files_images files2) s1))) as ->.
  { unfold get_media_files in Hrun2. injection Hrun2 as <- <-. reflexivity. }
  cbn [fst files_images files_videos files_music] in Hagain.
  destruct Hagain as (Himages2 & Hvideos2 & Hmusic2).
  assert (generated_images s1 = files_images files
          /\ generated_videos s1 = files_videos files
          /\ generated_music s1 = files_music files) as (Hi & Hv & Hm)
    by (rewrite Hs1; repeat split; reflexivity).
  rewrite Hi in Himages2. rewrite Hv in Hvideos2. rewrite Hm in Hmusic2.
  rewrite scans_known in Himages2
    by (intros scan name Hscan Hname; rewrite Himages;
        eapply (scans_facts scanned_images); eassumption).
  rewrite scans_known in Hvideos2
    by (intros scan name Hscan Hname; rewrite Hvideos;
        eapply (scans_facts scanned_videos); eassumption).
  rewrite scans_known in Hmusic2
    by (intros scan name Hscan Hname; rewrite Hmusic;
        eapply (scans_facts scanned_music); eassumption).
  destruct files as [fi fv fm], files2 as [gi gv gm].
  cbn [files_images files_videos files_music] in *. subst gi gv gm.
  f_equal. rewrite Hs1. reflexivity.
Qed.

Lemma get_media_files_extends_state_lists_witness :
  let s' :=
    snd (get_media_files true
           [mkDirectoryScan ["old.png"; "generated_scene_1.png"]
              ["clip.mp4"] [];
            mkDirectoryScan ["old.png"] [] ["theme.wav"]]
           (set_generated_images ["generated_scene_1.png"]
              initial_game_state)) in
  generated_images s' = ["generated_scene_1.png"; "old.png"]
  /\ "clip.mp4" ∈ generated_videos s'
  /\ "theme.wav" ∈ generated_music s'.
Proof.
  intros s'. subst s'.
  pose proof (get_media_files_extends_state_lists
                [mkDirectoryScan ["old.png"; "generated_scene_1.png"]
                   ["clip.mp4"] [];
                 mkDirectoryScan ["old.png"] [] ["theme.wav"]]
                (set_generated_images ["generated_scene_1.png"]
                   initial_game_state)) as Hlists.
  destruct (get_media_files true _ _) as [files s'] eqn:Hrun.
  destruct Hlists as (Himages & _ & _ & _ & _ & _ & _ & Hvideos & Hmusic & _).
  cbn [snd].
  split; [| split].
  - rewrite Himages.
    replace files with
      (fst (get_media_files true
              [mkDirectoryScan ["old.png"; "generated_scene_1.png"]
                 ["clip.mp4"] [];
               mkDirectoryScan ["old.png"] [] ["theme.wav"]]
              (set_generated_images ["generated_scene_1.png"]
                 initial_game_state)))
      by (rewrite Hrun; reflexivity).
    vm_compute. reflexivity.
  - apply (Hvideos (mkDirectoryScan ["old.png"; "generated_scene_1.png"]
                      ["clip.mp4"] [])); [left | left].
  - apply (Hmusic (mkDirectoryScan ["old.png"] [] ["theme.wav"]));
      [right; left | left].
Defined.

(** ** Start and first resolution at the boundary *)

(** X26. A start request begins the adventure but does not reset the
    danger level: with the agent available and from any state, it answers,
    leaves the choice counter at zero, a history of exactly one opening scene
    followed by one choice moment, an image count of zero or one, and the
    danger level of the state it started from. *)
Theorem start_story_begins_adventure (media : bool) (request : string)
    (env : StartEnv) (s : GameState) :
  exists r s',
    start_story media true request env s = (HttpOk r, s')
    /\ user_choices_made s' = 0
    /\ map event_type (story_history s') = ["opening_scene"; "choice_moment"]
    /\ 0 <= images (scene_media_count s') <= 1
    /\ current_danger_level s' = current_danger_level s
    /\ scene_description r = current_scene s'
    /\ choices_remaining r = 5.
Proof.
  unfold start_story, begin_opening_scene, generate_establishing_scene,
    start_new_adventure, start_new_adventure_with.
  cbn [negb].
  destruct (select_scenario_with lower request) as [kind template].
  cbn.
  destruct media, (opening_image_reply env); cbn;
    match goal with
    | |- context [present_story_choice ?a ?b ?c ?d ?t ?st] =>
        destruct (present_story_choice_effect a b c d t st)
          as (pres & e & Hpres & Htype); rewrite Hpres
    end;
    do 2 eexists; (split; [reflexivity|]); cbn; rewrite Htype;
    repeat split; try reflexivity; lia.
Qed.

(** X27. The fallback sentence is used on failure only. When the text
    collaborator answers, the make-choice handler passes its text on
    verbatim as the narrative of the answer and as the first progression
    entry, and an empty answer gives an empty narrative. *)
Theorem make_choice_passes_narrative_verbatim (media : bool)
    (choice text : string) (env : ChoiceEnv) (s : GameState) :
  0 <= user_choices_made s ->
  narrative_reply env = TextResponse (Some text) ->
  exists r,
    fst (make_choice media true choice env s) = HttpOk r
    /\ response_narrative r = text
    /\ head (story_progression r)
       = Some {| entry_type := "choice_result"; entry_content := text |}
    /\ truthy (response_narrative r) = truthy text.
Proof.
  intros Hcount Hreply.
  destruct (make_choice_effect media choice env s Hcount)
    as (r & s' & added & Hrun & _).
  exists r. rewrite Hrun. split; [reflexivity|].
  revert Hrun. unfold make_choice. cbn [negb].
  assert (resolved_narrative
            (fst (resolve_user_choice media choice (narrative_reply env)
                    (outcome_image_reply env) s)) = text) as Htext.
  { unfold resolve_user_choice. rewrite Hreply. cbn [narrative_of_reply].
    destruct (create_dramatic_outcome media ("chosen action: " +:+ choice)
                "moderate" (current_scene s) (outcome_image_reply env) s).
    reflexivity. }
  destruct (resolve_user_choice media choice (narrative_reply env)
              (outcome_image_reply env) s) as [res s1].
  cbn [fst] in Htext.
  destruct (resolved_choices_made res <? 5).
  - destruct (continue_narrative s1) as [[cont|exc] s2]; [| discriminate].
    destruct (present_story_choice EmptyString EmptyString EmptyString
                EmptyString (next_choices_reply env) s2) as [pres s3].
    intros Hrun. injection Hrun as <- <-. cbn. rewrite Htext.
    destruct (truthy (narrative cont)); repeat split; reflexivity.
  - destruct (create_story_climax media choice (climax_video_reply env)
                (climax_image_reply env) s1) as [climax s2].
    intros Hrun. injection Hrun as <- <-. cbn. rewrite Htext.
    repeat split; reflexivity.
Qed.

Lemma make_choice_passes_narrative_verbatim_witness :
  exists r,
    fst (make_choice true true "A"
           (mkChoiceEnv (TextResponse (Some EmptyString)) ImageRaised
              TextRaised VideoRaised ImageRaised) initial_game_state)
    = HttpOk r
    /\ response_narrative r = EmptyString.
Proof.
  destruct (make_choice_passes_narrative_verbatim true "A" EmptyString
              (mkChoiceEnv (TextResponse (Some EmptyString)) ImageRaised
                 TextRaised VideoRaised ImageRaised) initial_game_state)
    as (r & Hrun & Htext & _); [cbn; lia | reflexivity |].
  exists r. split; [exact Hrun | exact Htext].
Defined.

(** ** The named characters of the continuation ladder *)

(** Prefixing a scene that names no keyword family with the words of the
    generic first continuation does not create a keyword. *)
Lemma deeper_part_names_no_family (scene : string) :
  scene_family scene = GenericScene ->
  scene_family ("A deeper, more dangerous part of " +:+ scene) = GenericScene.
Proof.
  unfold scene_family, scene_family_with.
  rewrite lower_ascii_app by reflexivity.
  generalize (lower scene). intros lowered.
  assert (forall keyword,
            keyword = "cyberpunk" \/ keyword = "atlantis"
            \/ keyword = "forest" ->
            py_in keyword
              (lower "A deeper, more dangerous part of " +:+ lowered)
            = py_in keyword lowered) as Hsame.
  { intros keyword [-> | [-> | ->]]; vm_compute; reflexivity. }
  rewrite !Hsame by tauto.
  trivial.
Qed.

(** Whatever the scene was, the scene chosen after the first choice names
    no keyword family. *)
Lemma first_continuation_is_generic (scene : string) :
  scene_family (next_scene (scene_family scene) 1 scene) = GenericScene.
Proof.
  destruct (scene_family scene) eqn:Hfamily; try reflexivity.
  cbn [next_scene]. apply deeper_part_names_no_family. exact Hfamily.
Qed.

(** The ladder adds a character only on its second rung and only for a
    scene that names a keyword family. *)
Lemma advance_story_characters (choices_made : Z) (s : GameState) :
  (choices_made = 2 -> scene_family (current_scene s) = GenericScene) ->
  characters_present (fst (advance_story choices_made s))
  = characters_present s.
Proof.
  intros Hgeneric. unfold advance_story, advance_story_with.
  destruct (Z.eqb_spec choices_made 1);
    [| destruct (Z.eqb_spec choices_made 2);
       [| destruct (Z.eqb_spec choices_made 3);
          [| destruct (Z.eqb_spec choices_made 4)]]].
  2: { specialize (Hgeneric ltac:(assumption)).
       unfold scene_family, scene_family_with in Hgeneric.
       destruct (py_in "cyberpunk" (lower (current_scene s)));
         [discriminate|].
       destruct (py_in "atlantis" (lower (current_scene s)));
         [discriminate|].
       destruct (py_in "forest" (lower (current_scene s)));
         [discriminate|].
       reflexivity. }
  all: try (destruct (py_in "cyberpunk" (lower (current_scene s)));
            [| destruct (py_in "atlantis" (lower (current_scene s)));
               [| destruct (py_in "forest" (lower (current_scene s)))]]);
    reflexivity.
Qed.

Lemma continue_narrative_characters (s : GameState) :
  (user_choices_made s = 2 -> scene_family (current_scene s) = GenericScene) ->
  characters_present (snd (continue_narrative s)) = characters_present s.
Proof.
  intros Hgeneric. unfold continue_narrative, continue_narrative_with.
  change (advance_story_with lower ?n ?st) with (advance_story n st).
  pose proof (advance_story_characters (user_choices_made s) s Hgeneric)
    as Hkept.
  destruct (advance_story (user_choices_made s) s) as [s1 [text|]];
    exact Hkept.
Qed.

Lemma create_story_climax_characters (media : bool) (final_choice : string)
    (video_reply : VideoReply) (image_reply : ImageReply) (s : GameState) :
  characters_present
    (snd (create_story_climax media final_choice video_reply image_reply s))
  = characters_present s.
Proof.
  unfold create_story_climax, create_epic_climax_video,
    generate_video_from_image_seed, create_single_choice_image.
  destruct (last (generated_images s)) as [seed|];
    [destruct (truthy seed)|];
    destruct media, video_reply, image_reply; reflexivity.
Qed.

(** One make-choice request leaves the characters alone as long as the
    scene met with one choice made names no family, and the scene it leaves
    after the first choice is of that kind. *)
Lemma make_choice_characters (media : bool) (choice : string)
    (env : ChoiceEnv) (s : GameState) :
  0 <= user_choices_made s ->
  (user_choices_made s = 1 -> scene_family (current_scene s) = GenericScene) ->
  characters_present (snd (make_choice media true choice env s))
  = characters_present s
  /\ (user_choices_made s = 0 ->
      scene_family (current_scene (snd (make_choice media true choice env s)))
      = GenericScene).
Proof.
  intros Hcount Hgeneric.
  unfold make_choice. cbn [negb].
  pose proof (resolve_user_choice_effect media choice (narrative_reply env)
                (outcome_image_reply env) s) as Hresolve.
  assert (characters_present
            (snd (resolve_user_choice media choice (narrative_reply env)
                    (outcome_image_reply env) s))
          = characters_present s) as Hchars.
  { unfold resolve_user_choice, create_dramatic_outcome,
      create_single_choice_image.
    destruct media, (outcome_image_reply env); reflexivity. }
  destruct (resolve_user_choice media choice (narrative_reply env)
              (outcome_image_reply env) s) as [res s1].
  cbn [snd] in Hchars.
  destruct Hresolve as (Hscene & Hmade & _ & Hres & _).
  rewrite Hres.
  destruct (Z.ltb_spec (user_choices_made s + 1) 5) as [Hearly | Hfifth].
  - assert (1 <= user_choices_made s1 <= 4) as Hrange by lia.
    pose proof (continue_narrative_characters s1) as Hkept.
    destruct (continue_narrative_returns s1 Hrange)
      as (cont & s2 & e2 & Hcont & Hnext & _).
    rewrite Hcont in Hkept |- *. cbn [snd] in Hkept.
    destruct (present_story_choice_effect EmptyString EmptyString EmptyString
                EmptyString (next_choices_reply env) s2)
      as (pres & e3 & Hpres & _).
    rewrite Hpres. cbn.
    split.
    + rewrite Hkept; [exact Hchars|].
      intros Htwo. rewrite Hscene. apply Hgeneric. lia.
    + intros Hzero. rewrite Hnext.
      replace (user_choices_made s1) with 1 by lia.
      apply first_continuation_is_generic.
  - pose proof (create_story_climax_characters media choice
                  (climax_video_reply env) (climax_image_reply env) s1)
      as Hkept.
    destruct (create_story_climax media choice (climax_video_reply env)
                (climax_image_reply env) s1) as [climax s2].
    cbn [snd] in *. split; [congruence | intros; lia].
Qed.

(** What one request of any kind preserves: a non-negative counter, a
    scene without keyword family whenever one choice has been made, and the
    list of characters. *)
Lemma api_effect_characters (media agent : bool) (call : ApiCall)
    (s : GameState) :
  0 <= user_choices_made s ->
  (user_choices_made s = 1 -> scene_family (current_scene s) = GenericScene) ->
  let s' := api_effect media agent call s in
  0 <= user_choices_made s'
  /\ (user_choices_made s' = 1 ->
      scene_family (current_scene s') = GenericScene)
  /\ characters_present s' = characters_present s.
Proof.
  intros Hcount Hgeneric.
  destruct call as [request env | choice env | kind prompt tone env | | scans];
    cbn [api_effect].
  - destruct agent; [| cbn; repeat split; assumption || reflexivity].
    destruct (start_story_effect media request env s)
      as (r & s' & Hrun & Hzero & _).
    assert (characters_present
              (snd (start_story media true request env s))
            = characters_present s) as Hchars.
    { unfold start_story, begin_opening_scene, generate_establishing_scene,
        start_new_adventure, start_new_adventure_with.
      cbn [negb]. destruct (select_scenario_with lower request) as [kind template].
      cbn.
      destruct media, (opening_image_reply env); cbn;
        match goal with
        | |- context [present_story_choice ?a ?b ?c ?d ?t ?st] =>
            destruct (present_story_choice_effect a b c d t st)
              as (pres & e & Hpres & _); rewrite Hpres
        end; reflexivity. }
    rewrite Hrun in Hchars |- *. cbn [snd] in *.
    split; [lia|]. split; [intros; lia | exact Hchars].
  - destruct agent; [| cbn; repeat split; assumption || reflexivity].
    destruct (make_choice_characters media choice env s Hcount Hgeneric)
      as (Hchars & Hfirst).
    destruct (make_choice_effect media choice env s Hcount)
      as (r & s' & added & Hrun & Hmade & _).
    rewrite Hrun in Hchars, Hfirst |- *. cbn [snd] in *.
    split; [lia|]. split; [| exact Hchars].
    intros Hone. apply Hfirst. lia.
  - assert (let s' := snd (generate_media media agent kind prompt tone env s) in
            current_scene s' = current_scene s
            /\ characters_present s' = characters_present s
            /\ user_choices_made s' = user_choices_made s) as Hframe.
    { unfold generate_media, media_branch, generate_establishing_scene,
        create_single_choice_image, generate_direct_video.
      destruct agent; cbn [negb]; [| repeat split; reflexivity].
      destruct (String.eqb kind "image");
        [destruct (images (scene_media_count s) <? 1), media,
           (media_image_reply env); repeat split; reflexivity|].
      destruct (String.eqb kind "music"); [repeat split; reflexivity|].
      destruct (String.eqb kind "video"); [| repeat split; reflexivity].
      destruct (media_video_reply env); cbn;
        destruct (generated_videos s);
        destruct (images (scene_media_count s) <? 1), media,
          (media_image_reply env); repeat split; reflexivity. }
    cbn zeta in Hframe. destruct Hframe as (Hscene & Hchars & Hmade).
    rewrite Hscene, Hchars, Hmade. repeat split; assumption.
  - repeat split; assumption.
  - unfold get_media_files.
    destruct agent; cbn; repeat split; assumption.
Qed.

(** X28. Through the HTTP routes no character is ever added. The scene
    that the first choice leaves never names "cyberpunk", "atlantis" or
    "forest", so the second rung of [continue_narrative], the only place
    that appends to [characters_present], always takes its generic branch:
    after any sequence of requests served from a fresh process the list of
    characters is empty. *)
Theorem api_never_adds_a_character (media agent : bool)
    (calls : list ApiCall) :
  characters_present (api_run media agent calls initial_game_state) = [].
Proof.
  unfold api_run.
  assert (0 <= user_choices_made initial_game_state
          /\ (user_choices_made initial_game_state = 1 ->
              scene_family (current_scene initial_game_state) = GenericScene)
          /\ characters_present initial_game_state = []) as Hinit
    by (cbn; repeat split; [lia | discriminate]).
  revert Hinit. generalize initial_game_state.
  induction calls as [|call calls IH]; intros s (Hcount & Hgeneric & Hnone);
    [exact Hnone|].
  cbn [fold_left]. apply IH.
  destruct (api_effect_characters media agent call s Hcount Hgeneric)
    as (Hcount' & Hgeneric' & Hchars).
  repeat split; [exact Hcount' | exact Hgeneric' | congruence].
Qed.
